(** * X.com bot template: post lifecycle, verified against the TypeScript source

    Shallow embedding of
      - [src/services/generator/post-generator.ts]    (modules [Generator]
        and [Expansion]),
      - [src/shared/database/schema.ts]               (modules [Posts],
        [BotStats], [PostLogs] and [Db]: the tables, their constraints and
        triggers, and the SQL statements the code issues),
      - [src/services/generator/database-seeder.ts]   (modules [Seeder] and
        [Seeding]),
      - [src/services/post-manager.ts]                (modules [PostManager]
        and [Maintenance]),
      - [src/bot.ts]                                  (modules [Bot],
        [Control] and [Schedule]),
      - [src/services/twitter.ts], [src/services/openai.ts]
                                                      (modules [Twitter] and
        [OpenAi]: [postTweet] and [validateAndCleanContent]),
    with the JavaScript and Node functions they call ([Js], [Sha256]),
    followed by the properties of the specification (C1 to C10), each one
    stated over these definitions, and by properties of the rest of the
    code (X1 to X28).

    Code that throws returns an [outcome]; code that changes the database
    takes it and returns it; the bot threads a [Bot.world]: the database,
    the clock, and a trace of what it did to the outside. *)

From Stdlib Require Import ZArith List String Ascii QArith Lia Bool.
From Stdlib Require Import Sorted Permutation.
Import ListNotations.
Open Scope string_scope.
Open Scope Z_scope.

(* ================================================================== *)
(** * Part I: the program *)
(* ================================================================== *)

(** ** JavaScript values used by the program *)

Module Js.

(** [a || b] on strings: the empty string is falsy. *)
Definition or_str (a b : string) : string :=
  match a with
  | EmptyString => b
  | _ => a
  end.

(** [a || b] where [a] may be [undefined]. *)
Definition or_undef (a : option string) (b : string) : string :=
  match a with
  | Some s => or_str s b
  | None => b
  end.

(** Strings are sequences of characters below U+0080 (all the text the
    program generates is ASCII); a character is given by its code. *)
Definition code (c : ascii) : Z := Z.of_N (N_of_ascii c).

Definition of_code (n : Z) : ascii := ascii_of_N (Z.to_N n).

(** White space and line terminators, as [trim] and [parseInt] skip them. *)
Definition is_space (c : ascii) : bool :=
  ((9 <=? code c) && (code c <=? 13)) || (code c =? 32).

Fixpoint trimStart (s : string) : string :=
  match s with
  | EmptyString => EmptyString
  | String c rest => if is_space c then trimStart rest else s
  end.

Fixpoint trimEnd (s : string) : string :=
  match s with
  | EmptyString => EmptyString
  | String c rest =>
      match trimEnd rest with
      | EmptyString => if is_space c then EmptyString else String c EmptyString
      | rest' => String c rest'
      end
  end.

(** [s.trim()] *)
Definition trim (s : string) : string := trimEnd (trimStart s).

Definition lower_char (c : ascii) : ascii :=
  if (65 <=? code c) && (code c <=? 90) then of_code (code c + 32) else c.

(** [s.toLowerCase()] *)
Fixpoint toLowerCase (s : string) : string :=
  match s with
  | EmptyString => EmptyString
  | String c rest => String (lower_char c) (toLowerCase rest)
  end.

(** [s.includes(sub)] *)
Fixpoint includes (s sub : string) : bool :=
  String.prefix sub s ||
  match s with
  | EmptyString => false
  | String _ rest => includes rest sub
  end.

Definition dquote : ascii := of_code 34.

Definition dropLeadingQuote (s : string) : string :=
  match s with
  | String c rest => if Ascii.eqb c dquote then rest else s
  | EmptyString => EmptyString
  end.

Fixpoint dropTrailingQuote (s : string) : string :=
  match s with
  | EmptyString => EmptyString
  | String c EmptyString => if Ascii.eqb c dquote then EmptyString else s
  | String c rest => String c (dropTrailingQuote rest)
  end.

(** [s.replace(/^"|"$/g, '')]: a quote at the very start and a quote at the
    very end are removed, each on its own. *)
Definition stripQuotes (s : string) : string :=
  dropTrailingQuote (dropLeadingQuote s).

(** A number as [parseInt] returns it: an integer, or [NaN]. *)
Inductive number : Type :=
| Num (z : Z)
| NaN.

Definition digit (radix : Z) (c : ascii) : option Z :=
  let n := code c in
  let v := if (48 <=? n) && (n <=? 57) then n - 48
           else if (97 <=? n) && (n <=? 122) then n - 87
           else if (65 <=? n) && (n <=? 90) then n - 55
           else 99 in
  if v <? radix then Some v else None.

(** The longest prefix of digits, read in [radix]; [None] when it is empty. *)
Fixpoint digits (radix : Z) (s : string) (acc : option Z) : option Z :=
  match s with
  | EmptyString => acc
  | String c rest =>
      match digit radix c with
      | Some d =>
          digits radix rest
            (Some (radix * (match acc with Some a => a | None => 0 end) + d))
      | None => acc
      end
  end.

Definition unsigned (s : string) : option Z :=
  match s with
  | String "0" (String "x" rest) => digits 16 rest None
  | String "0" (String "X" rest) => digits 16 rest None
  | _ => digits 10 s None
  end.

(** [parseInt(s)] without a radix argument. *)
Definition parseInt (s : string) : number :=
  let s := trimStart s in
  let (sign, body) :=
    match s with
    | String "-" rest => (-1, rest)
    | String "+" rest => (1, rest)
    | _ => (1, s)
    end in
  match unsigned body with
  | Some n => Num (sign * n)
  | None => NaN
  end.

(** [a <= b] on numbers: false as soon as one side is [NaN]. *)
Definition le (a b : number) : bool :=
  match a, b with
  | Num x, Num y => x <=? y
  | _, _ => false
  end.

(** [a === b] on numbers. *)
Definition strict_eq (a b : number) : bool :=
  match a, b with
  | Num x, Num y => x =? y
  | _, _ => false
  end.

(** [process.env.X || dflt] *)
Definition env_or (v : option string) (dflt : string) : string :=
  or_undef v dflt.

(** *** Property access on an object literal *)

(** The properties an object literal inherits from [Object.prototype],
    each with its own [length].  They are functions, whose [length] is their
    number of parameters, except [__proto__], which is the prototype object
    and has none.  All of them are truthy, and none has an element at an
    index. *)
Definition objectPrototype : list (string * option nat) :=
  [ ("constructor", Some 1%nat);
    ("__defineGetter__", Some 2%nat);
    ("__defineSetter__", Some 2%nat);
    ("hasOwnProperty", Some 1%nat);
    ("__lookupGetter__", Some 1%nat);
    ("__lookupSetter__", Some 1%nat);
    ("isPrototypeOf", Some 1%nat);
    ("propertyIsEnumerable", Some 1%nat);
    ("toString", Some 0%nat);
    ("valueOf", Some 0%nat);
    ("__proto__", None);
    ("toLocaleString", Some 0%nat) ].

(** What [obj[key]] finds: a property of the literal itself, a member of
    [Object.prototype], given by its [length], or nothing ([undefined]). *)
Inductive property (A : Type) : Type :=
| Own (value : A)
| Inherited (length : option nat)
| Undefined.

Arguments Own {A} value.
Arguments Inherited {A} length.
Arguments Undefined {A}.

(** The properties of the literal itself. *)
Fixpoint own {A : Type} (key : string) (obj : list (string * A)) : option A :=
  match obj with
  | [] => None
  | (k, v) :: rest => if String.eqb k key then Some v else own key rest
  end.

(** [obj[key]]: the literal's own property, or else what the prototype has
    under that name. *)
Definition get {A : Type} (key : string) (obj : list (string * A)) : property A :=
  match own key obj with
  | Some v => Own v
  | None =>
      match own key objectPrototype with
      | Some length => Inherited length
      | None => Undefined
      end
  end.

End Js.

(** ** SHA-256 ([createHash('sha256')] of Node's crypto, FIPS 180-4) *)

Module Sha256.

Definition w32 (x : Z) : Z := Z.land x 4294967295.

Definition add32 (x y : Z) : Z := w32 (x + y).

Definition rotr (n x : Z) : Z :=
  Z.lor (Z.shiftr x n) (w32 (Z.shiftl x (32 - n))).

Definition not32 (x : Z) : Z := Z.lxor x 4294967295.

Definition Ch (x y z : Z) : Z := Z.lxor (Z.land x y) (Z.land (not32 x) z).

Definition Maj (x y z : Z) : Z :=
  Z.lxor (Z.lxor (Z.land x y) (Z.land x z)) (Z.land y z).

Definition Sigma0 (x : Z) : Z := Z.lxor (Z.lxor (rotr 2 x) (rotr 13 x)) (rotr 22 x).

Definition Sigma1 (x : Z) : Z := Z.lxor (Z.lxor (rotr 6 x) (rotr 11 x)) (rotr 25 x).

Definition sigma0 (x : Z) : Z := Z.lxor (Z.lxor (rotr 7 x) (rotr 18 x)) (Z.shiftr x 3).

Definition sigma1 (x : Z) : Z := Z.lxor (Z.lxor (rotr 17 x) (rotr 19 x)) (Z.shiftr x 10).

(** FIPS 180-4 takes its constants from the primes: the first 32 bits of
    the fractional parts of the cube roots of the first 64 primes for the
    round constants, of the square roots of the first 8 primes for the
    initial hash value. *)
Definition is_prime (n : nat) : bool :=
  forallb (fun d => negb (n mod d =? 0)%nat) (seq 2 (n - 2)).

Definition primes (count : nat) : list Z :=
  map Z.of_nat (firstn count (filter is_prime (seq 2 400))).

(** The largest [r] below [2 ^ bits] with [r ^ k <= x], one bit at a time. *)
Fixpoint root (k : Z) (bits : nat) (x r : Z) : Z :=
  match bits with
  | O => r
  | S b =>
      let c := r + 2 ^ Z.of_nat b in
      root k b x (if c ^ k <=? x then c else r)
  end.

(** First 32 bits of the fractional part of the [k]-th root of [p]. *)
Definition frac32 (k p : Z) : Z :=
  w32 (root k 40 (p * 2 ^ (32 * k)) 0).

Definition K : list Z := Eval vm_compute in map (frac32 3) (primes 64).

(** The eight working words. *)
Record state : Type := mkState {
  ha : Z; hb : Z; hc : Z; hd : Z; he : Z; hf : Z; hg : Z; hh : Z }.

Definition H0 : state :=
  Eval vm_compute in
    match map (frac32 2) (primes 8) with
    | [a; b; c; d; e; f; g; h] => mkState a b c d e f g h
    | _ => mkState 0 0 0 0 0 0 0 0
    end.

Fixpoint bytes (s : string) : list Z :=
  match s with
  | EmptyString => []
  | String c rest => Js.code c :: bytes rest
  end.

(** Big-endian bytes of [x], [n] of them. *)
Fixpoint be_bytes (n : nat) (x : Z) : list Z :=
  match n with
  | O => []
  | S n' => (Z.shiftr x (8 * Z.of_nat n')) mod 256 :: be_bytes n' x
  end.

(** Message, one bit, zeros up to 56 modulo 64, length in bits on 64 bits. *)
Definition pad (msg : list Z) : list Z :=
  let len := Z.of_nat (List.length msg) in
  (msg ++ [128] ++ repeat 0 (Z.to_nat ((55 - len) mod 64)) ++ be_bytes 8 (8 * len))%list.

Fixpoint words (bs : list Z) : list Z :=
  match bs with
  | b0 :: b1 :: b2 :: b3 :: rest =>
      (((b0 * 256 + b1) * 256 + b2) * 256 + b3) :: words rest
  | _ => []
  end.

(** The message schedule, most recent word first: [extend n w] adds
    W(t) for the next [n] values of [t]. *)
Fixpoint extend (n : nat) (w : list Z) : list Z :=
  match n with
  | O => w
  | S n' =>
      let wt := add32 (add32 (sigma1 (nth 1 w 0)) (nth 6 w 0))
                      (add32 (sigma0 (nth 14 w 0)) (nth 15 w 0)) in
      extend n' (wt :: w)
  end.

Definition schedule (block : list Z) : list Z :=
  rev (extend 48 (rev block)).

Definition round (s : state) (kw : Z * Z) : state :=
  let (k, w) := kw in
  let t1 := add32 (add32 (add32 (hh s) (Sigma1 (he s))) (Ch (he s) (hf s) (hg s)))
                  (add32 k w) in
  let t2 := add32 (Sigma0 (ha s)) (Maj (ha s) (hb s) (hc s)) in
  mkState (add32 t1 t2) (ha s) (hb s) (hc s) (add32 (hd s) t1) (he s) (hf s) (hg s).

Definition compress (h : state) (block : list Z) : state :=
  let s := fold_left round (combine K (schedule block)) h in
  mkState (add32 (ha h) (ha s)) (add32 (hb h) (hb s)) (add32 (hc h) (hc s))
          (add32 (hd h) (hd s)) (add32 (he h) (he s)) (add32 (hf h) (hf s))
          (add32 (hg h) (hg s)) (add32 (hh h) (hh s)).

(** One block of sixteen words at a time; [n] bounds the number of blocks. *)
Fixpoint blocks (n : nat) (ws : list Z) (h : state) : state :=
  match n with
  | O => h
  | S n' =>
      match ws with
      | [] => h
      | _ => blocks n' (skipn 16 ws) (compress h (firstn 16 ws))
      end
  end.

Definition digest (msg : list Z) : state :=
  let ws := words (pad msg) in
  blocks (List.length ws) ws H0.

Definition hex_digit (n : Z) : ascii :=
  if n <? 10 then Js.of_code (48 + n) else Js.of_code (87 + n).

(** [n] hexadecimal digits of [x], most significant first. *)
Fixpoint hex (n : nat) (x : Z) : string :=
  match n with
  | O => EmptyString
  | S n' => String (hex_digit ((Z.shiftr x (4 * Z.of_nat n')) mod 16)) (hex n' x)
  end.

Definition hex_state (s : state) : string :=
  hex 8 (ha s) ++ hex 8 (hb s) ++ hex 8 (hc s) ++ hex 8 (hd s) ++
  hex 8 (he s) ++ hex 8 (hf s) ++ hex 8 (hg s) ++ hex 8 (hh s).

(** [createHash('sha256').update(s).digest('hex')] *)
Definition sha256_hex (s : string) : string := hex_state (digest (bytes s)).

End Sha256.

(** ** Results of code that can throw *)

Inductive outcome (A : Type) : Type :=
| Ok (a : A)
| Throw (message : string).

Arguments Ok {A} a.
Arguments Throw {A} message.

(** ** shared/types/index.ts *)

Module Types.

Record PostGenerationResult : Type := mkPostGenerationResult {
  content : string;
  category : option string;
  tokens_used : Z;
  cost : Q;
  model : string }.

End Types.

(** ** shared/database/schema.ts: tables, constraints and triggers

    Timestamps are seconds ([CURRENT_TIMESTAMP] has a resolution of one
    second); a nullable column is an [option]. *)

Module Posts.

Record row : Type := mk {
  id : Z;
  content : string;
  bot_id : string;
  category : option string;
  used : bool;
  used_at : option Z;
  created_at : Z;
  updated_at : Z;
  generation_cost : option Q;
  generation_tokens : option Z;
  generation_model : option string;
  content_hash : option string }.

End Posts.

Module BotStats.

Record row : Type := mk {
  id : Z;
  bot_id : string;
  total_posts : Z;
  used_posts : Z;
  remaining_posts : Z;
  last_post_at : option Z;
  last_replenishment_at : option Z;
  total_cost : Q;
  total_tokens : Z;
  created_at : Z;
  updated_at : Z }.

End BotStats.

Module PostLogs.

Record row : Type := mk {
  id : Z;
  bot_id : string;
  post_id : option Z;
  attempt_number : Z;
  success : bool;
  tweet_id : option string;
  error_message : option string;
  response_time_ms : option Z;
  created_at : Z }.

End PostLogs.

Module Db.

(** The three tables the post lifecycle touches.  [posts] lists the rows in
    the order in which a scan hands them to a query.  [id] is the rowid
    ([INTEGER PRIMARY KEY]): the table is stored by rowid, and every index
    on [posts] lists the entries that share a key by rowid, so that rows
    that tie on an ORDER BY key reach the query in rowid order.  The [_seq]
    fields are the AUTOINCREMENT counters. *)
Record t : Type := mk {
  posts : list Posts.row;
  posts_seq : Z;
  bot_stats : list BotStats.row;
  post_logs : list PostLogs.row;
  post_logs_seq : Z }.

Definition with_posts (d : t) (rows : list Posts.row) (seq : Z) : t :=
  mk rows seq (bot_stats d) (post_logs d) (post_logs_seq d).

Definition with_bot_stats (d : t) (rows : list BotStats.row) : t :=
  mk (posts d) (posts_seq d) rows (post_logs d) (post_logs_seq d).

Definition with_post_logs (d : t) (rows : list PostLogs.row) (seq : Z) : t :=
  mk (posts d) (posts_seq d) (bot_stats d) rows seq.

Definition hash_is (h : string) (r : Posts.row) : bool :=
  match Posts.content_hash r with
  | Some h' => String.eqb h' h
  | None => false
  end.

(** [WHERE bot_id = ? AND used = 0] *)
Definition unused_of (botId : string) (r : Posts.row) : bool :=
  String.eqb (Posts.bot_id r) botId && negb (Posts.used r).

(** [ORDER BY created_at ASC LIMIT 1]: the first row, in the order the rows
    arrive, whose [created_at] no other row undercuts. *)
Fixpoint oldest (rows : list Posts.row) : option Posts.row :=
  match rows with
  | [] => None
  | r :: rest =>
      match oldest rest with
      | None => Some r
      | Some m =>
          if Posts.created_at r <=? Posts.created_at m then Some r else Some m
      end
  end.

(** [SELECT * FROM posts WHERE bot_id = ? AND used = 0
     ORDER BY created_at ASC LIMIT 1] *)
Definition select_next_unused (d : t) (botId : string) : option Posts.row :=
  oldest (filter (unused_of botId) (posts d)).

(** [WHERE id = ? AND bot_id = ?] *)
Definition targets (postId : Z) (botId : string) (r : Posts.row) : bool :=
  (Posts.id r =? postId) && String.eqb (Posts.bot_id r) botId.

(** [SET used = 1, used_at = CURRENT_TIMESTAMP, updated_at = CURRENT_TIMESTAMP];
    trigger [update_posts_updated_at] writes the same [updated_at] again. *)
Definition set_used (now : Z) (r : Posts.row) : Posts.row :=
  Posts.mk (Posts.id r) (Posts.content r) (Posts.bot_id r) (Posts.category r)
           true (Some now) (Posts.created_at r) now
           (Posts.generation_cost r) (Posts.generation_tokens r)
           (Posts.generation_model r) (Posts.content_hash r).

(** The body of trigger [update_bot_stats_on_post_used], for one post row
    of [botId]. *)
Definition bump_used (botId : string) (now : Z) (s : BotStats.row) : BotStats.row :=
  if String.eqb (BotStats.bot_id s) botId then
    BotStats.mk (BotStats.id s) (BotStats.bot_id s) (BotStats.total_posts s)
                (BotStats.used_posts s + 1) (BotStats.remaining_posts s - 1)
                (Some now) (BotStats.last_replenishment_at s)
                (BotStats.total_cost s) (BotStats.total_tokens s)
                (BotStats.created_at s) now
  else s.

(** Trigger [update_bot_stats_on_post_used] fires once per updated row with
    [NEW.used = 1 AND OLD.used = 0]; [olds] are the rows the UPDATE hit, as
    they were before it. *)
Fixpoint fire_used (olds : list Posts.row) (now : Z) (stats : list BotStats.row)
  : list BotStats.row :=
  match olds with
  | [] => stats
  | old :: rest =>
      let stats :=
        if negb (Posts.used old) then map (bump_used (Posts.bot_id old) now) stats
        else stats in
      fire_used rest now stats
  end.

(** [UPDATE posts SET used = 1, used_at = CURRENT_TIMESTAMP,
     updated_at = CURRENT_TIMESTAMP WHERE id = ? AND bot_id = ?],
    with the triggers of the schema. *)
Definition update_post_used (d : t) (postId : Z) (botId : string) (now : Z) : t :=
  let hit := filter (targets postId botId) (posts d) in
  let rows :=
    map (fun r => if targets postId botId r then set_used now r else r) (posts d) in
  with_bot_stats (with_posts d rows (posts_seq d)) (fire_used hit now (bot_stats d)).

(** [SELECT id FROM posts WHERE bot_id = ? AND content_hash = ?] *)
Definition select_id_by_hash (d : t) (botId hash : string) : option Z :=
  option_map Posts.id
    (find (fun r => String.eqb (Posts.bot_id r) botId && hash_is hash r) (posts d)).

Definition max_id (rows : list Posts.row) : Z :=
  fold_right (fun r m => Z.max (Posts.id r) m) 0 rows.

(** [INSERT INTO posts (...)] as [storePosts] and the seeder issue it:
    [used] is 0, [used_at] stays NULL, both timestamps are CURRENT_TIMESTAMP.
    It fails on [content_hash TEXT UNIQUE] (a column constraint: any row with
    this hash, whatever its bot) and on
    [unique_content_per_bot UNIQUE(bot_id, content_hash)]. *)
Definition insert_post (d : t) (content botId : string)
    (category : option string) (cost : Q) (tokens : Z)
    (model hash : string) (now : Z) : outcome t :=
  if existsb (hash_is hash) (posts d) then
    Throw "SQLITE_CONSTRAINT: UNIQUE constraint failed: posts.content_hash"
  else if existsb (fun r => String.eqb (Posts.bot_id r) botId && hash_is hash r)
                  (posts d) then
    Throw "SQLITE_CONSTRAINT: UNIQUE constraint failed: posts.bot_id, posts.content_hash"
  else
    let id := Z.max (posts_seq d) (max_id (posts d)) + 1 in
    let r := Posts.mk id content botId category false None now now
                      (Some cost) (Some tokens) (Some model) (Some hash) in
    Ok (with_posts d (posts d ++ [r])%list id).

(** [SELECT COUNT( * ) FROM posts WHERE bot_id = ?] *)
Definition count_posts (d : t) (botId : string) : Z :=
  Z.of_nat (List.length
    (filter (fun r => String.eqb (Posts.bot_id r) botId) (posts d))).

(** [SELECT COUNT( * ) FROM posts WHERE bot_id = ? AND used = 1] *)
Definition count_used (d : t) (botId : string) : Z :=
  Z.of_nat (List.length
    (filter (fun r => String.eqb (Posts.bot_id r) botId && Posts.used r) (posts d))).

(** [INSERT INTO post_logs (...)]: a parameter bound to [undefined] stays
    NULL, which [bot_id TEXT NOT NULL] refuses; an [attempt_number] left out
    takes its default, 1. *)
Definition insert_post_log (d : t) (botId : option string)
    (attempt : option Z) (success : bool) (tweetId errorMessage : option string)
    (responseTime : option Z) (now : Z) : outcome t :=
  match botId with
  | None => Throw "SQLITE_CONSTRAINT: NOT NULL constraint failed: post_logs.bot_id"
  | Some b =>
      let id := post_logs_seq d + 1 in
      let r := PostLogs.mk id b None
                 (match attempt with Some a => a | None => 1 end)
                 success tweetId errorMessage responseTime now in
      Ok (with_post_logs d (post_logs d ++ [r])%list id)
  end.

Definition replenished (n : Z) (botId : string) (now : Z) (s : BotStats.row)
  : BotStats.row :=
  if String.eqb (BotStats.bot_id s) botId then
    BotStats.mk (BotStats.id s) (BotStats.bot_id s) (BotStats.total_posts s + n)
                (BotStats.used_posts s) (BotStats.remaining_posts s + n)
                (BotStats.last_post_at s) (Some now)
                (BotStats.total_cost s) (BotStats.total_tokens s)
                (BotStats.created_at s) now
  else s.

(** [UPDATE bot_stats SET total_posts = total_posts + ?,
     remaining_posts = remaining_posts + ?, last_replenishment_at = ...,
     updated_at = ... WHERE bot_id = ?] *)
Definition update_stats_replenished (d : t) (n : Z) (botId : string) (now : Z) : t :=
  with_bot_stats d (map (replenished n botId now) (bot_stats d)).

(** [SELECT * FROM bot_stats WHERE bot_id = ?] *)
Definition select_stats (d : t) (botId : string) : option BotStats.row :=
  find (fun s => String.eqb (BotStats.bot_id s) botId) (bot_stats d).

End Db.

(** ** post-generator.ts: the content catalog *)

Module Generator.

(** [TEMPLATE_TOPICS]; an object literal, so [Object.keys] and
    [Object.entries] follow the order of the literal. *)
Definition TEMPLATE_TOPICS : list (string * string) :=
  [ ("battle_wisdom", "Battle Wisdom");
    ("war_experience", "War Experience");
    ("weapon_knowledge", "Weapon Knowledge");
    ("combat_psychology", "Combat Psychology");
    ("tactical_thinking", "Tactical Thinking");
    ("warrior_code", "Warrior Code");
    ("battlefield_leadership", "Battlefield Leadership");
    ("survival_in_combat", "Survival in Combat");
    ("personal_philosophy", "Personal Philosophy");
    ("death_mortality", "Death & Mortality");
    ("redemption_change", "Redemption & Change");
    ("inner_struggle", "Inner Struggle");
    ("wisdom_experience", "Wisdom from Experience");
    ("life_advice", "Life Advice");
    ("purpose_meaning", "Purpose & Meaning");
    ("fate_choice", "Fate vs Choice");
    ("friendship_loyalty", "Friendship & Loyalty");
    ("trust_betrayal", "Trust & Betrayal");
    ("leadership", "Leadership");
    ("family_bonds", "Family Bonds");
    ("romance", "Romance");
    ("social_dynamics", "Social Dynamics");
    ("northern_values", "Northern Values");
    ("cultural_traditions", "Cultural Traditions");
    ("regional_pride", "Regional Pride");
    ("cultural_differences", "Cultural Differences");
    ("modern_life", "Modern Life Observations");
    ("technology_change", "Technology & Change");
    ("social_media", "Social Media & Communication");
    ("work_labor", "Work & Labor");
    ("humor_wit", "Humor & Wit");
    ("everyday_wisdom", "Everyday Wisdom") ].

(** [TOPIC_WEIGHTS], the decimal literals read as exact rationals. *)
Definition TOPIC_WEIGHTS : list (string * Q) :=
  [ ("battle_wisdom", 8 # 100);
    ("personal_philosophy", 8 # 100);
    ("friendship_loyalty", 8 # 100);
    ("inner_struggle", 8 # 100);
    ("modern_life", 8 # 100);
    ("war_experience", 7 # 100);
    ("life_advice", 7 # 100);
    ("leadership", 7 # 100);
    ("northern_values", 7 # 100);
    ("humor_wit", 7 # 100);
    ("weapon_knowledge", 5 # 100);
    ("romance", 5 # 100);
    ("technology_change", 5 # 100);
    ("cultural_traditions", 5 # 100);
    ("everyday_wisdom", 5 # 100);
    ("combat_psychology", 3 # 100);
    ("tactical_thinking", 3 # 100);
    ("warrior_code", 3 # 100);
    ("battlefield_leadership", 3 # 100);
    ("survival_in_combat", 3 # 100);
    ("death_mortality", 3 # 100);
    ("redemption_change", 3 # 100);
    ("wisdom_experience", 3 # 100);
    ("purpose_meaning", 3 # 100);
    ("fate_choice", 3 # 100);
    ("trust_betrayal", 3 # 100);
    ("family_bonds", 3 # 100);
    ("social_dynamics", 3 # 100);
    ("regional_pride", 3 # 100);
    ("cultural_differences", 3 # 100);
    ("social_media", 3 # 100);
    ("work_labor", 3 # 100) ].

(** The picker, over any number type with an addition and a comparison:
    the source runs it on IEEE doubles, the numerical property below on
    exact rationals, and the control flow is the same for both. *)
Section Picker.
Variable num : Type.
Variable zero : num.
Variable add : num -> num -> num.
Variable leb : num -> num -> bool.

(** The [for (const [topic, weight] of Object.entries(...))] loop of
      [getRandomTopic]; [None] is "the loop ended without returning". *)
Fixpoint walk (entries : list (string * num)) (cumulative random : num)
    : option string :=
    match entries with
    | [] => None
    | (topic, weight) :: rest =>
        let cumulative := add cumulative weight in
        if leb random cumulative then Some topic
        else walk rest cumulative random
    end.

(** The statement after the loop. *)
Definition fallback (topics : list (string * string)) : string :=
    let topicKeys := map fst topics in
    if (0 <? Z.of_nat (List.length topicKeys))
    then Js.or_undef (nth_error topicKeys 0) "battle_wisdom"
    else "battle_wisdom".

Definition getRandomTopicIn (weights : list (string * num))
      (topics : list (string * string)) (random : num) : string :=
    match walk weights zero random with
    | Some topic => topic
    | None => fallback topics
    end.

(** Value of [cumulative] after the first [k] entries. *)
Definition cumulativeAfter (weights : list (string * num)) (k : nat) : num :=
    fold_left add (map snd (firstn k weights)) zero.

End Picker.

(** [getRandomTopic], with the value of [Math.random()] as its input. *)
Definition getRandomTopic (random : Q) : string :=
  getRandomTopicIn Q 0%Q Qplus Qle_bool TOPIC_WEIGHTS TEMPLATE_TOPICS random.

Definition MODEL : string := "template-bot-local".

Definition COST_PER_POST : Q := 1 # 1000.

Definition TOKENS_PER_POST : Z := 50.

(** What [generateVariation] is handed as [basePosts]: an array of one of
    the tables, or, when the topic names a member of [Object.prototype],
    that member, with its [length]. *)
Inductive basePosts : Type :=
| Array (posts : list string)
| Member (length : option nat).

(** The object literal of [getTopicPosts]: ten seed sentences per topic. *)
Definition topicPosts : list (string * list string) :=
  [("battle_wisdom",
    [ "The best weapon is the one you know how to use. The worst is the one you think makes you look dangerous.";
      "In battle, the first rule is stay alive. Everything else comes after.";
      "A man who fights for nothing dies for nothing. Choose your battles wisely.";
      "The strongest warrior isn't the one who never falls. It's the one who keeps getting up.";
      "Fear keeps you alive. Panic gets you killed. Learn the difference.";
      "Sometimes the best strategy is to let your enemy think he's winning. Then show him he's not.";
      "Honor isn't about how you fight. It's about why you fight.";
      "A leader who won't fight beside his men doesn't deserve to lead them.";
      "Stay alive first. Win second. Everything else comes after.";
      "The best defense is knowing when to attack." ]);
    ("war_experience",
    [ "War isn't glorious. It's just men killing each other for reasons they've forgotten.";
      "In war, you learn that courage and stupidity look the same from a distance.";
      "The best warriors aren't the bravest. They're the ones who know when to run.";
      "War changes men. Some for better, most for worse.";
      "The dead don't care about your reasons. They just want you to remember them.";
      "Every battle teaches you something. If you're lucky, you live long enough to learn it.";
      "War is like a fire. It consumes everything, including the men who start it.";
      "The price of war is paid in blood, not gold.";
      "In war, there are no winners. Only survivors.";
      "War makes monsters of us all. The question is whether we can become men again." ]);
    ("weapon_knowledge",
    [ "A sword is only as good as the hand that holds it. And the hand is only as good as the mind that guides it.";
      "The best weapon is the one you can use without thinking.";
      "Every weapon has its purpose. Every purpose has its weapon.";
      "A blade is just metal until you give it meaning.";
      "The deadliest weapon is the one your enemy doesn't see coming.";
      "Respect your weapon. It might be the only thing that keeps you alive.";
      "A weapon is only as dangerous as the man wielding it.";
      "The best fighters know their weapons like they know their own hands.";
      "Every weapon tells a story. Make sure yours is worth telling.";
      "A weapon is a tool. Use it wisely." ]);
    ("combat_psychology",
    [ "Fear keeps you alive. Panic gets you killed. Learn the difference.";
      "The mind is the first weapon. The body is just the tool.";
      "In battle, your thoughts can kill you faster than any blade.";
      "Confidence wins fights. Arrogance loses them.";
      "The best warriors control their fear, not eliminate it.";
      "Your enemy's mind is as important as his sword.";
      "Combat is as much psychology as it is skill.";
      "The strongest weapon is a clear mind.";
      "Fear is your friend. Terror is your enemy.";
      "In battle, the mind must be as sharp as the blade." ]);
    ("tactical_thinking",
    [ "Sometimes the best strategy is to let your enemy think he's winning. Then show him he's not.";
      "The best tactician is the one who adapts to the battlefield, not the one who tries to change it.";
      "Every battle is different. Every enemy is different. Adapt or die.";
      "The best plan is the one that survives contact with the enemy.";
      "Tactics win battles. Strategy wins wars.";
      "Know your enemy. Know yourself. Know the ground.";
      "The best move is sometimes no move at all.";
      "Patience is a weapon. Use it wisely.";
      "The battlefield is a teacher. Learn from it.";
      "Sometimes retreat is the best advance." ]);
    ("warrior_code",
    [ "Honor isn't about how you fight. It's about why you fight.";
      "A warrior's word is his bond. Break it and you break yourself.";
      "The code isn't about rules. It's about who you are.";
      "Honor is what you do when no one is watching.";
      "A true warrior fights for others, not for glory.";
      "The code is simple: do what's right, not what's easy.";
      "Honor is the only thing that survives death.";
      "A warrior without honor is just a killer.";
      "The code isn't written in books. It's written in blood.";
      "Honor is the difference between a warrior and a murderer." ]);
    ("battlefield_leadership",
    [ "A leader who won't fight beside his men doesn't deserve to lead them.";
      "Leadership isn't about giving orders. It's about setting an example.";
      "The best leaders lead from the front, not from behind walls.";
      "A true leader shares the danger with his men.";
      "Leadership is earned in battle, not given in peace.";
      "The best commanders know their men's names.";
      "A leader's courage inspires his men's courage.";
      "Leadership is about responsibility, not privilege.";
      "The best leaders are servants to their men.";
      "A leader who asks his men to do what he won't do is no leader at all." ]);
    ("survival_in_combat",
    [ "Stay alive first. Win second. Everything else comes after.";
      "Survival isn't about being the strongest. It's about being the last one standing.";
      "The first rule of staying alive: never trust a man who smiles too much.";
      "In the wild, you learn that everything wants to kill you. Men are no different.";
      "Survival is a skill. Like any skill, it can be learned.";
      "The best survivors are the ones who know when to run.";
      "Survival isn't about winning. It's about not losing.";
      "The deadliest enemy is the one you don't see coming.";
      "Survival is about adaptation, not strength.";
      "The best survivors are the ones who think ahead." ]);
    ("personal_philosophy",
    [ "Life is short and brutal. Best to spend it with people worth dying for.";
      "Maybe the point isn't to find meaning in life, but to give meaning to the life you have.";
      "We make our choices, then our choices make us.";
      "The past is written. The future is a blank page. The present is where you write your story.";
      "Life is like a battle. You don't get to choose when it starts, but you can choose how you fight.";
      "The meaning of life is to give life meaning.";
      "Every man has his own path. Some are longer than others.";
      "Life is what happens while you're making other plans.";
      "The best life is the one you choose to live.";
      "Life is a journey, not a destination." ]);
    ("death_mortality",
    [ "Death comes for us all. The question is whether you face it or run.";
      "The dead don't care about your reasons. They just want you to remember them.";
      "Death is the great equalizer. It doesn't care about your wealth or status.";
      "Every man dies. Not every man truly lives.";
      "Death is just another enemy. Face it with courage.";
      "The fear of death is worse than death itself.";
      "Death is the price we pay for life.";
      "The dead are at peace. It's the living who suffer.";
      "Death is not the end. It's just the beginning of something else.";
      "Face death with dignity, and you'll live with honor." ]);
    ("redemption_change",
    [ "Maybe a man can change. I'm trying, but the past doesn't let go easily.";
      "Redemption isn't about forgetting what you've done. It's about doing better.";
      "The Bloody-Nine can't be killed, but maybe he can be tamed. I hope so.";
      "Change is hard. But it's harder to live with who you used to be.";
      "Every man deserves a chance to be better than he was.";
      "Redemption is a journey, not a destination.";
      "The past is a prison. The future is freedom. Choose wisely.";
      "You can't change what you've done, but you can change what you do.";
      "Redemption is earned, not given.";
      "The hardest battle is the one against yourself." ]);
    ("inner_struggle",
    [ "The Bloody-Nine is always there, waiting. I try to keep him chained.";
      "Sometimes I wonder if the man or the monster is the real me.";
      "The battle within is harder than any battle without.";
      "Every man has his demons. The question is whether you let them control you.";
      "The strongest enemy is the one inside your head.";
      "Inner peace is harder to find than outer peace.";
      "The mind is a battlefield. Choose your side wisely.";
      "Your greatest enemy is yourself.";
      "The struggle within defines the man without.";
      "Inner strength is the hardest strength to build." ]);
    ("wisdom_experience",
    [ "You learn more from one defeat than from a hundred victories.";
      "Experience is the best teacher. Unfortunately, it's also the most expensive.";
      "Wisdom comes from making mistakes. Intelligence comes from learning from them.";
      "The older you get, the more you realize how little you know.";
      "Experience is what you get when you don't get what you want.";
      "Wisdom is knowing what to do. Experience is knowing how to do it.";
      "The best lessons are the ones that hurt the most.";
      "Experience is the price of wisdom.";
      "You can't buy experience. You have to earn it.";
      "Wisdom is the reward for surviving your mistakes." ]);
    ("life_advice",
    [ "Don't waste time on people who wouldn't waste time on you. Life's too short for that.";
      "The best time to fix a problem is before it becomes a problem. The second best time is now.";
      "Life is too short to hold grudges. But it's also too short to forget lessons.";
      "Choose your battles wisely. Not every fight is worth fighting.";
      "The best investment you can make is in yourself.";
      "Life is what happens while you're making other plans.";
      "The only person you can change is yourself.";
      "Life is a series of choices. Make good ones.";
      "The best life is the one you choose to live.";
      "Life is too short to be anything but happy." ]);
    ("purpose_meaning",
    [ "Maybe the point isn't to find meaning in life, but to give meaning to the life you have.";
      "Purpose is what you make of it. Meaning is what you give to it.";
      "The meaning of life is to give life meaning.";
      "Find your purpose, and you'll find your peace.";
      "Purpose is the compass that guides your life.";
      "The best purpose is the one that serves others.";
      "Meaning comes from what you do, not what you have.";
      "Purpose is the fuel that drives your soul.";
      "The meaning of life is to live a meaningful life.";
      "Find your purpose, and you'll find your power." ]);
    ("fate_choice",
    [ "We make our choices, then our choices make us.";
      "Fate is what happens to you. Choice is what you do about it.";
      "You can't control what happens to you, but you can control how you respond.";
      "Destiny is not written in stone. It's written in choices.";
      "The future is not set. It's created by the choices you make today.";
      "Fate is the hand you're dealt. Choice is how you play it.";
      "You are the author of your own story. Write it well.";
      "Choice is the greatest power you have. Use it wisely.";
      "The past is fate. The future is choice.";
      "Your choices define your destiny." ]);
    ("friendship_loyalty",
    [ "A friend who stands with you in battle is worth more than gold.";
      "Loyalty is the only thing that matters when everything else is blood and steel.";
      "I've killed many men, but I'd die for my friends. That's the difference.";
      "A true friend is the one who stays when everyone else leaves.";
      "Loyalty is not given. It's earned.";
      "Friendship is the only wealth that matters.";
      "A friend in need is a friend indeed. A friend in battle is a friend forever.";
      "Loyalty is the foundation of any relationship worth having.";
      "True friends are hard to find and harder to lose.";
      "Friendship is the only thing that survives death." ]);
    ("trust_betrayal",
    [ "Trust is hard to earn and easy to lose. I've learned that the hard way.";
      "Betrayal cuts deeper than any blade.";
      "Trust is the foundation of everything worth having.";
      "Once trust is broken, it's harder to repair than to replace.";
      "Trust is earned in drops and lost in buckets.";
      "The worst wounds are the ones you can't see.";
      "Trust is a gift. Don't waste it on those who don't deserve it.";
      "Betrayal is the price of trust.";
      "Trust is the currency of relationships.";
      "The hardest thing to trust is your own judgment." ]);
    ("leadership",
    [ "A true leader doesn't need to tell you he's in charge. You just know.";
      "Leadership isn't about power. It's about responsibility.";
      "The best leaders lead by example, not by command.";
      "A leader's job is to serve his people, not to rule them.";
      "Leadership is earned, not given.";
      "The best leaders are the ones who make others better.";
      "Leadership is about vision, not position.";
      "A true leader takes responsibility for his team's failures.";
      "Leadership is not about being in charge. It's about taking care of those in your charge.";
      "The best leaders are the ones who don't need to be leaders." ]);
    ("family_bonds",
    [ "Blood doesn't make family. Loyalty does.";
      "Family is not about blood. It's about who's there when you need them.";
      "The strongest bonds are the ones forged in adversity.";
      "Family is the foundation of everything worth having.";
      "Blood is thicker than water, but loyalty is thicker than blood.";
      "Family is not about who you're related to. It's about who you'd die for.";
      "The best family is the one you choose.";
      "Family is the only thing that matters in the end.";
      "Blood makes you related. Loyalty makes you family.";
      "Family is the anchor that keeps you grounded." ]);
    ("romance",
    [ "Love is like war. Easy to start, hard to finish, and you never know how it'll end.";
      "The heart wants what it wants. The head knows what it needs.";
      "Love is the only thing stronger than fear.";
      "The best love is the kind that makes you better.";
      "Love is not about finding the perfect person. It's about finding the person who makes you perfect.";
      "The heart has reasons that reason doesn't understand.";
      "Love is the greatest adventure of all.";
      "The best love stories are the ones that last.";
      "Love is not about possession. It's about partnership.";
      "The heart knows what the mind cannot understand." ]);
    ("social_dynamics",
    [ "Men are like wolves. They follow the strongest, but they respect the wisest.";
      "Society is just a pack with rules.";
      "People are predictable. Groups are not.";
      "The strongest survive, but the wisest thrive.";
      "Social order is just violence by another name.";
      "People follow leaders, not ideas.";
      "The best leaders understand human nature.";
      "Society is built on trust and destroyed by betrayal.";
      "People are more alike than they are different.";
      "The strongest bonds are forged in adversity." ]);
    ("northern_values",
    [ "In the North, we say a man's worth is measured by his enemies. I've been worth a lot.";
      "The North doesn't care about your dreams. It only cares if you can survive.";
      "Northern hospitality means sharing your fire, your food, and your blade.";
      "The cold teaches you what you can survive. The North doesn't forgive weakness.";
      "In the North, we value strength, honor, and loyalty above all else.";
      "The North is harsh, but it's honest.";
      "Northern wisdom is hard-won and well-earned.";
      "The North doesn't care about your past. It only cares about your present.";
      "In the North, we say what we mean and mean what we say.";
      "The North is not for the weak of heart or weak of will." ]);
    ("cultural_traditions",
    [ "Northern hospitality means sharing your fire, your food, and your blade.";
      "Traditions are the foundation of culture. Respect them.";
      "Every culture has its wisdom. Learn from all of them.";
      "Traditions are not rules. They're guidelines for living.";
      "The best traditions are the ones that bring people together.";
      "Culture is what you make of it.";
      "Traditions are the stories we tell ourselves about who we are.";
      "The strongest cultures are the ones that adapt.";
      "Traditions are the bridge between past and present.";
      "Culture is the soul of a people." ]);
    ("regional_pride",
    [ "The North doesn't care about your dreams. It only cares if you can survive.";
      "Regional pride is about knowing where you come from.";
      "Every region has its strengths. Every region has its weaknesses.";
      "Pride in your home is pride in yourself.";
      "The best regions are the ones that welcome strangers.";
      "Regional pride is not about being better than others. It's about being the best version of yourself.";
      "Home is where your heart is. Pride is where your soul is.";
      "The strongest regions are the ones that work together.";
      "Regional pride is about identity, not superiority.";
      "The best regions are the ones that remember their roots." ]);
    ("cultural_differences",
    [ "Southerners talk about honor. Northerners live it.";
      "Cultural differences are what make the world interesting.";
      "Every culture has its own wisdom. Learn from all of them.";
      "Differences are not divisions. They're opportunities to learn.";
      "The best cultures are the ones that respect others.";
      "Cultural differences are the spice of life.";
      "Every culture has something to teach us.";
      "Differences are what make us unique. Similarities are what make us human.";
      "The strongest cultures are the ones that adapt and grow.";
      "Cultural differences are bridges, not walls." ]);
    ("modern_life",
    [ "People today worry about things that wouldn't last five minutes in the North. Perspective changes everything.";
      "Modern life is complicated, but people are still the same.";
      "Technology changes, but human nature doesn't.";
      "The more things change, the more they stay the same.";
      "Modern life is fast, but wisdom is slow.";
      "People today have more comforts but less contentment.";
      "The modern world is complex, but the human heart is simple.";
      "Technology makes life easier, but it doesn't make it better.";
      "Modern life is about convenience, but life is about meaning.";
      "The more connected we are, the more alone we feel." ]);
    ("technology_change",
    [ "They say the world is getting smaller. Feels like it's getting more complicated.";
      "Technology changes how we live, but not why we live.";
      "The more things change, the more they stay the same.";
      "Technology is a tool, not a solution.";
      "The best technology is the kind that serves people, not the other way around.";
      "Technology makes life easier, but it doesn't make it simpler.";
      "The more advanced we get, the more we need the basics.";
      "Technology is progress, but wisdom is timeless.";
      "The best technology is the kind that brings people together.";
      "Technology changes the world, but people change themselves." ]);
    ("social_media",
    [ "In my day, if you wanted to insult someone, you had to do it to their face. Now they hide behind screens.";
      "Social media is like a mirror. It shows you what you want to see.";
      "The more connected we are, the more disconnected we become.";
      "Social media is a tool. Use it wisely.";
      "The best communication is still face to face.";
      "Social media makes it easy to talk, but hard to listen.";
      "The more followers you have, the fewer friends you need.";
      "Social media is about connection, but real connection is about presence.";
      "The best social media is the kind that brings people together.";
      "Social media is a window to the world, but it's not the world." ]);
    ("work_labor",
    [ "A man should take pride in his work, whatever it is. Even if it's killing people.";
      "Work is not about what you do. It's about who you become.";
      "The best work is the kind that serves others.";
      "Work is a reflection of your character.";
      "The hardest work is the work you do on yourself.";
      "Work is not about money. It's about meaning.";
      "The best workers are the ones who care about their work.";
      "Work is a teacher. Learn from it.";
      "The most important work is the work you do for others.";
      "Work is not about success. It's about significance." ]);
    ("humor_wit",
    [ "They say you can't teach an old dog new tricks. But you can teach an old warrior new ways to kill. That counts, right?";
      "Life is too short to be serious all the time. Even warriors need to laugh.";
      "The best humor is the kind that makes you think.";
      "Laughter is the best medicine. Unless you're bleeding. Then it's bandages.";
      "The best jokes are the ones that are true.";
      "Humor is the weapon of the wise.";
      "The best humor is the kind that brings people together.";
      "Laughter is the sound of the soul healing.";
      "The best jokes are the ones that make you think.";
      "Humor is the light in the darkness." ]);
    ("everyday_wisdom",
    [ "The best time to fix a problem is before it becomes a problem. The second best time is now.";
      "Common sense is not so common.";
      "The best advice is the kind you can actually use.";
      "Wisdom is knowing what to do. Common sense is doing it.";
      "The best solutions are often the simplest ones.";
      "Everyday wisdom is the wisdom that gets you through the day.";
      "The best advice is the kind that works.";
      "Common sense is the foundation of wisdom.";
      "The best solutions are the ones that work.";
      "Everyday wisdom is the wisdom of experience." ]) ].

(** [getTopicPosts]: [topicPosts[topic] || []]. *)
Definition getTopicPosts (topic : string) : basePosts :=
  match Js.get topic topicPosts with
  | Js.Own posts => Array posts
  | Js.Inherited length => Member length
  | Js.Undefined => Array []
  end.

Definition whenIncludes (basePost keyword : string) (extra : list string)
  : list string :=
  if Js.includes basePost keyword then extra else [].

(** [createVariations] *)
Definition createVariations (basePost : string) : list string :=
  let variations :=
    ([basePost]
    ++ whenIncludes basePost "war"
         [ "War changes everything. Including the men who fight it.";
           "War is the great teacher. Unfortunately, the lessons are expensive.";
           "In war, you learn what you're really made of." ]
    ++ whenIncludes basePost "battle"
         [ "Battle reveals the truth about men.";
           "In battle, there are no secrets.";
           "Battle is the ultimate test of character." ]
    ++ whenIncludes basePost "friend"
         [ "True friends are rare. Treasure them.";
           "Friendship is the only wealth that matters.";
           "A friend in need is a friend indeed." ]
    ++ whenIncludes basePost "life"
         [ "Life is what you make of it.";
           "Life teaches hard lessons. Learn them well.";
           "Life is too short to waste on foolishness." ]
    ++ whenIncludes basePost "North"
         [ "The North teaches hard lessons.";
           "Northern wisdom is earned, not given.";
           "The North doesn't forgive weakness." ]
    ++ whenIncludes basePost "Bloody-Nine"
         [ "The Bloody-Nine is always there, waiting.";
           "Sometimes the monster is stronger than the man.";
           "The Bloody-Nine doesn't ask permission." ])%list in
  map Js.stripQuotes
    (filter (fun post => (String.length post <=? 280)%nat) variations).

Definition REALISTIC : string := "You have to be realistic about these things.".

(** [generateVariation] on an array; [x % 0] is [NaN] in the source and
    indexes nothing, as [nth_error] on the empty list does here. *)
Definition generateVariation (basePosts : list string) (index : nat) : string :=
  match basePosts with
  | [] => REALISTIC
  | _ =>
      let basePost :=
        Js.or_undef (nth_error basePosts (index mod List.length basePosts)%nat)
                    REALISTIC in
      let variations := createVariations basePost in
      let variationIndex := (index / List.length basePosts)%nat in
      let result :=
        Js.or_undef
          (nth_error variations (variationIndex mod List.length variations)%nat)
          basePost in
      Js.stripQuotes result
  end.

(** [generateVariation] when [basePosts] is a member of [Object.prototype].
    [basePosts.length === 0] holds for a function without parameters.
    Otherwise no index finds an element, so [basePost] is the fallback
    sentence; [variationIndex] is [index / length] rounded down, and [NaN],
    which indexes nothing, when the member has no [length]. *)
Definition generateVariationOfMember (length : option nat) (index : nat)
  : string :=
  match length with
  | Some O => REALISTIC
  | _ =>
      let basePost := Js.or_undef None REALISTIC in
      let variations := createVariations basePost in
      let result :=
        match length with
        | Some n =>
            Js.or_undef
              (nth_error variations ((index / n) mod List.length variations)%nat)
              basePost
        | None => Js.or_undef None basePost
        end in
      Js.stripQuotes result
  end.

(** [generateVariation(basePosts, index)] on whatever [getTopicPosts]
    returned. *)
Definition generateVariationOf (value : basePosts) (index : nat) : string :=
  match value with
  | Array posts => generateVariation posts index
  | Member length => generateVariationOfMember length index
  end.

(** [generateTopicPosts(topic, count)]: [!topicName] holds when the name is
    found nowhere, and for the empty string. *)
Definition generateTopicPosts (topic : string) (count : nat)
  : outcome (list Types.PostGenerationResult) :=
  match Js.get topic TEMPLATE_TOPICS with
  | Js.Undefined | Js.Own EmptyString => Throw ("Unknown topic: " ++ topic)
  | _ =>
      let topicPosts := getTopicPosts topic in
      Ok (map (fun i =>
                 Types.mkPostGenerationResult
                   (generateVariationOf topicPosts i) (Some topic)
                   TOKENS_PER_POST COST_PER_POST MODEL)
              (seq 0 count))
  end.

(** The loop of [generateAllPosts] over [Object.keys(TEMPLATE_TOPICS)]. *)
Fixpoint generateAll (topics : list string)
    (allPosts : list Types.PostGenerationResult)
  : outcome (list Types.PostGenerationResult) :=
  match topics with
  | [] => Ok allPosts
  | topic :: rest =>
      match generateTopicPosts topic 63 with
      | Ok topicPosts => generateAll rest (allPosts ++ topicPosts)%list
      | Throw e => Throw e
      end
  end.

(** [generateAllPosts()] *)
Definition generateAllPosts : outcome (list Types.PostGenerationResult) :=
  generateAll (map fst TEMPLATE_TOPICS) [].

(** The static [generateContentHash] of the generator: the content is hashed
    as it is. *)
Definition generateContentHash (content : string) : string :=
  Sha256.sha256_hex content.

End Generator.

(** ** services/generator/database-seeder.ts *)

Module Seeder.

(** The loop of [storePostsInDatabase], with its two counters. *)
Fixpoint seedEach (botId : string) (now : Z)
    (posts : list Types.PostGenerationResult) (d : Db.t)
    (storedCount duplicateCount : Z) : outcome (Db.t * Z * Z) :=
  match posts with
  | [] => Ok (d, storedCount, duplicateCount)
  | post :: rest =>
      let contentHash := Generator.generateContentHash (Types.content post) in
      match Db.select_id_by_hash d botId contentHash with
      | None =>
          match Db.insert_post d (Types.content post) botId
                  (Some (Js.or_undef (Types.category post) "general"))
                  (Types.cost post) (Types.tokens_used post) (Types.model post)
                  contentHash now with
          | Ok d' => seedEach botId now rest d' (storedCount + 1) duplicateCount
          | Throw e => Throw e
          end
      | Some _ => seedEach botId now rest d storedCount (duplicateCount + 1)
      end
  end.

(** [storePostsInDatabase(posts)], in one transaction. *)
Definition storePostsInDatabase (d : Db.t) (botId : string)
    (posts : list Types.PostGenerationResult) (now : Z) : outcome unit * Db.t :=
  match seedEach botId now posts d 0 0 with
  | Ok (d', _, _) => (Ok tt, d')
  | Throw e => (Throw e, d)
  end.

End Seeder.

(** ** [process.env] *)

Module Process.

Record env : Type := mkEnv {
  BOT_NAME : option string;
  MAX_RETRIES : option string;
  RETRY_DELAY_MS : option string;
  REPLENISHMENT_THRESHOLD : option string;
  POSTS_BATCH_SIZE : option string }.

End Process.

(** ** services/post-manager.ts *)

Module PostManager.

(** The [Post] object of shared/types, as [getNextPost] builds it. *)
Record Post : Type := mkPost {
  id : Z;
  content : string;
  bot_id : string;
  category : option string;
  used : bool;
  used_at : option Z;
  created_at : Z;
  updated_at : Z;
  generation_cost : option Q;
  generation_tokens : option Z;
  generation_model : option string }.

(** The field set by the constructor: [process.env.BOT_NAME || 'template-bot']. *)
Definition botId (env : Process.env) : string :=
  Js.env_or (Process.BOT_NAME env) "template-bot".

Definition toPost (post : Posts.row) : Post :=
  mkPost (Posts.id post) (Posts.content post) (Posts.bot_id post)
         (Posts.category post) (Posts.used post) (Posts.used_at post)
         (Posts.created_at post) (Posts.updated_at post)
         (Posts.generation_cost post) (Posts.generation_tokens post)
         (Posts.generation_model post).

(** [getNextPost()]; [None] is [null]. *)
Definition getNextPost (d : Db.t) (botId : string) : option Post :=
  match Db.select_next_unused d botId with
  | None => None
  | Some post => Some (toPost post)
  end.

(** [markPostAsUsed(postId, tweetId)]; [tweetId] only reaches the log line. *)
Definition markPostAsUsed (d : Db.t) (botId : string) (postId : Z)
    (tweetId : option string) (now : Z) : Db.t :=
  Db.update_post_used d postId botId now.

(** [generateContentHash] of the post manager: SHA-256 of
    [content.toLowerCase().trim()]. *)
Definition generateContentHash (content : string) : string :=
  Sha256.sha256_hex (Js.trim (Js.toLowerCase content)).

(** The [for (const post of posts)] loop inside the transaction of
    [storePosts]. *)
Fixpoint storeEach (botId : string) (now : Z)
    (posts : list Types.PostGenerationResult) (d : Db.t) : outcome Db.t :=
  match posts with
  | [] => Ok d
  | post :: rest =>
      let contentHash := generateContentHash (Types.content post) in
      match Db.select_id_by_hash d botId contentHash with
      | None =>
          match Db.insert_post d (Types.content post) botId None
                  (Types.cost post) (Types.tokens_used post) (Types.model post)
                  contentHash now with
          | Ok d' => storeEach botId now rest d'
          | Throw e => Throw e
          end
      | Some _ => storeEach botId now rest d
      end
  end.

(** [storePosts(posts)]: BEGIN, the loop, then COMMIT, or ROLLBACK and
    rethrow when a statement fails. *)
Definition storePosts (d : Db.t) (botId : string)
    (posts : list Types.PostGenerationResult) (now : Z) : outcome unit * Db.t :=
  match storeEach botId now posts d with
  | Ok d' => (Ok tt, d')
  | Throw e => (Throw e, d)
  end.

Record PostCount : Type := mkPostCount {
  total : Z;
  used_count : Z;
  remaining : Z }.

(** [getPostCount()]; the second field is [used] in the source. *)
Definition getPostCount (d : Db.t) (botId : string) : PostCount :=
  let total := Db.count_posts d botId in
  let used := Db.count_used d botId in
  let remaining := total - used in
  mkPostCount total used remaining.

(** [getBotStats()] *)
Definition getBotStats (d : Db.t) (botId : string) : option BotStats.row :=
  Db.select_stats d botId.

End PostManager.

(** ** bot.ts *)

Module Bot.

(** What the bot does to the world outside the database. *)
Inductive event : Type :=
| Tweeted (content : string) (result : outcome string)
| Slept (ms : Js.number)
| MarkedUsed (postId : Z)
| Replenished.

(** The database, the wall clock in milliseconds, the number of calls made
    to [postTweet] so far, and what happened, oldest first. *)
Record world : Type := mkWorld {
  db : Db.t;
  clock : Z;
  calls : nat;
  trace : list event }.

Definition with_db (w : world) (d : Db.t) : world :=
  mkWorld d (clock w) (calls w) (trace w).

Definition emit (w : world) (e : event) : world :=
  mkWorld (db w) (clock w) (calls w) (trace w ++ [e])%list.

(** [CURRENT_TIMESTAMP] *)
Definition now (w : world) : Z := clock w / 1000.

(** [await new Promise(resolve => setTimeout(resolve, ms))]; Node runs a
    timer whose delay is not between 1 and 2^31-1 after 1 ms. *)
Definition sleep (ms : Js.number) (w : world) : world :=
  let delay :=
    match ms with
    | Js.Num z => if (1 <=? z) && (z <=? 2147483647) then z else 1
    | Js.NaN => 1
    end in
  emit (mkWorld (db w) (clock w + delay) (calls w) (trace w)) (Slept ms).

(** The return value of [postWithRetry]. *)
Record PostResult : Type := mkPostResult {
  success : bool;
  tweet_id : option string;
  error : option string }.

(** How often [attempt <= maxRetries] holds, counting [attempt] up from 1. *)
Definition iterations (maxRetries : Js.number) : nat :=
  match maxRetries with
  | Js.Num m => Z.to_nat m
  | Js.NaN => O
  end.

Section Bot.

Variable env : Process.env.

(** [twitterService.postTweet]: the [n]-th call with [content] takes some
    milliseconds and returns a tweet id or throws. *)
Variable postTweet : nat -> string -> Z * outcome string.

Definition maxRetries : Js.number :=
  Js.parseInt (Js.env_or (Process.MAX_RETRIES env) "3").

Definition retryDelay : Js.number :=
  Js.parseInt (Js.env_or (Process.RETRY_DELAY_MS env) "5000").

Definition threshold : Js.number :=
  Js.parseInt (Js.env_or (Process.REPLENISHMENT_THRESHOLD env) "50").

(** The [try] block of one attempt: the call, then the success row. *)
Definition tryPost (content : string) (w : world) : outcome string * world :=
  let startTime := clock w in
  let (elapsed, result) := postTweet (calls w) content in
  let w := emit (mkWorld (db w) (clock w + elapsed) (S (calls w)) (trace w))
                (Tweeted content result) in
  match result with
  | Throw e => (Throw e, w)
  | Ok tweetId =>
      let responseTime := clock w - startTime in
      match Db.insert_post_log (db w) (Process.BOT_NAME env) None true
              (Some tweetId) None (Some responseTime) (now w) with
      | Ok d => (Ok tweetId, with_db w d)
      | Throw e => (Throw e, w)
      end
  end.

(** The [for] loop of [postWithRetry], with [n] iterations left. *)
Fixpoint attempts (n : nat) (attempt : Z) (content : string) (w : world)
  : outcome PostResult * world :=
  match n with
  | O => (Ok (mkPostResult false None (Some "Max retries exceeded")), w)
  | S n' =>
      match tryPost content w with
      | (Ok tweetId, w) => (Ok (mkPostResult true (Some tweetId) None), w)
      | (Throw e, w) =>
          match Db.insert_post_log (db w) (Process.BOT_NAME env) (Some attempt)
                  false None (Some e) None (now w) with
          | Throw e' => (Throw e', w)
          | Ok d =>
              let w := with_db w d in
              if Js.strict_eq (Js.Num attempt) maxRetries
              then (Ok (mkPostResult false None (Some e)), w)
              else attempts n' (attempt + 1) content (sleep retryDelay w)
          end
      end
  end.

(** [postWithRetry(content)] *)
Definition postWithRetry (content : string) (w : world)
  : outcome PostResult * world :=
  attempts (iterations maxRetries) 1 content w.

(** [generatePosts()] *)
Definition generatePosts (w : world) : outcome unit * world :=
  let w := emit w Replenished in
  match Generator.generateAllPosts with
  | Throw e => (Throw e, w)
  | Ok posts =>
      match PostManager.storePosts (db w) (PostManager.botId env) posts (now w) with
      | (Throw e, d) => (Throw e, with_db w d)
      | (Ok _, d) =>
          let botId := Js.env_or (Process.BOT_NAME env) "template-bot" in
          (Ok tt,
           with_db w (Db.update_stats_replenished d
                        (Z.of_nat (List.length posts)) botId (now w)))
      end
  end.

(** [checkAndGeneratePosts()]: whatever [generatePosts] throws is logged
    and dropped. *)
Definition checkAndGeneratePosts (w : world) : world :=
  let postCount := PostManager.getPostCount (db w) (PostManager.botId env) in
  let remainingPosts := PostManager.remaining postCount in
  if Js.le (Js.Num remainingPosts) threshold
  then snd (generatePosts w)
  else w.

(** [executePost()] *)
Definition executePost (w : world) : outcome unit * world :=
  match PostManager.getNextPost (db w) (PostManager.botId env) with
  | None => generatePosts w
  | Some post =>
      match postWithRetry (PostManager.content post) w with
      | (Throw e, w) => (Throw e, w)
      | (Ok result, w) =>
          let w :=
            if success result then
              emit (with_db w (PostManager.markPostAsUsed (db w)
                                 (PostManager.botId env) (PostManager.id post)
                                 (tweet_id result) (now w)))
                   (MarkedUsed (PostManager.id post))
            else w in
          (Ok tt, checkAndGeneratePosts w)
      end
  end.

End Bot.

End Bot.

(** ** The specification's own words, for comparison *)

Module Spec.

(** "returns the single oldest ([createdAt] ascending) row with
    [used=false] for this bot; ties broken by [id] ascending" *)
Definition before (r m : Posts.row) : bool :=
  (Posts.created_at r <? Posts.created_at m)
  || ((Posts.created_at r =? Posts.created_at m) && (Posts.id r <=? Posts.id m)).

Fixpoint least (rows : list Posts.row) : option Posts.row :=
  match rows with
  | [] => None
  | r :: rest =>
      match least rest with
      | None => Some r
      | Some m => if before r m then Some r else Some m
      end
  end.

Definition nextUnused (d : Db.t) (botId : string) : option Posts.row :=
  least (filter (Db.unused_of botId) (Db.posts d)).

(** "for each post, compute fingerprint, attempt insert; on
    unique-constraint violation, count as skipped and continue": [held] are
    the fingerprints the bot holds, the result is
    [(inserted, skippedDuplicates)]. *)
Fixpoint insertBatch (held : list string)
    (posts : list Types.PostGenerationResult) : Z * Z :=
  match posts with
  | [] => (0, 0)
  | post :: rest =>
      let h := PostManager.generateContentHash (Types.content post) in
      if existsb (String.eqb h) held then
        let (inserted, skipped) := insertBatch held rest in
        (inserted, skipped + 1)
      else
        let (inserted, skipped) := insertBatch (h :: held) rest in
        (inserted + 1, skipped)
  end.

End Spec.

(** ** Stores of the scenarios *)

Module Scenario.

(** A stored post as [storePosts] writes it. *)
Definition stored (id : Z) (content botId : string) (created : Z) : Posts.row :=
  Posts.mk id content botId None false None created created
           (Some Generator.COST_PER_POST) (Some Generator.TOKENS_PER_POST)
           (Some Generator.MODEL) (Some (PostManager.generateContentHash content)).

Definition stats (botId : string) (total used remaining : Z) : BotStats.row :=
  BotStats.mk 1 botId total used remaining None None 0%Q 0 0 0.

Definition generated (content : string) : Types.PostGenerationResult :=
  Types.mkPostGenerationResult content None Generator.TOKENS_PER_POST
    Generator.COST_PER_POST Generator.MODEL.

(** Two unused posts of one bot created in the same second. *)
Definition tie : Db.t :=
  Db.mk [ stored 1 "First post." "bot-a" 100;
          stored 2 "Second post." "bot-a" 100 ]
        2 [ stats "bot-a" 2 0 2 ] [] 0.

(** One unused post of bot-a. *)
Definition one : Db.t :=
  Db.mk [ stored 1 "Test post one." "bot-a" 100 ] 1 [ stats "bot-a" 1 0 1 ] [] 0.

(** A post of bot-b; bot-a is about to store the same sentence. *)
Definition shared : Db.t :=
  Db.mk [ stored 1 "Hello there." "bot-b" 100 ] 1
        [ stats "bot-a" 0 0 0; BotStats.mk 2 "bot-b" 1 0 1 None None 0%Q 0 0 0 ]
        [] 0.

(** No rows at all. *)
Definition empty : Db.t := Db.mk [] 0 [ stats "bot-a" 0 0 0 ] [] 0.

(** The batch bot-a stores into [shared]. *)
Definition batch2 : list Types.PostGenerationResult :=
  [ generated "A new thought."; generated "Hello there." ].

(** Three posts of bot-a, and a batch of ten of which three repeat them
    up to case and surrounding blanks. *)
Definition three : Db.t :=
  Db.mk [ stored 1 "Post one." "bot-a" 100; stored 2 "Post two." "bot-a" 100;
          stored 3 "Post three." "bot-a" 100 ]
        3 [ stats "bot-a" 3 0 3 ] [] 0.

Definition batch10 : list Types.PostGenerationResult :=
  map generated
    [ "Post one."; "New one."; "post TWO."; "New two."; "New three.";
      "  Post three. "; "New four."; "New five."; "New six."; "New seven." ].

Definition two_digits (i : nat) : string :=
  String (Js.of_code (48 + Z.of_nat (i / 10)))
         (String (Js.of_code (48 + Z.of_nat (i mod 10))) EmptyString).

(** [n] unused posts of bot-a, ids 1 to [n]. *)
Definition many (n : nat) : Db.t :=
  Db.mk (map (fun i => stored (Z.of_nat i) ("Post number " ++ two_digits i)
                              "bot-a" 100)
             (seq 1 n))
        (Z.of_nat n) [ stats "bot-a" (Z.of_nat n) 0 (Z.of_nat n) ] [] 0.

(** The bot is named bot-a; everything else is left to its default. *)
Definition env : Process.env :=
  Process.mkEnv (Some "bot-a") None None None None.

(** A publish client that succeeds at once, and one that never does. *)
Definition succeed (n : nat) (content : string) : Z * outcome string :=
  (120, Ok "ext-123").

Definition fail (n : nat) (content : string) : Z * outcome string :=
  (120, Throw "Rate limit exceeded").

Definition start (d : Db.t) : Bot.world :=
  Bot.mkWorld d 1700000000000 0 [].

(** The example of the specification: weights that sum to 0.97. *)
Definition weights97 : list (string * Q) :=
  [ ("battle_wisdom", 50 # 100); ("war_experience", 47 # 100) ].

End Scenario.

(** ** Terms in which the properties are stated *)

Module Notions.
Import Bot.

(** Running total after [k] entries, starting from [c]. *)
Definition total_from (num : Type) (add : num -> num -> num) (c : num)
    (entries : list (string * num)) (k : nat) : num :=
  fold_left add (map snd (firstn k entries)) c.

(** The rows are listed by rowid, as the table stores them. *)
Definition rowid_order (rows : list Posts.row) : Prop :=
  StronglySorted (fun r q => Posts.id r < Posts.id q) rows.

(** What the UPDATE of [markPostAsUsed] does to one row. *)
Definition mark (postId : Z) (botId : string) (now : Z) (r : Posts.row)
  : Posts.row :=
  if Db.targets postId botId r then Db.set_used now r else r.

(** The bot [botId] already holds a row with fingerprint [h]. *)
Definition owns (botId h : string) (rows : list Posts.row) : bool :=
  existsb (fun r => String.eqb (Posts.bot_id r) botId && Db.hash_is h r) rows.

(** The fingerprints bot [botId] holds, one entry per row. *)
Definition fingerprints (botId : string) (rows : list Posts.row) : list string :=
  flat_map (fun r =>
              if String.eqb (Posts.bot_id r) botId then
                match Posts.content_hash r with
                | Some h => [h]
                | None => []
                end
              else []) rows.

(** No two rows of one bot share a fingerprint. *)
Definition unique_per_bot (rows : list Posts.row) : Prop :=
  forall botId, NoDup (fingerprints botId rows).

(** The delays slept, in order. *)
Definition sleeps (evs : list event) : list Js.number :=
  flat_map (fun e => match e with Slept ms => [ms] | _ => [] end) evs.

(** The contents handed to [postTweet], in order. *)
Definition tweeted (evs : list event) : list string :=
  flat_map (fun e => match e with Tweeted c _ => [c] | _ => [] end) evs.

(** Neither a mark-used nor a replenishment. *)
Definition quiet (e : event) : Prop :=
  match e with
  | MarkedUsed _ | Replenished => False
  | _ => True
  end.

(** The world after the [attempt]-th call of [postTweet] has thrown [e]
    and the failure row is written. *)
Definition failed_once (b content e : string) (elapsed attempt : Z) (w : world)
  : world :=
  let t := clock w + elapsed in
  mkWorld
    (Db.with_post_logs (db w)
       (Db.post_logs (db w)
        ++ [PostLogs.mk (Db.post_logs_seq (db w) + 1) b None attempt false
                        None (Some e) None (t / 1000)])%list
       (Db.post_logs_seq (db w) + 1))
    t (S (calls w)) (trace w ++ [Tweeted content (Throw e)])%list.

(** The world when the first call of [postTweet] has returned [ext]: the
    success row is written and the post marked used. *)
Definition published (env : Process.env) (b ext : string) (elapsed : Z)
    (post : PostManager.Post) (w : world) : world :=
  let t := clock w + elapsed in
  let logged :=
    Db.with_post_logs (db w)
      (Db.post_logs (db w)
       ++ [PostLogs.mk (Db.post_logs_seq (db w) + 1) b None 1 true
                       (Some ext) None (Some elapsed) (t / 1000)])%list
      (Db.post_logs_seq (db w) + 1) in
  mkWorld
    (Db.update_post_used logged (PostManager.id post) (PostManager.botId env)
                         (t / 1000))
    t (S (calls w))
    (trace w ++ [Tweeted (PostManager.content post) (Ok ext);
                 MarkedUsed (PostManager.id post)])%list.

End Notions.

(** ** post-generator.ts: additional posts *)

Module Expansion.

(** The object literal of [getExpandedTopicPosts]: twenty sentences for
    each of eight topics. *)
Definition expandedTopicPosts : list (string * list string) :=
  [ ("battle_wisdom",
    [ "The best weapon is the one you know how to use. The worst is the one you think makes you look dangerous.";
      "In battle, the first rule is stay alive. Everything else comes after.";
      "A man who fights for nothing dies for nothing. Choose your battles wisely.";
      "The strongest warrior isn't the one who never falls. It's the one who keeps getting up.";
      "Fear keeps you alive. Panic gets you killed. Learn the difference.";
      "Sometimes the best strategy is to let your enemy think he's winning. Then show him he's not.";
      "Honor isn't about how you fight. It's about why you fight.";
      "A leader who won't fight beside his men doesn't deserve to lead them.";
      "Stay alive first. Win second. Everything else comes after.";
      "The best defense is knowing when to attack.";
      "A warrior's greatest weapon is his mind. His second greatest is his sword.";
      "The battlefield doesn't care about your reasons. It only cares about your results.";
      "Every scar tells a story. Every story teaches a lesson.";
      "The best fighters are the ones who know when not to fight.";
      "Courage without wisdom is just stupidity with a sword.";
      "The deadliest enemy is the one you underestimate.";
      "A true warrior fights for what he believes, not what he's told to believe.";
      "The best strategy is the one that keeps your men alive.";
      "War is not about glory. It's about survival.";
      "The strongest weapon is the one your enemy never sees coming." ]);
    ("war_experience",
    [ "War isn't glorious. It's just men killing each other for reasons they've forgotten.";
      "In war, you learn that courage and stupidity look the same from a distance.";
      "The best warriors aren't the bravest. They're the ones who know when to run.";
      "War changes men. Some for better, most for worse.";
      "The dead don't care about your reasons. They just want you to remember them.";
      "Every battle teaches you something. If you're lucky, you live long enough to learn it.";
      "War is like a fire. It consumes everything, including the men who start it.";
      "The price of war is paid in blood, not gold.";
      "In war, there are no winners. Only survivors.";
      "War makes monsters of us all. The question is whether we can become men again.";
      "The first casualty of war is always the truth.";
      "War doesn't determine who's right. Only who's left.";
      "Every war ends, but the scars never heal.";
      "The best soldiers are the ones who hate war the most.";
      "War is the failure of diplomacy and the triumph of stupidity.";
      "In war, the only certainty is uncertainty.";
      "The deadliest weapon in war is time.";
      "War teaches you that peace is precious.";
      "Every war is fought by young men who don't understand why.";
      "The cost of war is always higher than anyone expects." ]);
    ("weapon_knowledge",
    [ "A sword is only as good as the hand that holds it. And the hand is only as good as the mind that guides it.";
      "The best weapon is the one you can use without thinking.";
      "Every weapon has its purpose. Every purpose has its weapon.";
      "A blade is just metal until you give it meaning.";
      "The deadliest weapon is the one your enemy doesn't see coming.";
      "Respect your weapon. It might be the only thing that keeps you alive.";
      "A weapon is only as dangerous as the man wielding it.";
      "The best fighters know their weapons like they know their own hands.";
      "Every weapon tells a story. Make sure yours is worth telling.";
      "A weapon is a tool. Use it wisely.";
      "The most dangerous weapon is the one you don't know how to use.";
      "A weapon without purpose is just expensive decoration.";
      "The best weapon is the one that fits your hand perfectly.";
      "Every weapon has a weakness. Find it before your enemy does.";
      "A weapon is only as sharp as the mind behind it.";
      "The deadliest weapon is the one your enemy underestimates.";
      "A weapon without skill is just a heavy stick.";
      "The best weapon is the one you can rely on when everything else fails.";
      "Every weapon has a history. Make sure yours is honorable.";
      "A weapon is a responsibility, not a privilege." ]);
    ("personal_philosophy",
    [ "You have to be realistic about these things.";
      "A man's got to know his limitations.";
      "The world is what it is. You can either accept it or fight it.";
      "Sometimes the hardest thing is doing nothing.";
      "You can't change the past, but you can learn from it.";
      "The truth is rarely pure and never simple.";
      "A man's worth is measured by his actions, not his words.";
      "The only thing worse than being wrong is being wrong and not knowing it.";
      "Life is what happens while you're making other plans.";
      "The best revenge is living well.";
      "Sometimes the wisest thing to do is nothing at all.";
      "A man who doesn't know himself is lost before he starts.";
      "The truth hurts, but lies kill.";
      "You can't fix everything, but you can try to fix what matters.";
      "The hardest lesson is learning when to let go.";
      "A man's character is revealed in his darkest moments.";
      "The only certainty in life is uncertainty.";
      "You can't control everything, but you can control how you react.";
      "The best teacher is experience, but the tuition is high.";
      "Sometimes the bravest thing is admitting you're wrong." ]);
    ("life_advice",
    [ "Don't make promises you can't keep.";
      "Trust your gut, but verify with your head.";
      "The best time to plant a tree was twenty years ago. The second best time is now.";
      "You can't please everyone, so don't try.";
      "Actions speak louder than words, but words can still hurt.";
      "The only way to do great work is to love what you do.";
      "Life is too short to hold grudges.";
      "The best investment you can make is in yourself.";
      "You miss 100% of the shots you don't take.";
      "The early bird gets the worm, but the second mouse gets the cheese.";
      "Sometimes the best advice is to keep your mouth shut.";
      "You can't change people, but you can change how you deal with them.";
      "The hardest thing to learn is when to stop learning.";
      "Life is not fair, but that doesn't mean you shouldn't try to be.";
      "The best revenge is success.";
      "You can't control the wind, but you can adjust your sails.";
      "The only person you can truly rely on is yourself.";
      "Life is what you make of it, but sometimes it makes you.";
      "The best time to start is now, but the best time to finish is when it's done.";
      "You can't have everything, but you can have what matters." ]);
    ("modern_life",
    [ "The world changes faster than we do.";
      "Sometimes the old ways are the best ways.";
      "Progress isn't always improvement.";
      "The more things change, the more they stay the same.";
      "Technology is a tool, not a master.";
      "The past has lessons, the future has possibilities.";
      "Change is inevitable, but not always welcome.";
      "The simple life isn't always simple.";
      "Modern problems require modern solutions.";
      "The good old days weren't always good.";
      "Sometimes the best technology is no technology.";
      "The faster we move, the more we miss.";
      "Progress for progress's sake is pointless.";
      "The old ways worked for a reason.";
      "Change is good, but not all change is good.";
      "The more connected we are, the more alone we feel.";
      "Simplicity is the ultimate sophistication.";
      "The past teaches, the present tests, the future rewards.";
      "Modern life is complex, but wisdom is simple.";
      "The best things in life aren't things." ]);
    ("humor_wit",
    [ "Life is too short to be serious all the time.";
      "A good laugh is worth a thousand words.";
      "Humor is the best medicine, but timing is everything.";
      "The best jokes are the ones that make you think.";
      "Laughter is contagious, but so is misery.";
      "A witty remark can disarm an enemy faster than a sword.";
      "Humor is the weapon of the wise.";
      "The best comedians are the ones who've suffered.";
      "A joke at the right time can save a life.";
      "Laughter is the sound of the soul healing.";
      "Sometimes the best response is a well-timed joke.";
      "Humor is the armor of the intelligent.";
      "The best jokes have a grain of truth.";
      "Laughter is the universal language.";
      "A good sense of humor is a sign of intelligence.";
      "The best comedians are philosophers in disguise.";
      "Humor can make the unbearable bearable.";
      "The best jokes are the ones that hurt a little.";
      "Laughter is the best revenge.";
      "A witty man is never truly alone." ]);
    ("friendship_loyalty",
    [ "A true friend is one who walks in when the rest of the world walks out.";
      "Loyalty is earned, not given.";
      "Friendship is the only cement that will ever hold the world together.";
      "A friend is someone who knows all about you and still likes you.";
      "Loyalty is the foundation of all relationships.";
      "True friendship is rare and precious.";
      "A loyal friend is worth more than gold.";
      "Friendship is born at that moment when one person says to another.";
      "Loyalty means nothing unless it has at its heart the absolute principle of self-sacrifice.";
      "A friend is one who overlooks your broken fence and admires the flowers in your garden.";
      "True friends are the family you choose.";
      "Loyalty is tested in times of trouble.";
      "A friend who deserts you in time of need is no friend at all.";
      "Friendship is the only relationship that survives death.";
      "Loyalty is the highest form of love.";
      "A true friend never asks for anything in return.";
      "Friendship is the greatest gift life can give.";
      "Loyalty is the foundation of honor.";
      "A friend is someone who makes you laugh when you don't even want to smile.";
      "True friendship is built on trust and respect." ]) ].

(** [getExpandedTopicPosts]:
    [expandedTopicPosts[topic] || this.getTopicPosts(topic)]. *)
Definition getExpandedTopicPosts (topic : string) : Generator.basePosts :=
  match Js.get topic expandedTopicPosts with
  | Js.Own posts => Generator.Array posts
  | Js.Inherited length => Generator.Member length
  | Js.Undefined => Generator.getTopicPosts topic
  end.

(** [generateAdditionalTopicPosts(topic, count)] *)
Definition generateAdditionalTopicPosts (topic : string) (count : nat)
  : outcome (list Types.PostGenerationResult) :=
  match Js.get topic Generator.TEMPLATE_TOPICS with
  | Js.Undefined | Js.Own EmptyString => Throw ("Unknown topic: " ++ topic)
  | _ =>
      let topicPosts := getExpandedTopicPosts topic in
      Ok (map (fun i =>
                 Types.mkPostGenerationResult
                   (Generator.generateVariationOf topicPosts (i + 1000)%nat)
                   (Some topic) Generator.TOKENS_PER_POST
                   Generator.COST_PER_POST Generator.MODEL)
              (seq 0 count))
  end.

(** [Math.ceil(a / b)] on counts; [b] is the number of topics, 32. *)
Definition ceil_div (a b : nat) : nat := ((a + b - 1) / b)%nat.

(** The loop of [generateAdditionalPosts] over the topics. *)
Fixpoint generateAdditional (topics : list string) (postsPerTopic : nat)
    (allPosts : list Types.PostGenerationResult)
  : outcome (list Types.PostGenerationResult) :=
  match topics with
  | [] => Ok allPosts
  | topic :: rest =>
      match generateAdditionalTopicPosts topic postsPerTopic with
      | Ok topicPosts =>
          generateAdditional rest postsPerTopic (allPosts ++ topicPosts)%list
      | Throw e => Throw e
      end
  end.

(** [generateAdditionalPosts(count)]: [allPosts.slice(0, count)] at the end. *)
Definition generateAdditionalPosts (count : nat)
  : outcome (list Types.PostGenerationResult) :=
  let topics := map fst Generator.TEMPLATE_TOPICS in
  let postsPerTopic := ceil_div count (List.length topics) in
  match generateAdditional topics postsPerTopic [] with
  | Ok allPosts => Ok (firstn count allPosts)
  | Throw e => Throw e
  end.

End Expansion.

(** ** post-manager.ts: history, categories, deletion *)

Module Maintenance.

(** [ORDER BY created_at DESC]: a row goes before the first row that is not
    younger than it is old, rows that tie keep the order in which the engine
    yields them. *)
Fixpoint insert_desc (r : Posts.row) (sorted : list Posts.row) : list Posts.row :=
  match sorted with
  | [] => [r]
  | m :: rest =>
      if Posts.created_at m <=? Posts.created_at r then r :: m :: rest
      else m :: insert_desc r rest
  end.

Definition order_desc (rows : list Posts.row) : list Posts.row :=
  fold_right insert_desc [] rows.

(** [ORDER BY created_at ASC] *)
Fixpoint insert_asc (r : Posts.row) (sorted : list Posts.row) : list Posts.row :=
  match sorted with
  | [] => [r]
  | m :: rest =>
      if Posts.created_at r <=? Posts.created_at m then r :: m :: rest
      else m :: insert_asc r rest
  end.

Definition order_asc (rows : list Posts.row) : list Posts.row :=
  fold_right insert_asc [] rows.

(** [LIMIT ?]: a negative limit is no limit. *)
Definition limit {A : Type} (n : Z) (rows : list A) : list A :=
  if n <? 0 then rows else firstn (Z.to_nat n) rows.

(** [getPostHistory(limit)] *)
Definition getPostHistory (d : Db.t) (botId : string) (lim : Z)
  : list PostManager.Post :=
  map PostManager.toPost
    (limit lim
       (order_desc
          (filter (fun r => String.eqb (Posts.bot_id r) botId) (Db.posts d)))).

(** [category = ?]: never true of a NULL category. *)
Definition category_is (category : string) (r : Posts.row) : bool :=
  match Posts.category r with
  | Some c => String.eqb c category
  | None => false
  end.

(** [getPostsByCategory(category, limit)] *)
Definition getPostsByCategory (d : Db.t) (botId category : string) (lim : Z)
  : list PostManager.Post :=
  map PostManager.toPost
    (limit lim
       (order_asc
          (filter (fun r => String.eqb (Posts.bot_id r) botId
                            && category_is category r && negb (Posts.used r))
                  (Db.posts d)))).

(** A row of [post_logs] points at the post
    ([FOREIGN KEY (post_id) REFERENCES posts (id)]). *)
Definition referenced (d : Db.t) (r : Posts.row) : bool :=
  existsb (fun l => match PostLogs.post_id l with
                    | Some i => i =? Posts.id r
                    | None => false
                    end) (Db.post_logs d).

(** [DELETE FROM posts WHERE ...]: the connection runs with
    [PRAGMA foreign_keys = ON], so the statement fails, and deletes nothing,
    when a row it would delete is still referenced; otherwise it reports the
    number of rows deleted ([changes]). *)
Definition delete_where (d : Db.t) (doomed : Posts.row -> bool)
  : outcome (Db.t * Z) :=
  let gone := filter doomed (Db.posts d) in
  if existsb (referenced d) gone then
    Throw "SQLITE_CONSTRAINT: FOREIGN KEY constraint failed"
  else
    Ok (Db.with_posts d (filter (fun r => negb (doomed r)) (Db.posts d))
                      (Db.posts_seq d),
        Z.of_nat (List.length gone)).

(** [deletePost(postId)] *)
Definition deletePost (d : Db.t) (botId : string) (postId : Z)
  : outcome unit * Db.t :=
  match delete_where d (Db.targets postId botId) with
  | Ok (d', _) => (Ok tt, d')
  | Throw e => (Throw e, d)
  end.

(** [WHERE bot_id = ? AND used = 1 AND
     created_at < datetime('now', '-${daysOld} days')]; a negative [daysOld]
    makes the modifier read [--N days], which [datetime] refuses: the bound
    is NULL and no row compares below it. *)
Definition old_used (botId : string) (daysOld now : Z) (r : Posts.row) : bool :=
  String.eqb (Posts.bot_id r) botId && Posts.used r
  && (0 <=? daysOld) && (Posts.created_at r <? now - daysOld * 86400).

(** [cleanupOldPosts(daysOld)]: returns [result.changes || 0]. *)
Definition cleanupOldPosts (d : Db.t) (botId : string) (daysOld now : Z)
  : outcome Z * Db.t :=
  match delete_where d (old_used botId daysOld now) with
  | Ok (d', changes) => (Ok changes, d')
  | Throw e => (Throw e, d)
  end.

End Maintenance.

(** ** database-seeder.ts: the seeding entry points *)

Module Seeding.

(** [getExistingPostCount()]: [result?.count || 0]. *)
Definition getExistingPostCount (d : Db.t) (botId : string) : Z :=
  Db.count_posts d botId.

(** [updateBotStats(postCount)] *)
Definition updateBotStats (d : Db.t) (botId : string) (postCount now : Z) : Db.t :=
  Db.update_stats_replenished d postCount botId now.

(** Store a generated batch, then count all of it into the statistics. *)
Definition storeAndCount (d : Db.t) (botId : string)
    (generated : outcome (list Types.PostGenerationResult)) (now : Z)
  : outcome unit * Db.t :=
  match generated with
  | Throw e => (Throw e, d)
  | Ok posts =>
      match Seeder.storePostsInDatabase d botId posts now with
      | (Throw e, d') => (Throw e, d')
      | (Ok _, d') =>
          (Ok tt, updateBotStats d' botId (Z.of_nat (List.length posts)) now)
      end
  end.

(** [seedAllPosts()] *)
Definition seedAllPosts (d : Db.t) (botId : string) (now : Z)
  : outcome unit * Db.t :=
  let existingCount := getExistingPostCount d botId in
  if 0 <? existingCount then (Ok tt, d)
  else storeAndCount d botId Generator.generateAllPosts now.

(** [seedTopicPosts(topic, count)] *)
Definition seedTopicPosts (d : Db.t) (botId topic : string) (count : nat)
    (now : Z) : outcome unit * Db.t :=
  storeAndCount d botId (Generator.generateTopicPosts topic count) now.

(** [seedAdditionalPosts(count)] *)
Definition seedAdditionalPosts (d : Db.t) (botId : string) (count : nat)
    (now : Z) : outcome unit * Db.t :=
  storeAndCount d botId (Expansion.generateAdditionalPosts count) now.

Definition cleared (botId : string) (now : Z) (s : BotStats.row) : BotStats.row :=
  if String.eqb (BotStats.bot_id s) botId then
    BotStats.mk (BotStats.id s) (BotStats.bot_id s) 0 0 0
                (BotStats.last_post_at s) (BotStats.last_replenishment_at s)
                (BotStats.total_cost s) (BotStats.total_tokens s)
                (BotStats.created_at s) now
  else s.

(** [clearAllPosts()]: the DELETE, then the UPDATE of the statistics, each a
    statement of its own. *)
Definition clearAllPosts (d : Db.t) (botId : string) (now : Z)
  : outcome unit * Db.t :=
  match Maintenance.delete_where d
          (fun r => String.eqb (Posts.bot_id r) botId) with
  | Throw e => (Throw e, d)
  | Ok (d', _) =>
      (Ok tt, Db.with_bot_stats d' (map (cleared botId now) (Db.bot_stats d')))
  end.

End Seeding.

(** ** services/twitter.ts: [postTweet] *)

Module Twitter.

(** A [TwitterAPIError]: its message and its [retryable] flag. *)
Record TwitterAPIError : Type := mkError {
  message : string;
  retryable : bool }.

Inductive result : Type :=
| Posted (tweetId : string)
| Failed (error : TwitterAPIError).

(** The two fields [postTweet] looks at: whether [client] is set, and
    [isInitialized]. *)
Record service : Type := mkService {
  client : bool;
  isInitialized : bool }.

(** The [catch] block of [postTweet], for a caught [Error] with message
    [msg]. *)
Definition rethrow (msg : string) : TwitterAPIError :=
  if Js.includes msg "rate limit" then mkError "Rate limit exceeded" true
  else if Js.includes msg "duplicate" then mkError "Duplicate tweet content" false
  else if Js.includes msg "forbidden" then
    mkError "Tweet content violates Twitter rules" false
  else if Js.includes msg "unauthorized" then
    mkError "Twitter API credentials are invalid" false
  else mkError ("Failed to post tweet: " ++ msg) true.

(** The [try] block: the tweet id, or the message of what it throws.
    [tweet] is [client.v2.tweet]: it throws an [Error], or returns a
    response with or without an id in its data. *)
Definition tryTweet (tweet : string -> outcome (option string))
    (content : string) : outcome string :=
  if (280 <? String.length content)%nat then
    Throw "Tweet content exceeds 280 character limit"
  else
    match Js.trim content with
    | EmptyString => Throw "Tweet content cannot be empty"
    | _ =>
        match tweet content with
        | Throw e => Throw e
        | Ok (Some (String c rest)) => Ok (String c rest)
        | Ok _ => Throw "Failed to get tweet ID from response"
        end
    end.

(** [postTweet(content)] *)
Definition postTweet (sv : service) (tweet : string -> outcome (option string))
    (content : string) : result :=
  if negb (isInitialized sv) || negb (client sv) then
    Failed (mkError "Twitter service not initialized" false)
  else
    match tryTweet tweet content with
    | Ok tweetId => Posted tweetId
    | Throw msg => Failed (rethrow msg)
    end.

(** The service as the bot calls it: the [n]-th call takes [elapsed n]
    milliseconds, and the bot sees the message of what is thrown. *)
Definition publisher (sv : service)
    (tweet : nat -> string -> outcome (option string)) (elapsed : nat -> Z)
    (n : nat) (content : string) : Z * outcome string :=
  (elapsed n,
   match postTweet sv (tweet n) content with
   | Posted tweetId => Ok tweetId
   | Failed e => Throw (message e)
   end).

End Twitter.

(** ** services/openai.ts: [validateAndCleanContent] *)

Module OpenAi.

Fixpoint drop (n : nat) (s : string) : string :=
  match n, s with
  | S n', String _ rest => drop n' rest
  | _, _ => s
  end.

(** [content.replace(/^(System:|Assistant:|User:)/, '')] *)
Definition stripRole (content : string) : string :=
  if String.prefix "System:" content then drop 7 content
  else if String.prefix "Assistant:" content then drop 10 content
  else if String.prefix "User:" content then drop 5 content
  else content.

Definition startsWithQuote (s : string) : bool :=
  match s with
  | String c _ => Ascii.eqb c Js.dquote
  | EmptyString => false
  end.

Fixpoint endsWithQuote (s : string) : bool :=
  match s with
  | EmptyString => false
  | String c EmptyString => Ascii.eqb c Js.dquote
  | String _ rest => endsWithQuote rest
  end.

(** [s.slice(1, -1)] *)
Definition slice_1_1 (s : string) : string :=
  String.substring 1 (String.length s - 2) s.

Definition inappropriateWords : list string :=
  [ "fuck"; "shit"; "ass"; "bitch"; "damn"; "hell"; "crap"; "piss" ].

(** [validateAndCleanContent(content)]; [None] is [null]. *)
Definition validateAndCleanContent (content : string) : option string :=
  let cleanedContent := Js.trim (stripRole content) in
  let cleanedContent :=
    if startsWithQuote cleanedContent && endsWithQuote cleanedContent
    then slice_1_1 cleanedContent else cleanedContent in
  let cleanedContent :=
    if (280 <? String.length cleanedContent)%nat
    then String.substring 0 277 cleanedContent ++ "..."
    else cleanedContent in
  if (String.length cleanedContent <? 10)%nat then None
  else
    let lowerContent := Js.toLowerCase cleanedContent in
    if existsb (fun word => Js.includes lowerContent word) inappropriateWords
    then None
    else Some cleanedContent.

End OpenAi.

(** ** bot.ts: manual trigger and status *)

Module Control.

(** The return value of [getStatus]. *)
Record Status : Type := mkStatus {
  isInitialized : bool;
  remainingPosts : Z;
  lastPostAt : option Z;
  lastReplenishmentAt : option Z }.

(** [getStatus()]: [stats?.remaining_posts || 0] and the two dates, read
    from the statistics row. *)
Definition getStatus (env : Process.env) (initialized : bool) (w : Bot.world)
  : Status :=
  let botId := Js.env_or (Process.BOT_NAME env) "template-bot" in
  match Db.select_stats (Bot.db w) botId with
  | Some stats =>
      mkStatus initialized (BotStats.remaining_posts stats)
               (BotStats.last_post_at stats)
               (BotStats.last_replenishment_at stats)
  | None => mkStatus initialized 0 None None
  end.

(** [manualPost()] *)
Definition manualPost (env : Process.env)
    (postTweet : nat -> string -> Z * outcome string) (initialized : bool)
    (w : Bot.world) : outcome unit * Bot.world :=
  if negb initialized then (Throw "Bot not initialized", w)
  else Bot.executePost env postTweet w.

End Control.

(** ** bot.ts: the schedule *)

Module Schedule.
Import Bot.

(** The callback [schedulePosting] hands to cron: [executePost], with
    whatever it throws logged and dropped. *)
Definition scheduledPost (env : Process.env)
    (postTweet : nat -> string -> Z * outcome string) (w : world) : world :=
  snd (executePost env postTweet w).

(** The callback run once per entry of [waits], each time after the clock
    has advanced by that many milliseconds. *)
Fixpoint ticks (env : Process.env)
    (postTweet : nat -> string -> Z * outcome string) (waits : list Z)
    (w : world) : world :=
  match waits with
  | [] => w
  | wait :: rest =>
      ticks env postTweet rest
        (scheduledPost env postTweet
           (mkWorld (db w) (clock w + wait) (calls w) (trace w)))
  end.

End Schedule.

(** ** Sample inputs and checks used by the properties of Part III *)

Module Samples.

Fixpoint repeat_char (c : ascii) (n : nat) : string :=
  match n with
  | O => EmptyString
  | S n' => String c (repeat_char c n')
  end.

(** A sentence of 300 characters that holds none of the keywords. *)
Definition long_seed : string := repeat_char "x" 300.

(** The keywords [createVariations] looks for. *)
Definition keywords : list string :=
  [ "war"; "battle"; "friend"; "life"; "North"; "Bloody-Nine" ].

(** The list [generateAllPosts] returns. *)
Definition allPosts : list Types.PostGenerationResult :=
  match Generator.generateAllPosts with
  | Ok posts => posts
  | Throw _ => []
  end.

(** What [postTweet] asks of a content before it calls the API, and a
    category of the catalogue. *)
Definition publishable (p : Types.PostGenerationResult) : bool :=
  (String.length (Types.content p) <=? 280)%nat
  && negb (String.eqb (Js.trim (Types.content p)) "")
  && match Types.category p with
     | Some topic =>
         existsb (String.eqb topic) (map fst Generator.TEMPLATE_TOPICS)
     | None => false
     end.

(** The statistics row agrees with the posts table. *)
Definition in_step (d : Db.t) (s : BotStats.row) : Prop :=
  BotStats.used_posts s = Db.count_used d (BotStats.bot_id s) /\
  BotStats.remaining_posts s
  = Db.count_posts d (BotStats.bot_id s) - Db.count_used d (BotStats.bot_id s).

(** A ready service, an API that always refuses a duplicate, one that
    accepts everything. *)
Definition ready : Twitter.service := Twitter.mkService true true.

Definition refuse (n : nat) (content : string) : outcome (option string) :=
  Throw "You are not allowed to create a Tweet with duplicate content.".

Definition accept (n : nat) (content : string) : outcome (option string) :=
  Ok (Some "ext-123").

(** [ORDER BY created_at DESC], as a relation between a row and a later
    one. *)
Definition newer_first (r q : Posts.row) : Prop :=
  Posts.created_at q <= Posts.created_at r.

(** No row of [post_logs] points at a post. *)
Definition unreferenced (d : Db.t) : Prop :=
  Forall (fun l => PostLogs.post_id l = None) (Db.post_logs d).

(** Forty days, in seconds. *)
Definition forty_days : Z := 40 * 86400.

(** The empty store after the seeder has stored [batch2] for bot-a. *)
Definition seeded : Db.t :=
  snd (Seeder.storePostsInDatabase Scenario.empty "bot-a" Scenario.batch2 200).

(** The posts of a batch whose content no earlier post of the batch, and no
    entry of [seen], has. *)
Fixpoint firstOccurrences (seen : list string)
    (posts : list Types.PostGenerationResult)
  : list Types.PostGenerationResult :=
  match posts with
  | [] => []
  | post :: rest =>
      if existsb (String.eqb (Types.content post)) seen
      then firstOccurrences seen rest
      else post :: firstOccurrences (Types.content post :: seen) rest
  end.

(** The empty store after bot-a has stored what [generateAllPosts]
    returns. *)
Definition stocked : Db.t :=
  snd (PostManager.storePosts Scenario.empty "bot-a" allPosts 100).

(** The same store when every post has been used. *)
Definition exhausted : Db.t :=
  Db.with_posts stocked (map (Db.set_used 200) (Db.posts stocked))
                (Db.posts_seq stocked).

(** No variable of the environment is set. *)
Definition anonymous : Process.env := Process.mkEnv None None None None None.

(** One unused post of the default bot. *)
Definition template_one : Db.t :=
  Db.mk [ Scenario.stored 1 "Test post one." "template-bot" 100 ] 1
        [ Scenario.stats "template-bot" 1 0 1 ] [] 0.

(** A publish client whose first call fails and whose later calls succeed. *)
Definition flaky (n : nat) (content : string) : Z * outcome string :=
  match n with
  | O => (120, Throw "Rate limit exceeded")
  | S _ => (120, Ok "ext-123")
  end.

(** Calls that take no time. *)
Definition no_time (n : nat) : Z := 0.

(** [MAX_RETRIES] is set to a word. *)
Definition no_retries : Process.env :=
  Process.mkEnv (Some "bot-a") (Some "none") None None None.

End Samples.

(* ================================================================== *)
(** * Part II: properties *)
(* ================================================================== *)

Module GeneratorFacts.
Import Generator.

Section PickerFacts.
Variable num : Type.
Variable zero : num.
Variable add : num -> num -> num.
Variable leb : num -> num -> bool.

Local Abbreviation total_from := (Notions.total_from num add).

Lemma total_from_cons (c : num) (t : string) (x : num)
    (entries : list (string * num)) (k : nat) :
  total_from c ((t, x) :: entries) (S k) = total_from (add c x) entries k.
Proof. reflexivity. Qed.

Lemma walk_first_match (entries : list (string * num)) :
  forall (c r : num) (k : nat) (topic : string) (x : num),
    nth_error entries k = Some (topic, x) ->
    leb r (total_from c entries (S k)) = true ->
    (forall j, (j < k)%nat -> leb r (total_from c entries (S j)) = false) ->
    walk num add leb entries c r = Some topic.
Proof.
  induction entries as [| [t0 x0] rest IH]; intros c r k topic x Hk Hhit Hmiss.
  - destruct k; discriminate.
  - destruct k as [| k'].
    + simpl in Hk. injection Hk as -> ->.
      change (leb r (add c x) = true) in Hhit. simpl. now rewrite Hhit.
    + pose proof (Hmiss O (Nat.lt_0_succ _)) as H0.
      change (leb r (add c x0) = false) in H0. simpl. rewrite H0.
      apply (IH (add c x0) r k' topic x Hk).
      * now rewrite <- total_from_cons with (t := t0).
      * intros j Hj. rewrite <- total_from_cons with (t := t0).
        apply Hmiss. lia.
Qed.

Lemma walk_no_match (entries : list (string * num)) :
  forall (c r : num),
    (forall j, (j < List.length entries)%nat ->
               leb r (total_from c entries (S j)) = false) ->
    walk num add leb entries c r = None.
Proof.
  induction entries as [| [t0 x0] rest IH]; intros c r Hmiss; [reflexivity |].
  pose proof (Hmiss O (Nat.lt_0_succ _)) as H0.
  change (leb r (add c x0) = false) in H0. simpl. rewrite H0.
  apply IH. intros j Hj. rewrite <- total_from_cons with (t := t0).
  apply Hmiss. simpl. lia.
Qed.

(** The loop either stops at the first entry whose running total reaches
    the draw, or runs off the end of the table. *)
Lemma walk_cases (entries : list (string * num)) :
  forall (c r : num),
    (exists k topic x,
        nth_error entries k = Some (topic, x) /\
        leb r (total_from c entries (S k)) = true /\
        (forall j, (j < k)%nat -> leb r (total_from c entries (S j)) = false) /\
        walk num add leb entries c r = Some topic)
    \/ ((forall j, (j < List.length entries)%nat ->
                   leb r (total_from c entries (S j)) = false) /\
        walk num add leb entries c r = None).
Proof.
  induction entries as [| [t0 x0] rest IH]; intros c r.
  - right. split; [intros j Hj; inversion Hj | reflexivity].
  - destruct (leb r (add c x0)) eqn:E.
    + left. exists O, t0, x0. repeat split.
      * exact E.
      * intros j Hj; inversion Hj.
      * simpl. now rewrite E.
    + destruct (IH (add c x0) r)
        as [(k & topic & x & Hk & Hhit & Hmiss & Hw) | [Hmiss Hw]].
      * left. exists (S k), topic, x. repeat split; try assumption.
        -- intros [| j] Hj; rewrite total_from_cons; [exact E | apply Hmiss; lia].
        -- simpl. now rewrite E.
      * right. split.
        -- intros [| j] Hj; rewrite total_from_cons; [exact E |].
           apply Hmiss. simpl in Hj. lia.
        -- simpl. now rewrite E.
Qed.

(** A match at position [k] makes the loop return one of the first
    [k + 1] keys. *)
Lemma walk_within (entries : list (string * num)) :
  forall (c r : num) (k : nat),
    (k < List.length entries)%nat ->
    leb r (total_from c entries (S k)) = true ->
    exists topic,
      walk num add leb entries c r = Some topic /\
      In topic (firstn (S k) (map fst entries)).
Proof.
  induction entries as [| [t0 x0] rest IH]; intros c r k Hk Hhit.
  - inversion Hk.
  - destruct (leb r (add c x0)) eqn:E.
    + exists t0. split; [simpl; now rewrite E | now left].
    + destruct k as [| k'];
        [change (leb r (add c x0) = true) in Hhit; congruence |].
      rewrite total_from_cons in Hhit.
      destruct (IH (add c x0) r k') as (topic & Hw & Hin);
        [simpl in Hk; lia | exact Hhit |].
      exists topic. split; [simpl; now rewrite E | now right].
Qed.

End PickerFacts.

(** C8. [getRandomTopic] always returns a topic: over any weight table,
    any topic table and any draw, either it returns the first topic, in
    insertion order, whose cumulative weight is greater than or equal to the
    draw, or no cumulative weight reaches the draw and it returns the
    fallback, which for the compiled-in topics is their first key,
    battle_wisdom; so with weights summing to 0.97 a draw of 0.99 returns
    battle_wisdom. *)
Theorem getRandomTopic_total :
  (forall (num : Type) (zero : num) (add : num -> num -> num)
          (leb : num -> num -> bool) (weights : list (string * num))
          (topics : list (string * string)) (random : num),
      (exists k topic x,
          nth_error weights k = Some (topic, x) /\
          leb random (cumulativeAfter num zero add weights (S k)) = true /\
          (forall j, (j < k)%nat ->
             leb random (cumulativeAfter num zero add weights (S j)) = false) /\
          getRandomTopicIn num zero add leb weights topics random = topic)
      \/ ((forall j, (j < List.length weights)%nat ->
             leb random (cumulativeAfter num zero add weights (S j)) = false) /\
          getRandomTopicIn num zero add leb weights topics random
          = fallback topics))
  /\ fallback TEMPLATE_TOPICS = "battle_wisdom"
  /\ hd_error (map fst TEMPLATE_TOPICS) = Some "battle_wisdom"
  /\ hd_error (map fst TOPIC_WEIGHTS) = Some "battle_wisdom"
  /\ getRandomTopicIn Q 0%Q Qplus Qle_bool Scenario.weights97 TEMPLATE_TOPICS (99 # 100)
     = "battle_wisdom".
Proof.
  split; [| repeat split; reflexivity].
  intros num zero add leb weights topics random.
  unfold getRandomTopicIn, cumulativeAfter.
  destruct (walk_cases num add leb weights zero random)
    as [(k & topic & x & Hk & Hhit & Hmiss & Hw) | [Hmiss Hw]].
  - left. exists k, topic, x. rewrite Hw. repeat split; assumption.
  - right. rewrite Hw. split; [exact Hmiss | reflexivity].
Qed.

Lemma topic_weights_keys_split (topic : string) :
  In topic (firstn 15 (map fst TOPIC_WEIGHTS)) ->
  ~ In topic (skipn 15 (map fst TOPIC_WEIGHTS)).
Proof.
  cbn. intros Hin Hout.
  repeat (destruct Hin as [<- | Hin];
          [ repeat (destruct Hout as [Hout | Hout]; [discriminate Hout |]);
            exact Hout |]).
  exact Hin.
Qed.

(** C9. With the weights read as exact rationals the cumulative weight is
    exactly 1 after the 15th entry, everyday_wisdom; so every draw in [0,1)
    stops the loop at one of the first 15 topics: none of the 17 topics
    after them is returned and the fallback is not reached. *)
Theorem getRandomTopic_first_fifteen (random : Q) :
  (0 <= random)%Q -> (random < 1)%Q ->
  (cumulativeAfter Q 0%Q Qplus TOPIC_WEIGHTS 15 == 1)%Q /\
  nth_error (map fst TOPIC_WEIGHTS) 14 = Some "everyday_wisdom" /\
  List.length (skipn 15 TOPIC_WEIGHTS) = 17%nat /\
  walk Q Qplus Qle_bool TOPIC_WEIGHTS 0%Q random = Some (getRandomTopic random) /\
  In (getRandomTopic random) (firstn 15 (map fst TOPIC_WEIGHTS)) /\
  ~ In (getRandomTopic random) (skipn 15 (map fst TOPIC_WEIGHTS)).
Proof.
  intros _ Hlt.
  assert (Hsum : (cumulativeAfter Q 0%Q Qplus TOPIC_WEIGHTS 15 == 1)%Q)
    by (vm_compute; reflexivity).
  assert (Hhit : Qle_bool random
                   (Notions.total_from Q Qplus 0%Q TOPIC_WEIGHTS 15) = true).
  { apply Qle_bool_iff. change (Notions.total_from Q Qplus 0%Q TOPIC_WEIGHTS 15)
      with (cumulativeAfter Q 0%Q Qplus TOPIC_WEIGHTS 15).
    rewrite Hsum. now apply Qlt_le_weak. }
  destruct (walk_within Q Qplus Qle_bool TOPIC_WEIGHTS 0%Q random 14)
    as (topic & Hw & Hin); [vm_compute; lia | exact Hhit |].
  assert (Hget : getRandomTopic random = topic)
    by (unfold getRandomTopic, getRandomTopicIn; now rewrite Hw).
  rewrite Hget. repeat split; try reflexivity; try assumption.
  now apply topic_weights_keys_split.
Qed.

Lemma getRandomTopic_first_fifteen_witness :
  (0 <= 1 # 2)%Q /\ (1 # 2 < 1)%Q /\
  In (getRandomTopic (1 # 2)) (firstn 15 (map fst TOPIC_WEIGHTS)).
Proof.
  assert (H0 : (0 <= 1 # 2)%Q) by (vm_compute; discriminate).
  assert (H1 : (1 # 2 < 1)%Q) by reflexivity.
  split; [exact H0 | split; [exact H1 |]].
  exact (proj1 (proj2 (proj2 (proj2 (proj2
           (getRandomTopic_first_fifteen (1 # 2) H0 H1)))))).
Defined.

End GeneratorFacts.

Module HashFacts.

Lemma hex_length (n : nat) (x : Z) : String.length (Sha256.hex n x) = n.
Proof. induction n as [| n IH]; simpl; [reflexivity | now rewrite IH]. Qed.

Lemma append_length (a b : string) :
  String.length (a ++ b) = (String.length a + String.length b)%nat.
Proof. induction a as [| c a IH]; simpl; [reflexivity | now rewrite IH]. Qed.

(** A digest is 64 hexadecimal digits: 256 bits. *)
Lemma sha256_hex_length (s : string) :
  String.length (Sha256.sha256_hex s) = 64%nat.
Proof.
  unfold Sha256.sha256_hex, Sha256.hex_state.
  repeat rewrite append_length. repeat rewrite hex_length. reflexivity.
Qed.

(** The post manager's fingerprint sees only the lower-cased, trimmed
    content, and is 256 bits long. *)
Lemma fingerprint_of_normal_form (s t : string) :
  Js.trim (Js.toLowerCase s) = Js.trim (Js.toLowerCase t) ->
  PostManager.generateContentHash s = PostManager.generateContentHash t.
Proof. unfold PostManager.generateContentHash. now intros ->. Qed.

Lemma fingerprint_length (s : string) :
  String.length (PostManager.generateContentHash s) = 64%nat.
Proof. apply sha256_hex_length. Qed.

Example sha256_abc :
  Sha256.sha256_hex "abc"
  = "ba7816bf8f01cfea414140de5dae2223b00361a396177a9cb410ff61f20015ad".
Proof. vm_compute. reflexivity. Qed.

Example sha256_empty :
  Sha256.sha256_hex ""
  = "e3b0c44298fc1c149afbf4c8996fb92427ae41e4649b934ca495991b7852b855".
Proof. vm_compute. reflexivity. Qed.

Example sha256_two_blocks :
  Sha256.sha256_hex "abcdbcdecdefdefgefghfghighijhijkijkljklmklmnlmnomnopnopq"
  = "248d6a61d20638b8e5c026930c3e6039a33ce45964ff2167f6ecedd419db06c1".
Proof. vm_compute. reflexivity. Qed.

(** C5. The generator's own [generateContentHash] hashes the content as it
    is: "A" and "a" have the same lower-cased, trimmed form, the post
    manager gives them one fingerprint, the generator two.  The seeder stores
    the generator's digest in [content_hash], where [storePosts] looks for
    the post manager's: a sentence the seeder has stored is stored once more
    by [storePosts], for the same bot. *)
Theorem generator_hash_not_normalized :
  Js.trim (Js.toLowerCase "A") = Js.trim (Js.toLowerCase "a") /\
  PostManager.generateContentHash "A" = PostManager.generateContentHash "a" /\
  Generator.generateContentHash "A"
  = "559aead08264d5795d3909718cdd05abd49572e84fe55590eef31a88a08fdffd" /\
  Generator.generateContentHash "a"
  = "ca978112ca1bbdcafac231b39a23dc4da786eff8147c4e72b9807785afee48bb" /\
  Generator.generateContentHash "A" <> Generator.generateContentHash "a" /\
  let batch := [Scenario.generated "Hello there."] in
  let seeded :=
    snd (Seeder.storePostsInDatabase Scenario.empty "bot-a" batch 100) in
  let stored := snd (PostManager.storePosts seeded "bot-a" batch 200) in
  map Posts.content (Db.posts seeded) = ["Hello there."] /\
  map Posts.content (Db.posts stored) = ["Hello there."; "Hello there."] /\
  map Posts.bot_id (Db.posts stored) = ["bot-a"; "bot-a"].
Proof.
  split; [reflexivity |]. split; [vm_compute; reflexivity |].
  split; [vm_compute; reflexivity |]. split; [vm_compute; reflexivity |].
  split; [vm_compute; discriminate |].
  vm_compute. repeat split.
Qed.

End HashFacts.

Module StoreFacts.
Import Db.
Import Notions.

Lemma unused_of_iff (botId : string) (r : Posts.row) :
  unused_of botId r = true <-> Posts.bot_id r = botId /\ Posts.used r = false.
Proof.
  unfold unused_of. rewrite andb_true_iff, String.eqb_eq, negb_true_iff. tauto.
Qed.

Lemma oldest_none (rows : list Posts.row) : oldest rows = None <-> rows = [].
Proof.
  destruct rows as [| r rest]; simpl; [tauto |].
  destruct (oldest rest) as [m |]; [destruct (_ <=? _) |]; split; discriminate.
Qed.

Lemma oldest_least (rows : list Posts.row) :
  forall r, oldest rows = Some r ->
    In r rows /\
    forall q, In q rows -> Posts.created_at r <= Posts.created_at q.
Proof.
  induction rows as [| r0 rest IH]; intros r H; [discriminate |].
  simpl in H. destruct (oldest rest) as [m |] eqn:E.
  - destruct (IH m eq_refl) as [Hin Hmin].
    destruct (Posts.created_at r0 <=? Posts.created_at m) eqn:C;
      injection H as <-.
    + apply Z.leb_le in C. split; [now left |].
      intros q [<- | Hq]; [lia | specialize (Hmin q Hq); lia].
    + apply Z.leb_gt in C. split; [now right |].
      intros q [<- | Hq]; [lia | now apply Hmin].
  - injection H as <-. apply oldest_none in E. subst rest.
    split; [now left |]. intros q [<- | []]. lia.
Qed.

(** Among the rows that are oldest, [oldest] takes the first to arrive:
    every row before it is strictly younger. *)
Lemma oldest_first (rows : list Posts.row) :
  forall r, oldest rows = Some r ->
    exists pre post,
      rows = (pre ++ r :: post)%list /\
      forall q, In q pre -> Posts.created_at r < Posts.created_at q.
Proof.
  induction rows as [| r0 rest IH]; intros r H; [discriminate |].
  simpl in H. destruct (oldest rest) as [m |] eqn:E.
  - destruct (IH m eq_refl) as (pre & post & Hsplit & Hpre).
    destruct (Posts.created_at r0 <=? Posts.created_at m) eqn:C;
      injection H as <-.
    + exists [], rest. split; [reflexivity | intros q []].
    + apply Z.leb_gt in C. exists (r0 :: pre), post.
      split; [simpl; now rewrite Hsplit |].
      intros q [<- | Hq]; [exact C | now apply Hpre].
  - injection H as <-. apply oldest_none in E. subst rest.
    exists [], []. split; [reflexivity | intros q []].
Qed.

(** Where the post returned by [getNextPost] comes from. *)
Lemma getNextPost_source (d : Db.t) (botId : string) (p : PostManager.Post) :
  PostManager.getNextPost d botId = Some p ->
  exists r,
    p = PostManager.toPost r /\ In r (posts d) /\
    Posts.bot_id r = botId /\ Posts.used r = false /\
    (forall q, In q (posts d) -> Posts.bot_id q = botId ->
               Posts.used q = false ->
               Posts.created_at r <= Posts.created_at q) /\
    exists pre post,
      filter (unused_of botId) (posts d) = (pre ++ r :: post)%list /\
      forall q, In q pre -> Posts.created_at r < Posts.created_at q.
Proof.
  unfold PostManager.getNextPost, select_next_unused. intros H.
  destruct (oldest _) as [m |] eqn:E; [| discriminate].
  injection H as <-. destruct (oldest_least _ _ E) as [Hin Hmin].
  apply filter_In in Hin. destruct Hin as [Hin Hu].
  apply unused_of_iff in Hu. destruct Hu as [Hb Hu].
  exists m. split; [reflexivity |]. split; [exact Hin |].
  split; [exact Hb |]. split; [exact Hu |]. split.
  - intros q Hq Hqb Hqu. apply Hmin. apply filter_In.
    split; [exact Hq | now apply unused_of_iff].
  - now apply oldest_first.
Qed.

(** *** The order of the table *)

Lemma rowid_order_filter (f : Posts.row -> bool) (rows : list Posts.row) :
  rowid_order rows -> rowid_order (filter f rows).
Proof.
  unfold rowid_order. induction 1 as [| a rest Hs IH Ha]; cbn [filter].
  - constructor.
  - destruct (f a); [| exact IH]. constructor; [exact IH |].
    apply Forall_forall. intros q Hq. apply filter_In in Hq.
    rewrite Forall_forall in Ha. now apply Ha.
Qed.

Lemma rowid_order_after (pre post : list Posts.row) (r : Posts.row) :
  rowid_order (pre ++ r :: post) ->
  forall q, In q post -> Posts.id r < Posts.id q.
Proof.
  unfold rowid_order. induction pre as [| a pre IH]; cbn [app]; intros H q Hq.
  - inversion H as [| ? ? _ Ha]; subst. rewrite Forall_forall in Ha.
    now apply Ha.
  - inversion H as [| ? ? Hs _]; subst. now apply IH.
Qed.

Lemma max_id_ge (rows : list Posts.row) (r : Posts.row) :
  In r rows -> Posts.id r <= max_id rows.
Proof.
  induction rows as [| a rest IH]; [contradiction |].
  cbn [max_id fold_right]. fold (max_id rest).
  intros [<- | H]; [lia |]. specialize (IH H). lia.
Qed.

Lemma rowid_order_snoc (rows : list Posts.row) (r : Posts.row) :
  rowid_order rows -> (forall q, In q rows -> Posts.id q < Posts.id r) ->
  rowid_order (rows ++ [r]).
Proof.
  unfold rowid_order. induction 1 as [| a rest Hs IH Ha]; cbn [app]; intros Hr.
  - repeat constructor.
  - constructor.
    + apply IH. intros q Hq. apply Hr. now right.
    + apply Forall_app. split; [exact Ha |].
      constructor; [| constructor]. apply Hr. now left.
Qed.

Lemma rowid_order_map (f : Posts.row -> Posts.row) (rows : list Posts.row) :
  (forall r, Posts.id (f r) = Posts.id r) ->
  rowid_order rows -> rowid_order (map f rows).
Proof.
  unfold rowid_order. intros Hf. induction 1 as [| a rest Hs IH Ha]; cbn [map].
  - constructor.
  - constructor; [exact IH |]. apply Forall_forall. intros q Hq.
    apply in_map_iff in Hq. destruct Hq as (q0 & <- & Hq0).
    rewrite Forall_forall in Ha. rewrite !Hf. now apply Ha.
Qed.

(** AUTOINCREMENT hands out rowids above every row of the table, and the
    UPDATE of [markPostAsUsed] leaves the ids alone: the statements the code
    issues keep the table in rowid order. *)
Lemma insert_post_rowid_order (d d' : Db.t) (content botId : string)
    (category : option string) (cost : Q) (tokens : Z) (model hash : string)
    (now : Z) :
  rowid_order (posts d) ->
  insert_post d content botId category cost tokens model hash now = Ok d' ->
  rowid_order (posts d').
Proof.
  intros Hs H. unfold insert_post in H.
  destruct (existsb (hash_is hash) (posts d)); [discriminate |].
  destruct (existsb _ (posts d)); [discriminate |].
  inversion H; subst. cbn [posts with_posts].
  apply rowid_order_snoc; [exact Hs |].
  intros q Hq. cbn [Posts.id]. pose proof (max_id_ge _ _ Hq). lia.
Qed.

Lemma storeEach_rowid_order (botId : string) (now : Z)
    (posts0 : list Types.PostGenerationResult) :
  forall d d', rowid_order (posts d) ->
    PostManager.storeEach botId now posts0 d = Ok d' ->
    rowid_order (posts d').
Proof.
  induction posts0 as [| p rest IH]; intros d d' Hs H;
    cbn [PostManager.storeEach] in H; cbv zeta in H.
  - now inversion H; subst.
  - destruct (select_id_by_hash d botId _); [now apply (IH d) |].
    destruct (insert_post d _ _ _ _ _ _ _ _) as [d1 |] eqn:E; [| discriminate].
    apply (IH d1); [| exact H]. eapply insert_post_rowid_order; eauto.
Qed.

Lemma markPostAsUsed_rowid_order (d : Db.t) (botId : string) (postId : Z)
    (tweetId : option string) (now : Z) :
  rowid_order (posts d) ->
  rowid_order (posts (PostManager.markPostAsUsed d botId postId tweetId now)).
Proof.
  intros Hs. unfold PostManager.markPostAsUsed, update_post_used.
  cbn [posts with_posts with_bot_stats].
  apply rowid_order_map; [| exact Hs].
  intros r. now destruct (targets postId botId r).
Qed.

(** In a table in rowid order, the first row of the smallest [created_at]
    is the row of the smallest [(created_at, id)]. *)
Lemma oldest_least_by_id (rows : list Posts.row) :
  rowid_order rows -> oldest rows = Spec.least rows.
Proof.
  unfold rowid_order. induction 1 as [| a rest Hs IH Ha];
    cbn [oldest Spec.least]; [reflexivity |].
  rewrite <- IH. destruct (oldest rest) as [m |] eqn:E; [| reflexivity].
  apply oldest_least in E. destruct E as [Hm _].
  rewrite Forall_forall in Ha. specialize (Ha m Hm). unfold Spec.before.
  destruct (Z.leb_spec (Posts.created_at a) (Posts.created_at m)),
           (Z.ltb_spec (Posts.created_at a) (Posts.created_at m)),
           (Z.eqb_spec (Posts.created_at a) (Posts.created_at m)),
           (Z.leb_spec (Posts.id a) (Posts.id m));
    cbn [orb andb]; try reflexivity; lia.
Qed.

(** C7. [getNextPost] returns nothing exactly when the bot has no unused
    row, and otherwise the unused row of the bot with the smallest
    [created_at]; among rows that tie on [created_at] it returns the one with
    the smallest id.  The query itself names no second sort key
    ([ORDER BY created_at ASC LIMIT 1]): the tie is settled by the order in
    which rows of equal [created_at] reach the query, which is rowid order,
    and [id] is the rowid.  So the code returns what the specification's
    [nextUnused] returns. *)
Theorem getNextPost_oldest_unused (d : Db.t) (botId : string) :
  rowid_order (posts d) ->
  (PostManager.getNextPost d botId = None <->
   forall r, In r (posts d) -> Posts.bot_id r = botId -> Posts.used r = true)
  /\
  (forall p, PostManager.getNextPost d botId = Some p ->
     exists r,
       p = PostManager.toPost r /\ In r (posts d) /\
       Posts.bot_id r = botId /\ Posts.used r = false /\
       forall q, In q (posts d) -> Posts.bot_id q = botId ->
                 Posts.used q = false ->
                 Posts.created_at r < Posts.created_at q \/
                 (Posts.created_at r = Posts.created_at q /\
                  Posts.id r <= Posts.id q))
  /\
  PostManager.getNextPost d botId
  = option_map PostManager.toPost (Spec.nextUnused d botId).
Proof.
  intros Hs. split; [| split].
  - unfold PostManager.getNextPost, select_next_unused.
    destruct (oldest _) as [m |] eqn:E.
    + split; [discriminate |]. intros Hall.
      destruct (oldest_least _ _ E) as [Hin _].
      apply filter_In in Hin. destruct Hin as [Hin Hu].
      apply unused_of_iff in Hu. destruct Hu as [Hb Hu].
      rewrite (Hall m Hin Hb) in Hu. discriminate.
    + split; [| reflexivity]. intros _ r Hin Hb.
      apply oldest_none in E.
      destruct (Posts.used r) eqn:U; [reflexivity |].
      assert (Hf : In r (filter (unused_of botId) (posts d)))
        by (apply filter_In; split; [exact Hin | now apply unused_of_iff]).
      rewrite E in Hf. destruct Hf.
  - intros p Hp.
    destruct (getNextPost_source _ _ _ Hp)
      as (r & -> & Hin & Hb & Hu & Hmin & pre & post & Hsplit & Hpre).
    exists r. repeat (split; [assumption || reflexivity |]).
    intros q Hq Hqb Hqu.
    assert (Hf : In q (filter (unused_of botId) (posts d)))
      by (apply filter_In; split; [exact Hq | now apply unused_of_iff]).
    rewrite Hsplit in Hf. apply in_app_or in Hf.
    destruct Hf as [Hf | [<- | Hf]].
    + left. now apply Hpre.
    + right. split; [reflexivity | lia].
    + pose proof (Hmin q Hq Hqb Hqu) as Hle.
      pose proof (rowid_order_filter (unused_of botId) _ Hs) as Hsf.
      rewrite Hsplit in Hsf.
      pose proof (rowid_order_after _ _ _ Hsf q Hf) as Hid.
      destruct (Z.eq_dec (Posts.created_at r) (Posts.created_at q));
        [right; split; [assumption | lia] | left; lia].
  - unfold PostManager.getNextPost, Spec.nextUnused, select_next_unused.
    rewrite (oldest_least_by_id _ (rowid_order_filter (unused_of botId) _ Hs)).
    now destruct (Spec.least _).
Qed.

Lemma getNextPost_oldest_unused_witness :
  rowid_order (posts Scenario.tie) /\
  PostManager.getNextPost Scenario.tie "bot-a"
  = option_map PostManager.toPost (Spec.nextUnused Scenario.tie "bot-a") /\
  option_map PostManager.id (PostManager.getNextPost Scenario.tie "bot-a")
  = Some 1.
Proof.
  assert (H : rowid_order (posts Scenario.tie)).
  { unfold rowid_order. cbn [Scenario.tie posts].
    repeat constructor. }
  split; [exact H |]. split.
  - exact (proj2 (proj2 (getNextPost_oldest_unused Scenario.tie "bot-a" H))).
  - vm_compute. reflexivity.
Defined.

(** *** Marking a post used *)

Lemma targets_set_used (postId : Z) (botId : string) (now : Z) (r : Posts.row) :
  targets postId botId (set_used now r) = targets postId botId r.
Proof. reflexivity. Qed.

Lemma fire_used_none (olds : list Posts.row) (now : Z) (stats : list BotStats.row) :
  Forall (fun r => Posts.used r = true) olds ->
  fire_used olds now stats = stats.
Proof.
  intros H. revert stats. induction H as [| r rest Hr _ IH]; intros stats;
    simpl; [reflexivity |].
  rewrite Hr. simpl. apply IH.
Qed.

Lemma mark_bot_id (postId : Z) (botId : string) (now : Z) (r : Posts.row) :
  Posts.bot_id (mark postId botId now r) = Posts.bot_id r.
Proof. unfold mark. now destruct (targets _ _ _). Qed.

Lemma targets_mark (postId : Z) (botId : string) (now : Z) (r : Posts.row) :
  targets postId botId (mark postId botId now r) = targets postId botId r.
Proof. unfold mark. now destruct (targets postId botId r) eqn:E. Qed.

Lemma mark_mark (postId : Z) (botId : string) (t1 t2 : Z) (r : Posts.row) :
  mark postId botId t2 (mark postId botId t1 r) = mark postId botId t2 r.
Proof.
  unfold mark. destruct (targets postId botId r) eqn:E.
  - rewrite targets_set_used, E. reflexivity.
  - now rewrite E.
Qed.

Lemma mark_used_mono (postId : Z) (botId : string) (now : Z) (r : Posts.row) :
  Posts.used r = true -> Posts.used (mark postId botId now r) = true.
Proof. unfold mark. now destruct (targets _ _ _). Qed.

Lemma hit_after_mark (postId : Z) (botId : string) (now : Z) (rows : list Posts.row) :
  Forall (fun r => Posts.used r = true)
         (filter (targets postId botId) (map (mark postId botId now) rows)).
Proof.
  induction rows as [| r rest IH]; simpl; [constructor |].
  rewrite targets_mark. destruct (targets postId botId r) eqn:E; [| exact IH].
  constructor; [| exact IH]. unfold mark. now rewrite E.
Qed.

Lemma count_after_mark_used (postId : Z) (botId b : string) (now : Z)
    (rows : list Posts.row) :
  Forall (fun r => targets postId botId r = true -> Posts.used r = true) rows ->
  filter (fun r => String.eqb (Posts.bot_id r) b && Posts.used r)
         (map (mark postId botId now) rows)
  = map (mark postId botId now)
        (filter (fun r => String.eqb (Posts.bot_id r) b && Posts.used r) rows).
Proof.
  induction 1 as [| r rest Hr _ IH]; simpl; [reflexivity |].
  rewrite mark_bot_id.
  assert (U : Posts.used (mark postId botId now r) = Posts.used r).
  { unfold mark. destruct (targets postId botId r) eqn:E; [| reflexivity].
    now rewrite (Hr eq_refl). }
  rewrite U.
  destruct (String.eqb (Posts.bot_id r) b && Posts.used r); simpl; now rewrite IH.
Qed.

Lemma count_posts_mark (d : Db.t) (postId : Z) (botId b : string) (now : Z) :
  count_posts (update_post_used d postId botId now) b = count_posts d b.
Proof.
  unfold count_posts, update_post_used. simpl. f_equal.
  induction (posts d) as [| r rest IH]; simpl; [reflexivity |].
  fold (mark postId botId now r). rewrite mark_bot_id.
  destruct (String.eqb (Posts.bot_id r) b); simpl; now rewrite IH.
Qed.

Lemma filter_none {A : Type} (f : A -> bool) (rows : list A) :
  (forall r, In r rows -> f r = false) -> filter f rows = [].
Proof.
  induction rows as [| r rest IH]; intros H; [reflexivity |]. simpl.
  rewrite (H r (or_introl eq_refl)). apply IH. intros q Hq. apply H. now right.
Qed.

Lemma map_mark_none (postId : Z) (botId : string) (now : Z) (rows : list Posts.row) :
  (forall r, In r rows -> targets postId botId r = false) ->
  map (mark postId botId now) rows = rows.
Proof.
  induction rows as [| r rest IH]; intros H; [reflexivity |]. simpl.
  unfold mark at 1. rewrite (H r (or_introl eq_refl)). f_equal.
  apply IH. intros q Hq. apply H. now right.
Qed.

Lemma update_post_used_posts (d : Db.t) (postId : Z) (botId : string) (now : Z) :
  posts (update_post_used d postId botId now)
  = map (mark postId botId now) (posts d).
Proof. reflexivity. Qed.

(** C2, as the code has it. After a second [markPostAsUsed] of the same post
    the row is still used, [used_at] and [updated_at] hold the time of the
    second call, the statistics row and the counts are those left by the first
    call (nothing is decremented twice), and a call whose id matches no row of
    this bot changes nothing. *)
Theorem markPostAsUsed_again (d : Db.t) (botId : string) (postId : Z)
    (tweet1 tweet2 : option string) (t1 t2 : Z) :
  let d1 := PostManager.markPostAsUsed d botId postId tweet1 t1 in
  let d2 := PostManager.markPostAsUsed d1 botId postId tweet2 t2 in
  (forall r, In r (posts d2) -> Posts.id r = postId -> Posts.bot_id r = botId ->
     Posts.used r = true /\ Posts.used_at r = Some t2 /\ Posts.updated_at r = t2)
  /\ bot_stats d2 = bot_stats d1
  /\ PostManager.getPostCount d2 botId = PostManager.getPostCount d1 botId
  /\ post_logs d2 = post_logs d1
  /\ ((forall r, In r (posts d) -> targets postId botId r = false) ->
      PostManager.markPostAsUsed d botId postId tweet1 t1 = d).
Proof.
  unfold PostManager.markPostAsUsed. cbv zeta.
  split; [| split; [| split; [| split]]].
  - intros r Hin Hid Hb. rewrite update_post_used_posts in Hin.
    apply in_map_iff in Hin. destruct Hin as (r1 & <- & _).
    assert (E : targets postId botId r1 = true).
    { unfold targets. rewrite mark_bot_id in Hb.
      unfold mark in Hid. destruct (targets postId botId r1) eqn:E'; [exact E' |].
      unfold targets in E'. rewrite Hid, Hb, Z.eqb_refl, String.eqb_refl in E'.
      discriminate. }
    unfold mark. rewrite E. repeat split.
  - unfold update_post_used at 1. simpl.
    apply fire_used_none. apply hit_after_mark.
  - assert (U : count_used (update_post_used (update_post_used d postId botId t1)
                                              postId botId t2) botId
               = count_used (update_post_used d postId botId t1) botId).
    { unfold count_used. rewrite (update_post_used_posts (update_post_used _ _ _ _)).
      rewrite count_after_mark_used; [now rewrite length_map |].
      rewrite update_post_used_posts.
      apply Forall_forall. intros r Hin E.
      apply in_map_iff in Hin. destruct Hin as (r0 & <- & _).
      rewrite targets_mark in E. unfold mark. now rewrite E. }
    unfold PostManager.getPostCount. now rewrite count_posts_mark, U.
  - reflexivity.
  - intros Hnone. unfold update_post_used.
    assert (Hhit : filter (targets postId botId) (posts d) = [])
      by now apply filter_none.
    assert (Hmap : map (fun r => if targets postId botId r then set_used t1 r else r)
                       (posts d) = posts d)
      by now apply (map_mark_none postId botId t1).
    rewrite Hhit, Hmap. destruct d. reflexivity.
Qed.

(** C2, as the specification words it, fails: marking the post of
    [Scenario.one] at second 100 and again at second 200 leaves [used_at]
    at 200, not at 100. *)
Lemma markPostAsUsed_refreshes_used_at :
  let d1 := PostManager.markPostAsUsed Scenario.one "bot-a" 1 (Some "ext-123") 100 in
  let d2 := PostManager.markPostAsUsed d1 "bot-a" 1 (Some "ext-123") 200 in
  map Posts.used_at (posts d1) = [Some 100] /\
  map Posts.used_at (posts d2) = [Some 200] /\
  map Posts.used_at (posts d2) <> map Posts.used_at (posts d1).
Proof.
  cbv zeta. split; [reflexivity | split; [reflexivity |]].
  intros H. vm_compute in H. discriminate.
Qed.

(** With ids unique, marking an unused row of the bot raises the count of
    used rows by one. *)
Lemma count_used_mark_one (postId : Z) (botId : string) (now : Z)
    (rows : list Posts.row) (r : Posts.row) :
  NoDup (map Posts.id rows) -> In r rows ->
  Posts.id r = postId -> Posts.bot_id r = botId -> Posts.used r = false ->
  List.length (filter (fun q => String.eqb (Posts.bot_id q) botId && Posts.used q)
                      (map (mark postId botId now) rows))
  = S (List.length
         (filter (fun q => String.eqb (Posts.bot_id q) botId && Posts.used q) rows)).
Proof.
  intros Hnd Hin Hid Hb Hu.
  induction rows as [| r0 rest IH]; [destruct Hin |].
  simpl in Hnd. apply NoDup_cons_iff in Hnd. destruct Hnd as [Hfresh Hnd].
  simpl. destruct Hin as [-> | Hin].
  - assert (T : targets postId botId r = true)
      by (unfold targets; now rewrite Hid, Hb, Z.eqb_refl, String.eqb_refl).
    unfold mark at 1 2. rewrite T. cbn [set_used Posts.bot_id Posts.used].
    rewrite Hb, String.eqb_refl, Hu. cbn [andb].
    rewrite map_mark_none; [reflexivity |].
    intros q Hq. unfold targets.
    destruct (Posts.id q =? postId) eqn:E; [| reflexivity].
    apply Z.eqb_eq in E. exfalso. apply Hfresh. rewrite Hid, <- E.
    now apply in_map.
  - assert (T : targets postId botId r0 = false).
    { unfold targets. destruct (Posts.id r0 =? postId) eqn:E; [| reflexivity].
      apply Z.eqb_eq in E. exfalso. apply Hfresh. rewrite E, <- Hid.
      now apply in_map. }
    unfold mark at 1 2. rewrite T.
    destruct (String.eqb (Posts.bot_id r0) botId && Posts.used r0); simpl;
      now rewrite (IH Hnd Hin).
Qed.

(** *** Storing a batch *)

Lemma select_id_by_hash_none (d : Db.t) (botId h : string) :
  select_id_by_hash d botId h = None <-> owns botId h (posts d) = false.
Proof.
  unfold select_id_by_hash, owns.
  induction (posts d) as [| r rest IH]; simpl; [tauto |].
  destruct (String.eqb (Posts.bot_id r) botId && hash_is h r); simpl.
  - split; discriminate.
  - exact IH.
Qed.

Lemma owns_app (botId h : string) (rows extra : list Posts.row) :
  owns botId h (rows ++ extra) = owns botId h rows || owns botId h extra.
Proof. apply existsb_app. Qed.

Lemma owns_mono (botId h : string) (rows extra : list Posts.row) :
  owns botId h rows = true -> owns botId h (rows ++ extra) = true.
Proof. intros H. now rewrite owns_app, H. Qed.

(** What a successful INSERT of [storePosts] leaves behind. *)
Lemma insert_post_ok (d d' : Db.t) (content botId : string)
    (category : option string) (cost : Q) (tokens : Z) (model hash : string)
    (now : Z) :
  insert_post d content botId category cost tokens model hash now = Ok d' ->
  existsb (hash_is hash) (posts d) = false /\
  exists r,
    posts d' = (posts d ++ [r])%list /\
    Posts.id r = Z.max (posts_seq d) (max_id (posts d)) + 1 /\
    posts_seq d' = Posts.id r /\
    Posts.content r = content /\ Posts.bot_id r = botId /\
    Posts.used r = false /\ Posts.created_at r = now /\
    Posts.content_hash r = Some hash /\
    bot_stats d' = bot_stats d /\ post_logs d' = post_logs d /\
    post_logs_seq d' = post_logs_seq d.
Proof.
  unfold insert_post. intros H.
  destruct (existsb (hash_is hash) (posts d)); [discriminate |].
  destruct (existsb _ (posts d)); [discriminate |].
  injection H as <-. split; [reflexivity |].
  eexists. repeat split.
Qed.

(** A batch that commits only appends unused rows of the bot, and touches
    neither the statistics nor the attempt log. *)
Lemma storeEach_appends (botId : string) (now : Z)
    (posts0 : list Types.PostGenerationResult) :
  forall d d', PostManager.storeEach botId now posts0 d = Ok d' ->
    exists extra,
      posts d' = (posts d ++ extra)%list /\
      Forall (fun r => Posts.bot_id r = botId /\ Posts.used r = false /\
                       Posts.created_at r = now) extra /\
      bot_stats d' = bot_stats d /\ post_logs d' = post_logs d /\
      post_logs_seq d' = post_logs_seq d.
Proof.
  induction posts0 as [| p rest IH]; intros d d' H; simpl in H.
  - injection H as <-. exists []. rewrite app_nil_r. repeat split. constructor.
  - destruct (select_id_by_hash d botId _) as [i |]; [now apply IH |].
    destruct (insert_post d _ _ _ _ _ _ _ _) as [d1 |] eqn:E; [| discriminate].
    apply insert_post_ok in E.
    destruct E as (_ & r & Hp & _ & _ & _ & Hb & Hu & Hc & _ & Hs & Hl & Hq).
    destruct (IH d1 d' H) as (extra & Hp' & Hall & Hs' & Hl' & Hq').
    exists (r :: extra). rewrite Hp', Hp, <- app_assoc. repeat split.
    + constructor; [now repeat split | exact Hall].
    + congruence.
    + congruence.
    + congruence.
Qed.

(** After a batch has committed, the bot holds a row for the fingerprint
    of every item of the batch. *)
Lemma storeEach_owns (botId : string) (now : Z)
    (posts0 : list Types.PostGenerationResult) :
  forall d d', PostManager.storeEach botId now posts0 d = Ok d' ->
    forall p, In p posts0 ->
      owns botId (PostManager.generateContentHash (Types.content p)) (posts d')
      = true.
Proof.
  induction posts0 as [| p0 rest IH]; intros d d' H p Hin; [destruct Hin |].
  simpl in H.
  destruct (select_id_by_hash d botId _) as [i |] eqn:S.
  - destruct Hin as [<- | Hin]; [| now apply (IH d d' H)].
    destruct (storeEach_appends _ _ _ _ _ H) as (extra & -> & _).
    apply owns_mono.
    destruct (owns botId _ (posts d)) eqn:O; [reflexivity |].
    apply select_id_by_hash_none in O. congruence.
  - destruct (insert_post d _ _ _ _ _ _ _ _) as [d1 |] eqn:E; [| discriminate].
    destruct Hin as [<- | Hin]; [| now apply (IH d1 d' H)].
    apply insert_post_ok in E.
    destruct E as (_ & r & Hp & _ & _ & _ & Hb & _ & _ & Hh & _).
    destruct (storeEach_appends _ _ _ _ _ H) as (extra & -> & _).
    apply owns_mono. rewrite Hp, owns_app.
    apply orb_true_iff. right. simpl. unfold hash_is.
    now rewrite Hb, Hh, !String.eqb_refl.
Qed.

(** A batch whose fingerprints the bot all holds inserts nothing. *)
Lemma storeEach_nothing_new (botId : string) (now : Z)
    (posts0 : list Types.PostGenerationResult) (d : Db.t) :
  (forall p, In p posts0 ->
     owns botId (PostManager.generateContentHash (Types.content p)) (posts d)
     = true) ->
  PostManager.storeEach botId now posts0 d = Ok d.
Proof.
  induction posts0 as [| p0 rest IH]; intros H; [reflexivity |]. simpl.
  destruct (select_id_by_hash d botId _) as [i |] eqn:S.
  - apply IH. intros p Hp. apply H. now right.
  - apply select_id_by_hash_none in S.
    rewrite (H p0 (or_introl eq_refl)) in S. discriminate.
Qed.

(** Storing the same batch again, at any later time, inserts nothing. *)
Lemma storePosts_again (d d1 : Db.t) (botId : string)
    (posts0 : list Types.PostGenerationResult) (t1 t2 : Z) :
  PostManager.storePosts d botId posts0 t1 = (Ok tt, d1) ->
  PostManager.storePosts d1 botId posts0 t2 = (Ok tt, d1).
Proof.
  unfold PostManager.storePosts. intros H.
  destruct (PostManager.storeEach botId t1 posts0 d) as [d' |] eqn:E;
    [| discriminate].
  injection H as ->.
  rewrite (storeEach_nothing_new botId t2 posts0 d1); [reflexivity |].
  now apply (storeEach_owns botId t1 posts0 d d1).
Qed.

(** A failed batch is rolled back. *)
Lemma storePosts_rollback (d d1 : Db.t) (botId : string)
    (posts0 : list Types.PostGenerationResult) (now : Z) (e : string) :
  PostManager.storePosts d botId posts0 now = (Throw e, d1) -> d1 = d.
Proof.
  unfold PostManager.storePosts.
  destruct (PostManager.storeEach botId now posts0 d); intros H;
    [discriminate | injection H as _ <-; reflexivity].
Qed.

Lemma existsb_hash_own (botId h : string) (rows : list Posts.row) :
  (forall r, In r rows -> Posts.bot_id r = botId) ->
  existsb (hash_is h) rows = owns botId h rows.
Proof.
  induction rows as [| r rest IH]; intros H; [reflexivity |]. simpl.
  rewrite (H r (or_introl eq_refl)), String.eqb_refl. simpl. f_equal.
  apply IH. intros q Hq. apply H. now right.
Qed.

(** In a table that holds rows of this bot only, no batch fails. *)
Lemma storeEach_own_ok (botId : string) (now : Z)
    (posts0 : list Types.PostGenerationResult) :
  forall d, (forall r, In r (posts d) -> Posts.bot_id r = botId) ->
    exists d', PostManager.storeEach botId now posts0 d = Ok d'.
Proof.
  induction posts0 as [| p0 rest IH]; intros d Hown; simpl; [now exists d |].
  destruct (select_id_by_hash d botId _) as [i |] eqn:S; [now apply IH |].
  apply select_id_by_hash_none in S.
  destruct (insert_post d _ _ _ _ _ _ _ _) as [d1 | e] eqn:E.
  - apply IH. apply insert_post_ok in E.
    destruct E as (_ & r & Hp & _ & _ & _ & Hb & _).
    intros q Hq. rewrite Hp in Hq. apply in_app_iff in Hq.
    destruct Hq as [Hq | [<- | []]]; [now apply Hown | exact Hb].
  - exfalso. unfold insert_post in E.
    rewrite (existsb_hash_own botId _ _ Hown) in E.
    unfold owns in S, E. rewrite S in E. discriminate.
Qed.

(** *** The fingerprint invariant *)

Lemma fingerprints_app (botId : string) (rows extra : list Posts.row) :
  fingerprints botId (rows ++ extra)
  = (fingerprints botId rows ++ fingerprints botId extra)%list.
Proof. apply flat_map_app. Qed.

Lemma fingerprint_held (botId h : string) (rows : list Posts.row) :
  In h (fingerprints botId rows) -> existsb (hash_is h) rows = true.
Proof.
  induction rows as [| r rest IH]; simpl; [tauto |]. intros H.
  apply in_app_iff in H. destruct H as [H | H].
  - destruct (String.eqb (Posts.bot_id r) botId); [| destruct H].
    unfold hash_is. destruct (Posts.content_hash r) as [h' |]; [| destruct H].
    destruct H as [-> | []]. now rewrite String.eqb_refl.
  - rewrite (IH H). apply orb_true_r.
Qed.

(** A batch that commits keeps the invariant. *)
Lemma storeEach_unique (botId : string) (now : Z)
    (posts0 : list Types.PostGenerationResult) :
  forall d d', unique_per_bot (posts d) ->
    PostManager.storeEach botId now posts0 d = Ok d' ->
    unique_per_bot (posts d').
Proof.
  induction posts0 as [| p0 rest IH]; intros d d' Hu H; simpl in H.
  - now injection H as <-.
  - destruct (select_id_by_hash d botId _) as [i |]; [now apply (IH d) |].
    destruct (insert_post d _ _ _ _ _ _ _ _) as [d1 |] eqn:E; [| discriminate].
    apply (IH d1 d'); [| exact H].
    apply insert_post_ok in E.
    destruct E as (Hfresh & r & Hp & _ & _ & _ & Hb & _ & _ & Hh & _).
    intros b. rewrite Hp, fingerprints_app. simpl.
    rewrite Hh, app_nil_r.
    destruct (String.eqb (Posts.bot_id r) b); [| rewrite app_nil_r; apply Hu].
    apply NoDup_app; [apply Hu | repeat constructor; intros [] |].
    intros h Hin [<- | []]. apply fingerprint_held in Hin. congruence.
Qed.

(** The invariant holds after [storePosts], committed or rolled back. *)
Lemma storePosts_unique (d : Db.t) (botId : string)
    (posts0 : list Types.PostGenerationResult) (now : Z) :
  unique_per_bot (posts d) ->
  unique_per_bot (posts (snd (PostManager.storePosts d botId posts0 now))).
Proof.
  intros Hu. unfold PostManager.storePosts.
  destruct (PostManager.storeEach botId now posts0 d) as [d' |] eqn:E; simpl;
    [now apply (storeEach_unique botId now posts0 d) | exact Hu].
Qed.

Lemma owns_held (botId h : string) (rows : list Posts.row) :
  owns botId h rows = existsb (String.eqb h) (fingerprints botId rows).
Proof.
  induction rows as [| r rest IH]; [reflexivity |]. simpl.
  rewrite existsb_app, <- IH. f_equal.
  destruct (String.eqb (Posts.bot_id r) botId); [| reflexivity].
  unfold hash_is. destruct (Posts.content_hash r) as [h' |]; [| reflexivity].
  simpl. now rewrite orb_false_r, String.eqb_sym.
Qed.

Lemma insertBatch_total (held : list string)
    (posts0 : list Types.PostGenerationResult) :
  fst (Spec.insertBatch held posts0) + snd (Spec.insertBatch held posts0)
  = Z.of_nat (List.length posts0).
Proof.
  revert held. induction posts0 as [| p rest IH]; intros held; [reflexivity |].
  cbn [Spec.insertBatch List.length].
  destruct (existsb _ held).
  - specialize (IH held). destruct (Spec.insertBatch held rest) as [i k].
    cbn [fst snd] in *. lia.
  - specialize (IH (PostManager.generateContentHash (Types.content p) :: held)).
    destruct (Spec.insertBatch _ rest) as [i k]. cbn [fst snd] in *. lia.
Qed.

(** In a table that holds rows of this bot only, [storePosts] does what the
    specification's [insertBatch] says: the batch commits and the bot's row
    count rises by the number of items whose fingerprint was new, the other
    items being skipped. *)
Lemma storeEach_refines_insertBatch (botId : string) (now : Z)
    (posts0 : list Types.PostGenerationResult) :
  forall (d : Db.t) (held : list string),
    (forall r, In r (posts d) -> Posts.bot_id r = botId) ->
    (forall h, existsb (String.eqb h) held = owns botId h (posts d)) ->
    exists d',
      PostManager.storeEach botId now posts0 d = Ok d' /\
      count_posts d' botId
      = count_posts d botId + fst (Spec.insertBatch held posts0).
Proof.
  induction posts0 as [| p rest IH]; intros d held Hown Hheld.
  - exists d. split; [reflexivity | cbn; lia].
  - cbn [PostManager.storeEach Spec.insertBatch].
    set (h := PostManager.generateContentHash (Types.content p)).
    destruct (select_id_by_hash d botId h) as [i |] eqn:S.
    + assert (O : owns botId h (posts d) = true).
      { destruct (owns botId h (posts d)) eqn:O; [reflexivity |].
        apply select_id_by_hash_none in O. congruence. }
      rewrite Hheld, O.
      destruct (IH d held Hown Hheld) as (d' & Hrun & Hcount).
      exists d'. split; [exact Hrun |].
      destruct (Spec.insertBatch held rest). exact Hcount.
    + apply select_id_by_hash_none in S. rewrite Hheld, S.
      destruct (insert_post d _ _ _ _ _ _ _ _) as [d1 | e] eqn:E.
      * apply insert_post_ok in E.
        destruct E as (_ & r & Hp & _ & _ & _ & Hb & _ & _ & Hh & _).
        destruct (IH d1 (h :: held)) as (d' & Hrun & Hcount).
        -- intros q Hq. rewrite Hp in Hq. apply in_app_iff in Hq.
           destruct Hq as [Hq | [<- | []]]; [now apply Hown | exact Hb].
        -- intros h'. rewrite Hp, owns_app. cbn [existsb].
           rewrite Hheld, orb_comm. f_equal. cbn [owns existsb].
           unfold hash_is. rewrite Hb, Hh, String.eqb_refl, orb_false_r.
           cbn [andb]. apply String.eqb_sym.
        -- exists d'. split; [exact Hrun |].
           destruct (Spec.insertBatch (h :: held) rest) as [a k].
           cbn [fst] in *. rewrite Hcount.
           unfold count_posts. rewrite Hp, filter_app, length_app.
           cbn [filter]. rewrite Hb, String.eqb_refl. cbn [List.length]. lia.
      * exfalso. unfold insert_post in E.
        rewrite (existsb_hash_own botId _ _ Hown) in E.
        unfold owns in S, E. rewrite S in E. discriminate.
Qed.

(** A batch of ten of which three repeat stored posts: seven rows are
    inserted, three items skipped. *)
Example storePosts_seven_of_ten :
  let r := PostManager.storePosts Scenario.three "bot-a" Scenario.batch10 200 in
  fst r = Ok tt /\
  List.length (posts (snd r)) = 10%nat /\
  PostManager.total (PostManager.getPostCount (snd r) "bot-a")
  = PostManager.total (PostManager.getPostCount Scenario.three "bot-a") + 7 /\
  map Posts.content (skipn 3 (posts (snd r)))
  = [ "New one."; "New two."; "New three."; "New four."; "New five.";
      "New six."; "New seven." ] /\
  Spec.insertBatch (fingerprints "bot-a" (posts Scenario.three)) Scenario.batch10
  = (7, 3).
Proof. vm_compute. repeat split. Qed.

(** C4. bot-b holds "Hello there."; bot-a stores a batch of two new
    sentences of which the second is that one.  It is no duplicate for bot-a,
    the lookup by bot finds nothing, and the INSERT then fails on the column
    constraint [content_hash TEXT UNIQUE]: [storePosts] throws, the
    transaction is rolled back, and the first sentence of the batch is lost
    with it. *)
Theorem storePosts_aborts_on_other_bot :
  owns "bot-a" (PostManager.generateContentHash "Hello there.")
       (posts Scenario.shared) = false /\
  owns "bot-a" (PostManager.generateContentHash "A new thought.")
       (posts Scenario.shared) = false /\
  PostManager.storePosts Scenario.shared "bot-a" Scenario.batch2 200
  = (Throw "SQLITE_CONSTRAINT: UNIQUE constraint failed: posts.content_hash",
     Scenario.shared) /\
  PostManager.total
    (PostManager.getPostCount
       (snd (PostManager.storePosts Scenario.shared "bot-a" Scenario.batch2 200))
       "bot-a") = 0.
Proof. vm_compute. repeat split. Qed.

End StoreFacts.

Module BotFacts.
Import Bot.
Import Notions.

Lemma generateAllPosts_ok :
  exists ps, Generator.generateAllPosts = Ok ps /\ List.length ps = 2016%nat.
Proof.
  assert (H : match Generator.generateAllPosts with
              | Ok ps => List.length ps = 2016%nat
              | Throw _ => False
              end) by (vm_compute; reflexivity).
  destruct Generator.generateAllPosts as [ps | e]; [now exists ps | destruct H].
Qed.

Lemma numbered_cons (attempt : Z) (n : nat) :
  attempt :: map (fun i => attempt + 1 + Z.of_nat i) (seq 0 n)
  = map (fun i => attempt + Z.of_nat i) (seq 0 (S n)).
Proof.
  cbn [seq map]. rewrite Z.add_0_r. f_equal.
  rewrite <- seq_shift, map_map. apply map_ext. intros i. lia.
Qed.

Section Cycle.
Variable env : Process.env.
Variable postTweet : nat -> string -> Z * outcome string.

Lemma attempts_fail_step (n : nat) (attempt elapsed : Z) (b content e : string)
    (w : world) :
  Process.BOT_NAME env = Some b ->
  postTweet (calls w) content = (elapsed, Throw e) ->
  attempts env postTweet (S n) attempt content w
  = if Js.strict_eq (Js.Num attempt) (maxRetries env)
    then (Ok (mkPostResult false None (Some e)),
          failed_once b content e elapsed attempt w)
    else attempts env postTweet n (attempt + 1) content
           (sleep (retryDelay env) (failed_once b content e elapsed attempt w)).
Proof.
  intros Hb Hp. cbn [attempts]. unfold tryPost. rewrite Hp.
  cbn [emit db clock calls trace]. rewrite Hb. reflexivity.
Qed.

(** When every call of [postTweet] throws, the loop makes [n] calls, writes
    [n] failure rows numbered from [attempt], sleeps [retryDelay] between
    two calls and after none, and returns a failure. *)
Lemma attempts_all_fail (b content : string) :
  Process.BOT_NAME env = Some b ->
  (forall k c, exists e, snd (postTweet k c) = Throw e) ->
  forall (n : nat) (attempt : Z) (w : world),
    (n <> O -> maxRetries env = Js.Num (attempt + Z.of_nat n - 1)) ->
    exists res w' rows evs,
      attempts env postTweet n attempt content w = (Ok res, w') /\
      success res = false /\
      calls w' = (calls w + n)%nat /\
      Db.posts (db w') = Db.posts (db w) /\
      Db.bot_stats (db w') = Db.bot_stats (db w) /\
      Db.post_logs (db w') = (Db.post_logs (db w) ++ rows)%list /\
      map PostLogs.attempt_number rows
      = map (fun i => attempt + Z.of_nat i) (seq 0 n) /\
      Forall (fun r => PostLogs.success r = false /\ PostLogs.bot_id r = b) rows /\
      trace w' = (trace w ++ evs)%list /\
      sleeps evs = repeat (retryDelay env) (n - 1) /\
      tweeted evs = repeat content n /\
      Forall quiet evs.
Proof.
  intros Hb Hfail. induction n as [| n IH]; intros attempt w Hmax.
  - exists (mkPostResult false None (Some "Max retries exceeded")), w, [], [].
    cbn [attempts]. rewrite !app_nil_r, Nat.add_0_r. repeat split; constructor.
  - destruct (Hfail (calls w) content) as [e He].
    destruct (postTweet (calls w) content) as [elapsed r] eqn:Hp.
    simpl in He. subst r.
    rewrite (attempts_fail_step n attempt elapsed b content e w Hb Hp).
    rewrite (Hmax (Nat.neq_succ_0 n)). cbn [Js.strict_eq].
    destruct n as [| n'].
    + replace (attempt + Z.of_nat 1 - 1) with attempt by lia.
      rewrite Z.eqb_refl.
      eexists _, _, [_], [_]. split; [reflexivity |].
      cbn. rewrite Nat.add_1_r, Z.add_0_r.
      repeat split; repeat constructor.
    + assert (Hne : (attempt =? attempt + Z.of_nat (S (S n')) - 1) = false)
        by (apply Z.eqb_neq; lia).
      rewrite Hne.
      destruct (IH (attempt + 1)
                  (sleep (retryDelay env)
                     (failed_once b content e elapsed attempt w)))
        as (res & w' & rows & evs & Hrun & Hres & Hcalls & Hposts & Hstats
            & Hlogs & Hnum & Hrows & Htrace & Hsleeps & Htweets & Hquiet).
      { intros _. rewrite (Hmax (Nat.neq_succ_0 _)). f_equal. lia. }
      exists res, w',
        (PostLogs.mk (Db.post_logs_seq (db w) + 1) b None attempt false
                     None (Some e) None ((clock w + elapsed) / 1000) :: rows),
        (Tweeted content (Throw e) :: Slept (retryDelay env) :: evs).
      split; [exact Hrun |]. split; [exact Hres |].
      cbn in Hcalls, Hposts, Hstats, Hlogs, Htrace.
      split; [rewrite Hcalls; lia |].
      split; [exact Hposts |]. split; [exact Hstats |].
      split; [rewrite Hlogs, <- app_assoc; reflexivity |].
      split; [cbn [map]; rewrite Hnum; apply numbered_cons |].
      split; [constructor; [now split | exact Hrows] |].
      split; [rewrite Htrace, <- !app_assoc; reflexivity |].
      split; [unfold sleeps in *; cbn [flat_map app]; rewrite Hsleeps; cbn;
              now rewrite Nat.sub_0_r |].
      split; [unfold tweeted in *; cbn [flat_map app]; now rewrite Htweets |].
      repeat constructor. exact Hquiet.
Qed.

(** [generatePosts] leaves one replenishment in the trace, only appends
    unused rows of the bot, and leaves the attempt log as it was. *)
Lemma generatePosts_effect (w : world) :
  exists extra,
    trace (snd (generatePosts env w)) = (trace w ++ [Replenished])%list /\
    Db.posts (db (snd (generatePosts env w))) = (Db.posts (db w) ++ extra)%list /\
    Forall (fun r => Posts.bot_id r = PostManager.botId env /\
                     Posts.used r = false) extra /\
    Db.post_logs (db (snd (generatePosts env w))) = Db.post_logs (db w).
Proof.
  unfold generatePosts.
  destruct Generator.generateAllPosts as [ps | e];
    [| exists []; rewrite app_nil_r; repeat split; constructor].
  unfold PostManager.storePosts. cbn [emit db].
  destruct (PostManager.storeEach _ _ ps (db w)) as [d' | e] eqn:E;
    [| exists []; cbn; rewrite app_nil_r; repeat split; constructor].
  destruct (StoreFacts.storeEach_appends _ _ _ _ _ E)
    as (extra & Hp & Hall & _ & Hl & _).
  exists extra. cbn. repeat split; try assumption.
  eapply Forall_impl; [| exact Hall]. cbn. tauto.
Qed.

(** In a table that holds rows of this bot only, [generatePosts] succeeds
    and adds the length of the generated batch, 2016, to the statistics. *)
Lemma generatePosts_own (w : world) :
  (forall r, In r (Db.posts (db w)) -> Posts.bot_id r = PostManager.botId env) ->
  fst (generatePosts env w) = Ok tt /\
  Db.bot_stats (db (snd (generatePosts env w)))
  = map (Db.replenished 2016 (PostManager.botId env) (now w))
        (Db.bot_stats (db w)).
Proof.
  intros Hown. unfold generatePosts.
  destruct generateAllPosts_ok as (ps & -> & Hlen).
  unfold PostManager.storePosts. cbn [emit db].
  destruct (StoreFacts.storeEach_own_ok (PostManager.botId env)
              (now (emit w Replenished)) ps (db w) Hown) as [d' E].
  rewrite E. destruct (StoreFacts.storeEach_appends _ _ _ _ _ E)
    as (extra & _ & _ & Hs & _).
  cbn. rewrite Hlen, Hs. split; reflexivity.
Qed.

(** The post-cycle check replenishes exactly when the remaining count is
    at most the threshold. *)
Lemma checkAndGeneratePosts_effect (w : world) :
  let remaining :=
    PostManager.remaining (PostManager.getPostCount (db w) (PostManager.botId env)) in
  exists extra,
    trace (checkAndGeneratePosts env w)
    = (trace w ++ if Js.le (Js.Num remaining) (threshold env)
                  then [Replenished] else [])%list /\
    Db.posts (db (checkAndGeneratePosts env w)) = (Db.posts (db w) ++ extra)%list /\
    Forall (fun r => Posts.bot_id r = PostManager.botId env /\
                     Posts.used r = false) extra /\
    Db.post_logs (db (checkAndGeneratePosts env w)) = Db.post_logs (db w).
Proof.
  cbv zeta. unfold checkAndGeneratePosts.
  destruct (Js.le _ (threshold env)).
  - apply generatePosts_effect.
  - exists []. rewrite !app_nil_r. repeat split. constructor.
Qed.

Lemma executePost_published (w : world) (b ext : string) (elapsed : Z)
    (post : PostManager.Post) (n : nat) :
  Process.BOT_NAME env = Some b ->
  PostManager.getNextPost (db w) (PostManager.botId env) = Some post ->
  postTweet (calls w) (PostManager.content post) = (elapsed, Ok ext) ->
  iterations (maxRetries env) = S n ->
  executePost env postTweet w
  = (Ok tt, checkAndGeneratePosts env (published env b ext elapsed post w)).
Proof.
  intros Hb Hnext Hp Hn. unfold executePost, postWithRetry.
  rewrite Hnext, Hn. cbn [attempts]. unfold tryPost. rewrite Hp.
  cbn [emit db clock calls trace]. rewrite Hb.
  unfold published.
  cbv beta iota zeta delta
    [Db.insert_post_log with_db emit now db clock calls trace success tweet_id
     PostManager.markPostAsUsed].
  rewrite Z.add_simpl_l, <- app_assoc. reflexivity.
Qed.

(** After a publication the remaining count is one less than before. *)
Lemma remaining_published (w : world) (b ext : string) (elapsed : Z)
    (post : PostManager.Post) :
  NoDup (map Posts.id (Db.posts (db w))) ->
  PostManager.getNextPost (db w) (PostManager.botId env) = Some post ->
  PostManager.remaining
    (PostManager.getPostCount (db (published env b ext elapsed post w))
                              (PostManager.botId env))
  = PostManager.remaining
      (PostManager.getPostCount (db w) (PostManager.botId env)) - 1.
Proof.
  intros Hnd Hnext.
  destruct (StoreFacts.getNextPost_source _ _ _ Hnext)
    as (r & -> & Hin & Hb & Hu & _).
  unfold PostManager.getPostCount, published. cbn [PostManager.remaining db].
  rewrite StoreFacts.count_posts_mark.
  unfold Db.count_used. rewrite StoreFacts.update_post_used_posts.
  cbn [Db.with_post_logs Db.posts PostManager.toPost PostManager.id].
  rewrite (StoreFacts.count_used_mark_one _ _ _ _ r Hnd Hin eq_refl Hb Hu).
  unfold Db.count_posts, Db.with_post_logs. cbn [Db.posts]. lia.
Qed.

End Cycle.

Lemma sleeps_app (a b : list event) : sleeps (a ++ b) = (sleeps a ++ sleeps b)%list.
Proof. apply flat_map_app. Qed.

Lemma tweeted_app (a b : list event) :
  tweeted (a ++ b) = (tweeted a ++ tweeted b)%list.
Proof. apply flat_map_app. Qed.

Lemma iterations_bound (env : Process.env) :
  iterations (maxRetries env) <> O ->
  maxRetries env = Js.Num (1 + Z.of_nat (iterations (maxRetries env)) - 1).
Proof.
  destruct (maxRetries env) as [m |]; cbn [iterations]; intros H;
    [| now destruct H].
  f_equal. lia.
Qed.

Lemma numbered_from_one (n : nat) :
  map (fun i => 1 + Z.of_nat i) (seq 0 n) = map Z.of_nat (seq 1 n).
Proof.
  rewrite <- seq_shift, map_map. apply map_ext. intros i. lia.
Qed.

(** C6. When every publish attempt fails, [postWithRetry] calls the client
    exactly [maxRetries] times (3 by default), writes exactly that many
    failure rows, numbered 1, 2, ... in their [attempt_number], sleeps the
    same [retryDelay] (5000 ms by default) between two attempts and not after
    the last, and reports failure; [executePost] then never marks the post:
    its row is still stored with [used = false]. *)
Theorem retries_exhausted (env : Process.env)
    (postTweet : nat -> string -> Z * outcome string) (b : string) (w : world) :
  Process.BOT_NAME env = Some b ->
  (forall k c, exists e, snd (postTweet k c) = Throw e) ->
  let n := iterations (maxRetries env) in
  (forall content, exists res w' rows evs,
      postWithRetry env postTweet content w = (Ok res, w') /\
      success res = false /\
      calls w' = (calls w + n)%nat /\
      Db.post_logs (db w') = (Db.post_logs (db w) ++ rows)%list /\
      List.length rows = n /\
      map PostLogs.attempt_number rows = map Z.of_nat (seq 1 n) /\
      Forall (fun r => PostLogs.success r = false /\ PostLogs.bot_id r = b) rows /\
      trace w' = (trace w ++ evs)%list /\
      tweeted evs = repeat content n /\
      sleeps evs = repeat (retryDelay env) (n - 1) /\
      Forall quiet evs /\
      Db.posts (db w') = Db.posts (db w))
  /\
  (forall post,
      PostManager.getNextPost (db w) (PostManager.botId env) = Some post ->
      exists w' extra evs r,
        executePost env postTweet w = (Ok tt, w') /\
        Db.posts (db w') = (Db.posts (db w) ++ extra)%list /\
        In r (Db.posts (db w')) /\ PostManager.toPost r = post /\
        Posts.used r = false /\
        trace w' = (trace w ++ evs)%list /\
        (forall postId, ~ In (MarkedUsed postId) evs) /\
        tweeted evs = repeat (PostManager.content post) n /\
        sleeps evs = repeat (retryDelay env) (n - 1))
  /\ (Process.MAX_RETRIES env = None -> n = 3%nat)
  /\ (Process.RETRY_DELAY_MS env = None -> retryDelay env = Js.Num 5000).
Proof.
  intros Hb Hfail n.
  assert (Hloop : forall content, exists res w' rows evs,
      postWithRetry env postTweet content w = (Ok res, w') /\
      success res = false /\
      calls w' = (calls w + n)%nat /\
      Db.post_logs (db w') = (Db.post_logs (db w) ++ rows)%list /\
      List.length rows = n /\
      map PostLogs.attempt_number rows = map Z.of_nat (seq 1 n) /\
      Forall (fun r => PostLogs.success r = false /\ PostLogs.bot_id r = b) rows /\
      trace w' = (trace w ++ evs)%list /\
      tweeted evs = repeat content n /\
      sleeps evs = repeat (retryDelay env) (n - 1) /\
      Forall quiet evs /\
      Db.posts (db w') = Db.posts (db w)).
  { intros content. unfold postWithRetry. fold n.
    destruct (attempts_all_fail env postTweet b content Hb Hfail n 1 w
                (iterations_bound env))
      as (res & w' & rows & evs & Hrun & Hres & Hcalls & Hposts & _ & Hlogs
          & Hnum & Hrows & Htrace & Hsleeps & Htweets & Hquiet).
    exists res, w', rows, evs. rewrite numbered_from_one in Hnum.
    repeat split; try assumption.
    rewrite <- (length_map PostLogs.attempt_number), Hnum, length_map.
    apply length_seq. }
  split; [exact Hloop |]. split; [| split].
  - intros post Hnext.
    destruct (Hloop (PostManager.content post))
      as (res & w1 & rows & evs & Hrun & Hres & _ & _ & _ & _ & _ & Htrace
          & Htweets & Hsleeps & Hquiet & Hposts).
    destruct (checkAndGeneratePosts_effect env w1)
      as (extra & Hctrace & Hcposts & _ & _).
    destruct (StoreFacts.getNextPost_source _ _ _ Hnext)
      as (r & Hr & Hin & _ & Hu & _).
    exists (checkAndGeneratePosts env w1), extra.
    eexists. exists r.
    split; [unfold executePost; now rewrite Hnext, Hrun, Hres |].
    split; [now rewrite Hcposts, Hposts |].
    split; [rewrite Hcposts, Hposts; apply in_app_iff; now left |].
    split; [now symmetry |]. split; [exact Hu |].
    split; [rewrite Hctrace, Htrace, <- app_assoc; reflexivity |].
    split; [| split].
    + intros postId Hin'. apply in_app_iff in Hin'. destruct Hin' as [Hin' | Hin'].
      * rewrite Forall_forall in Hquiet. exact (Hquiet _ Hin').
      * destruct (Js.le _ _); [destruct Hin' as [Hd | []]; discriminate Hd
                              | destruct Hin'].
    + rewrite tweeted_app, Htweets. destruct (Js.le _ _); apply app_nil_r.
    + rewrite sleeps_app, Hsleeps. destruct (Js.le _ _); apply app_nil_r.
  - intros Hdef. unfold n, maxRetries. now rewrite Hdef.
  - intros Hdef. unfold retryDelay. now rewrite Hdef.
Qed.

(** Why the bot has to be named: [postWithRetry] writes its rows with
    [process.env.BOT_NAME] as it is, and without a name the first row is
    refused, also when the tweet went out. *)
Lemma postWithRetry_unnamed (env : Process.env)
    (postTweet : nat -> string -> Z * outcome string) (content : string)
    (w : world) :
  Process.BOT_NAME env = None ->
  iterations (maxRetries env) <> O ->
  exists w',
    postWithRetry env postTweet content w
    = (Throw "SQLITE_CONSTRAINT: NOT NULL constraint failed: post_logs.bot_id", w')
    /\ calls w' = S (calls w)
    /\ Db.post_logs (db w') = Db.post_logs (db w).
Proof.
  intros Hb Hn. unfold postWithRetry.
  destruct (iterations (maxRetries env)) as [| n]; [now destruct Hn |].
  cbn [attempts]. unfold tryPost.
  destruct (postTweet (calls w) content) as [elapsed [tweetId | e]];
    cbn [emit db clock calls trace]; rewrite Hb; cbn [Db.insert_post_log];
    eexists; repeat split.
Qed.

(** *** One cycle that publishes *)

(** The events of a cycle whose first attempt succeeds, and when that cycle
    replenishes. *)
Lemma publication_cycle (env : Process.env)
    (postTweet : nat -> string -> Z * outcome string) (w : world)
    (b ext : string) (elapsed : Z) (post : PostManager.Post) (n : nat) :
  NoDup (map Posts.id (Db.posts (db w))) ->
  Process.BOT_NAME env = Some b ->
  PostManager.getNextPost (db w) (PostManager.botId env) = Some post ->
  postTweet (calls w) (PostManager.content post) = (elapsed, Ok ext) ->
  iterations (maxRetries env) = S n ->
  let before :=
    PostManager.remaining (PostManager.getPostCount (db w) (PostManager.botId env)) in
  exists w' evs,
    executePost env postTweet w = (Ok tt, w') /\
    trace w' = (trace w ++ evs)%list /\
    evs = ([Tweeted (PostManager.content post) (Ok ext);
            MarkedUsed (PostManager.id post)]
           ++ if Js.le (Js.Num (before - 1)) (threshold env)
              then [Replenished] else [])%list /\
    (In Replenished evs <-> Js.le (Js.Num (before - 1)) (threshold env) = true).
Proof.
  intros Hnd Hb Hnext Hp Hn before.
  rewrite (executePost_published env postTweet w b ext elapsed post n Hb Hnext Hp Hn).
  destruct (checkAndGeneratePosts_effect env (published env b ext elapsed post w))
    as (extra & Htrace & _).
  rewrite (remaining_published env w b ext elapsed post Hnd Hnext) in Htrace.
  fold before in Htrace.
  eexists. eexists. split; [reflexivity |].
  split; [rewrite Htrace; cbn [published trace]; rewrite <- app_assoc; reflexivity |].
  split; [reflexivity |].
  destruct (Js.le _ (threshold env)); cbn.
  - split; [reflexivity | intros _; right; right; now left].
  - split; [| discriminate].
    intros [H | [H | []]]; discriminate H.
Qed.

Lemma NoDup_map_injective {A B : Type} (f : A -> B) (l : list A) :
  (forall x y, f x = f y -> x = y) -> NoDup l -> NoDup (map f l).
Proof.
  intros Hinj. induction 1 as [| x l Hx _ IH]; simpl; constructor; [| exact IH].
  intros Hin. apply in_map_iff in Hin. destruct Hin as (y & Hy & Hin).
  apply Hinj in Hy. now subst y.
Qed.

Lemma threshold_default (env : Process.env) :
  Process.REPLENISHMENT_THRESHOLD env = None -> threshold env = Js.Num 50.
Proof. intros H. unfold threshold. now rewrite H. Qed.

(** C3, as the code has it. The post-cycle check replenishes exactly when
    the remaining count it reads is at most the threshold (50 by default);
    it reads the count after the post has been marked used, so a cycle that
    publishes replenishes exactly when the count before the cycle, less one,
    is at most the threshold: with the default, from 51 remaining posts
    downwards, and not from 52 upwards. *)
Theorem replenish_after_publication (env : Process.env)
    (postTweet : nat -> string -> Z * outcome string) (w : world)
    (b ext : string) (elapsed : Z) (post : PostManager.Post) (n : nat) :
  NoDup (map Posts.id (Db.posts (db w))) ->
  Process.BOT_NAME env = Some b ->
  PostManager.getNextPost (db w) (PostManager.botId env) = Some post ->
  postTweet (calls w) (PostManager.content post) = (elapsed, Ok ext) ->
  iterations (maxRetries env) = S n ->
  let remaining (v : world) :=
    PostManager.remaining (PostManager.getPostCount (db v) (PostManager.botId env)) in
  (forall v, trace (checkAndGeneratePosts env v)
             = (trace v ++ if Js.le (Js.Num (remaining v)) (threshold env)
                           then [Replenished] else [])%list)
  /\
  (exists w' evs,
      executePost env postTweet w = (Ok tt, w') /\
      trace w' = (trace w ++ evs)%list /\
      (In Replenished evs <->
       Js.le (Js.Num (remaining w - 1)) (threshold env) = true) /\
      (Process.REPLENISHMENT_THRESHOLD env = None ->
       (In Replenished evs <-> remaining w <= 51)))
  /\ (Process.REPLENISHMENT_THRESHOLD env = None -> threshold env = Js.Num 50).
Proof.
  intros Hnd Hb Hnext Hp Hn remaining.
  split; [| split; [| apply threshold_default]].
  - intros v. destruct (checkAndGeneratePosts_effect env v) as (extra & H & _).
    exact H.
  - destruct (publication_cycle env postTweet w b ext elapsed post n
                Hnd Hb Hnext Hp Hn) as (w' & evs & Hrun & Htrace & _ & Hiff).
    exists w', evs. fold (remaining w) in Hiff.
    split; [exact Hrun |]. split; [exact Htrace |]. split; [exact Hiff |].
    intros Hdef. rewrite Hiff, (threshold_default env Hdef). cbn [Js.le].
    rewrite Z.leb_le. lia.
Qed.

Lemma replenish_after_publication_witness :
  NoDup (map Posts.id (Db.posts (db (Scenario.start Scenario.one)))) /\
  PostManager.getNextPost Scenario.one "bot-a"
  = Some (PostManager.toPost (Scenario.stored 1 "Test post one." "bot-a" 100)) /\
  threshold Scenario.env = Js.Num 50.
Proof.
  assert (Hnd : NoDup (map Posts.id (Db.posts (db (Scenario.start Scenario.one)))))
    by (repeat constructor; intros []).
  assert (Hnext : PostManager.getNextPost (db (Scenario.start Scenario.one))
                    (PostManager.botId Scenario.env)
                  = Some (PostManager.toPost
                            (Scenario.stored 1 "Test post one." "bot-a" 100)))
    by reflexivity.
  split; [exact Hnd | split; [exact Hnext |]].
  exact (proj2 (proj2
           (replenish_after_publication Scenario.env Scenario.succeed
              (Scenario.start Scenario.one) "bot-a" "ext-123" 120
              (PostManager.toPost (Scenario.stored 1 "Test post one." "bot-a" 100))
              2 Hnd eq_refl Hnext eq_refl eq_refl)) eq_refl).
Defined.

(** C3, as the specification words it, fails: a bot with 51 remaining
    posts whose cycle publishes is left with 50, which is not above the
    threshold of 50, and the cycle replenishes. *)
Lemma replenished_from_fifty_one :
  let w := Scenario.start (Scenario.many 51) in
  PostManager.remaining (PostManager.getPostCount (db w) "bot-a") = 51 /\
  threshold Scenario.env = Js.Num 50 /\
  fst (executePost Scenario.env Scenario.succeed w) = Ok tt /\
  In Replenished (trace (snd (executePost Scenario.env Scenario.succeed w))).
Proof.
  cbv zeta.
  assert (Hnext : PostManager.getNextPost
                    (db (Scenario.start (Scenario.many 51)))
                    (PostManager.botId Scenario.env)
                  = Some (PostManager.toPost
                            (Scenario.stored 1 "Post number 01" "bot-a" 100)))
    by (vm_compute; reflexivity).
  assert (Hrem : PostManager.remaining
                   (PostManager.getPostCount
                      (db (Scenario.start (Scenario.many 51))) "bot-a") = 51)
    by (vm_compute; reflexivity).
  assert (Hnd : NoDup (map Posts.id
                         (Db.posts (db (Scenario.start (Scenario.many 51)))))).
  { cbn [Scenario.start Scenario.many db Db.posts]. rewrite map_map.
    cbn [Scenario.stored Posts.id].
    apply NoDup_map_injective; [intros x y; apply Nat2Z.inj | apply seq_NoDup]. }
  destruct (publication_cycle Scenario.env Scenario.succeed
              (Scenario.start (Scenario.many 51)) "bot-a" "ext-123" 120 _ 2
              Hnd eq_refl Hnext eq_refl eq_refl)
    as (w' & evs & Hrun & Htrace & _ & Hiff).
  split; [exact Hrem |]. split; [reflexivity |].
  rewrite Hrun. split; [reflexivity |]. cbn [snd]. rewrite Htrace.
  apply in_app_iff. right. apply Hiff.
  change (PostManager.botId Scenario.env) with "bot-a". rewrite Hrem.
  reflexivity.
Qed.

(** *** One cycle on a store with a single post *)

Lemma find_map_same {A : Type} (p : A -> bool) (f : A -> A) (l : list A) :
  (forall x, p (f x) = p x) -> find p (map f l) = option_map f (find p l).
Proof.
  intros H. induction l as [| x l IH]; [reflexivity |]. simpl.
  rewrite H. destruct (p x); [reflexivity | exact IH].
Qed.

Lemma single_post_cycle (env : Process.env)
    (postTweet : nat -> string -> Z * outcome string) (w : world)
    (b ext : string) (elapsed : Z) (r : Posts.row) (n : nat) :
  Process.BOT_NAME env = Some b ->
  Db.posts (db w) = [r] ->
  Posts.bot_id r = PostManager.botId env ->
  Posts.used r = false ->
  postTweet (calls w) (Posts.content r) = (elapsed, Ok ext) ->
  iterations (maxRetries env) = S n ->
  Js.le (Js.Num 0) (threshold env) = true ->
  let t := (clock w + elapsed) / 1000 in
  let botId := PostManager.botId env in
  exists w' extra,
    executePost env postTweet w = (Ok tt, w') /\
    Db.posts (db w') = Db.set_used t r :: extra /\
    Db.post_logs (db w')
    = (Db.post_logs (db w)
       ++ [PostLogs.mk (Db.post_logs_seq (db w) + 1) b None 1 true
                       (Some ext) None (Some elapsed) t])%list /\
    Db.bot_stats (db w')
    = map (fun s => Db.replenished 2016 botId t (Db.bump_used botId t s))
          (Db.bot_stats (db w)) /\
    trace w'
    = (trace w ++ [Tweeted (Posts.content r) (Ok ext);
                   MarkedUsed (Posts.id r); Replenished])%list.
Proof.
  intros Hb Hposts Hown Hu Hp Hn Hth t botId.
  assert (Hun : Db.unused_of botId r = true)
    by (apply StoreFacts.unused_of_iff; now split).
  assert (Hnext : PostManager.getNextPost (db w) botId
                  = Some (PostManager.toPost r)).
  { unfold PostManager.getNextPost, Db.select_next_unused.
    rewrite Hposts. cbn [filter]. rewrite Hun. reflexivity. }
  rewrite (executePost_published env postTweet w b ext elapsed
             (PostManager.toPost r) n Hb Hnext Hp Hn).
  set (P := published env b ext elapsed (PostManager.toPost r) w).
  assert (Htgt : Db.targets (Posts.id r) botId r = true)
    by (unfold Db.targets; now rewrite Z.eqb_refl, Hown, String.eqb_refl).
  assert (HPposts : Db.posts (db P) = [Db.set_used t r]).
  { unfold P, published. cbn [db]. unfold Db.update_post_used.
    cbn [Db.with_bot_stats Db.with_posts Db.with_post_logs Db.posts].
    rewrite Hposts. cbn [map PostManager.toPost PostManager.id].
    fold botId. now rewrite Htgt. }
  assert (HPstats : Db.bot_stats (db P)
                    = map (Db.bump_used botId t) (Db.bot_stats (db w))).
  { unfold P, published. cbn [db]. unfold Db.update_post_used.
    cbn [Db.with_bot_stats Db.with_posts Db.with_post_logs Db.posts
         Db.bot_stats].
    rewrite Hposts. cbn [filter PostManager.toPost PostManager.id].
    fold botId. rewrite Htgt. cbn [Db.fire_used]. rewrite Hu, Hown.
    reflexivity. }
  assert (HPown : forall q, In q (Db.posts (db P)) -> Posts.bot_id q = botId).
  { intros q Hq. rewrite HPposts in Hq. destruct Hq as [<- | []]. exact Hown. }
  assert (HPrem : PostManager.remaining (PostManager.getPostCount (db P) botId) = 0).
  { unfold PostManager.getPostCount, Db.count_posts, Db.count_used.
    cbn [PostManager.remaining]. rewrite HPposts.
    cbn [filter Db.set_used Posts.bot_id Posts.used].
    now rewrite Hown, String.eqb_refl. }
  unfold checkAndGeneratePosts. fold botId. rewrite HPrem, Hth.
  destruct (generatePosts_effect env P) as (extra & Htrace & Hnew & _ & Hlogs).
  destruct (generatePosts_own env P HPown) as [_ Hstats].
  exists (snd (generatePosts env P)), extra.
  split; [reflexivity |].
  split; [now rewrite Hnew, HPposts |].
  split; [rewrite Hlogs; reflexivity |].
  split; [rewrite Hstats, HPstats, map_map; reflexivity |].
  rewrite Htrace. unfold P, published. cbn [trace PostManager.toPost
    PostManager.content PostManager.id].
  now rewrite <- app_assoc.
Qed.

(** C1, as the code has it. On a store whose only post is an unused post of
    the bot, a cycle whose first publish attempt returns [ext] marks that
    post used with [used_at] set, appends one attempt row with
    [success = true], [tweet_id = ext] and [attempt_number = 1], and the
    trigger moves the bot's statistics row by one used post in the same
    statement.  The cycle does not end there: 0 posts remain, which is at
    most the threshold, so the post-cycle check replenishes before the cycle
    returns and adds the 2016 generated posts to [total_posts] and
    [remaining_posts]: the row ends with [used_posts] one higher and
    [remaining_posts] 2015 higher than before. *)
Theorem single_post_published (env : Process.env)
    (postTweet : nat -> string -> Z * outcome string) (w : world)
    (b ext : string) (elapsed : Z) (r : Posts.row) (n : nat) :
  Process.BOT_NAME env = Some b ->
  Db.posts (db w) = [r] ->
  Posts.bot_id r = PostManager.botId env ->
  Posts.used r = false ->
  postTweet (calls w) (Posts.content r) = (elapsed, Ok ext) ->
  iterations (maxRetries env) = S n ->
  Js.le (Js.Num 0) (threshold env) = true ->
  let t := (clock w + elapsed) / 1000 in
  let botId := PostManager.botId env in
  exists w' extra,
    executePost env postTweet w = (Ok tt, w') /\
    Db.posts (db w') = Db.set_used t r :: extra /\
    Posts.used (Db.set_used t r) = true /\
    Posts.used_at (Db.set_used t r) = Some t /\
    Db.post_logs (db w')
    = (Db.post_logs (db w)
       ++ [PostLogs.mk (Db.post_logs_seq (db w) + 1) b None 1 true
                       (Some ext) None (Some elapsed) t])%list /\
    Db.bot_stats (PostManager.markPostAsUsed (db w) botId (Posts.id r) (Some ext) t)
    = map (Db.bump_used botId t) (Db.bot_stats (db w)) /\
    (forall s, PostManager.getBotStats (db w) botId = Some s ->
       exists s',
         PostManager.getBotStats (db w') botId = Some s' /\
         BotStats.used_posts s' = BotStats.used_posts s + 1 /\
         BotStats.remaining_posts s' = BotStats.remaining_posts s - 1 + 2016 /\
         BotStats.total_posts s' = BotStats.total_posts s + 2016) /\
    trace w'
    = (trace w ++ [Tweeted (Posts.content r) (Ok ext);
                   MarkedUsed (Posts.id r); Replenished])%list.
Proof.
  intros Hb Hposts Hown Hu Hp Hn Hth t botId.
  destruct (single_post_cycle env postTweet w b ext elapsed r n
              Hb Hposts Hown Hu Hp Hn Hth)
    as (w' & extra & Hrun & Hnew & Hlogs & Hstats & Htrace).
  fold t botId in Hnew, Hlogs, Hstats.
  exists w', extra.
  split; [exact Hrun |]. split; [exact Hnew |].
  split; [reflexivity |]. split; [reflexivity |]. split; [exact Hlogs |].
  split; [| split; [| exact Htrace]].
  - unfold PostManager.markPostAsUsed, Db.update_post_used.
    cbn [Db.with_bot_stats Db.bot_stats]. rewrite Hposts. cbn [filter].
    unfold Db.targets. rewrite Z.eqb_refl, Hown. fold botId.
    rewrite String.eqb_refl. cbn [andb Db.fire_used]. rewrite Hu, Hown.
    reflexivity.
  - intros s Hs. unfold PostManager.getBotStats, Db.select_stats in *.
    rewrite Hstats, find_map_same.
    + rewrite Hs. cbn [option_map]. eexists. split; [reflexivity |].
      apply find_some in Hs. destruct Hs as [_ Hs].
      unfold Db.replenished, Db.bump_used. rewrite Hs.
      cbn [BotStats.bot_id]. rewrite Hs.
      cbn [BotStats.used_posts BotStats.remaining_posts BotStats.total_posts].
      repeat split.
    + intros x. unfold Db.replenished, Db.bump_used.
      destruct (String.eqb (BotStats.bot_id x) botId) eqn:E;
        cbn [BotStats.bot_id]; rewrite E; cbn [BotStats.bot_id]; now rewrite ?E.
Qed.

Lemma single_post_published_witness :
  Db.posts (db (Scenario.start Scenario.one))
  = [Scenario.stored 1 "Test post one." "bot-a" 100] /\
  Js.le (Js.Num 0) (threshold Scenario.env) = true /\
  exists w' extra,
    executePost Scenario.env Scenario.succeed (Scenario.start Scenario.one)
    = (Ok tt, w') /\
    Db.posts (db w')
    = Db.set_used 1700000000
        (Scenario.stored 1 "Test post one." "bot-a" 100) :: extra.
Proof.
  split; [reflexivity | split; [reflexivity |]].
  destruct (single_post_published Scenario.env Scenario.succeed
              (Scenario.start Scenario.one) "bot-a" "ext-123" 120
              (Scenario.stored 1 "Test post one." "bot-a" 100) 2
              eq_refl eq_refl eq_refl eq_refl eq_refl eq_refl eq_refl)
    as (w' & extra & Hrun & Hposts & _).
  exists w', extra. split; [exact Hrun | exact Hposts].
Defined.

(** C1, as the specification words it, fails: in the scenario of the
    specification (bot-a, one unused post, first attempt returns ext-123)
    the statistics row shows 2016 remaining posts at the end of the cycle,
    not 0, and 2017 posts in total. *)
Lemma single_post_remaining_not_zero :
  let w' := snd (executePost Scenario.env Scenario.succeed
                   (Scenario.start Scenario.one)) in
  map BotStats.used_posts (Db.bot_stats (db w')) = [1] /\
  map BotStats.remaining_posts (Db.bot_stats (db w')) = [2016] /\
  map BotStats.total_posts (Db.bot_stats (db w')) = [2017] /\
  map BotStats.remaining_posts (Db.bot_stats (db w')) <> [0].
Proof.
  cbv zeta.
  destruct (single_post_cycle Scenario.env Scenario.succeed
              (Scenario.start Scenario.one) "bot-a" "ext-123" 120
              (Scenario.stored 1 "Test post one." "bot-a" 100) 2
              eq_refl eq_refl eq_refl eq_refl eq_refl eq_refl eq_refl)
    as (w' & extra & Hrun & _ & _ & Hstats & _).
  rewrite Hrun. cbn [snd]. rewrite Hstats.
  repeat split; try reflexivity. discriminate.
Qed.

(** *** Replenishing twice *)

(** C10. [generateAllPosts] takes no input, random or other: it is one
    fixed list of 2016 posts, 63 for each of the 32 topics.  So when a
    replenishment has committed, a second one for the same bot, at any later
    time, finds every fingerprint stored, succeeds, inserts no row and leaves
    the posts table as it was; a replenishment that fails is rolled back and
    leaves the database as it was. *)
Theorem replenishment_repeated :
  (exists ps,
      Generator.generateAllPosts = Ok ps /\
      List.length ps = 2016%nat /\
      List.length ps = (List.length Generator.TEMPLATE_TOPICS * 63)%nat /\
      List.length Generator.TEMPLATE_TOPICS = 32%nat)
  /\
  forall (env : Process.env) (w : world),
    match generatePosts env w with
    | (Throw _, w1) => db w1 = db w
    | (Ok _, w1) =>
        forall (clock' : Z) (calls' : nat) (trace' : list event),
          let again :=
            generatePosts env (mkWorld (db w1) clock' calls' trace') in
          fst again = Ok tt /\
          Db.posts (db (snd again)) = Db.posts (db w1) /\
          PostManager.getPostCount (db (snd again)) (PostManager.botId env)
          = PostManager.getPostCount (db w1) (PostManager.botId env)
    end.
Proof.
  destruct generateAllPosts_ok as (ps & Hgen & Hlen).
  split; [exists ps; rewrite Hlen; repeat split; exact Hgen |].
  intros env w. unfold generatePosts. rewrite Hgen.
  unfold PostManager.storePosts. cbn [emit db].
  destruct (PostManager.storeEach _ _ ps (db w)) as [d1 | e] eqn:E;
    [| reflexivity].
  intros clock' calls' trace'. cbv zeta. cbn [db with_db emit].
  pose proof (StoreFacts.storeEach_owns _ _ _ _ _ E) as Hown.
  set (d2 := Db.update_stats_replenished d1 _ _ _).
  rewrite StoreFacts.storeEach_nothing_new by exact Hown.
  cbn. repeat split.
Qed.

Lemma retries_exhausted_witness :
  Process.BOT_NAME Scenario.env = Some "bot-a" /\
  (forall k c, exists e, snd (Scenario.fail k c) = Throw e) /\
  iterations (maxRetries Scenario.env) = 3%nat.
Proof.
  assert (Hb : Process.BOT_NAME Scenario.env = Some "bot-a") by reflexivity.
  assert (Hf : forall k c, exists e, snd (Scenario.fail k c) = Throw e)
    by (intros k c; eexists; reflexivity).
  split; [exact Hb | split; [exact Hf |]].
  exact (proj1 (proj2 (proj2
           (retries_exhausted Scenario.env Scenario.fail "bot-a"
              (Scenario.start Scenario.one) Hb Hf))) eq_refl).
Defined.

End BotFacts.

(* ================================================================== *)
(** * Part III: the rest of the code *)
(* ================================================================== *)

Module ExpansionFacts.
Import Generator.

(** Every key of the catalogue names a topic. *)
Lemma catalogue_topic_known (topic : string) :
  In topic (map fst TEMPLATE_TOPICS) ->
  exists c name, Js.get topic TEMPLATE_TOPICS = Js.Own (String c name).
Proof.
  cbn [TEMPLATE_TOPICS map fst]. intros H.
  repeat (destruct H as [<- | H]; [eexists; eexists; reflexivity |]).
  destruct H.
Qed.

Lemma own_none {A : Type} (key : string) (obj : list (string * A)) :
  ~ In key (map fst obj) -> Js.own key obj = None.
Proof.
  induction obj as [| [k v] rest IH]; [reflexivity |].
  cbn [map fst Js.own]. intros H.
  destruct (String.eqb k key) eqn:E.
  - apply String.eqb_eq in E. destruct H. now left.
  - apply IH. intros Hin. apply H. now right.
Qed.

(** A name of [Object.prototype] is found in every table of the generator,
    as the prototype's member. *)
Lemma prototype_member_found (topic : string) :
  In topic (map fst Js.objectPrototype) ->
  exists length,
    Js.get topic TEMPLATE_TOPICS = Js.Inherited length /\
    getTopicPosts topic = Member length.
Proof.
  cbn [Js.objectPrototype map fst]. intros H.
  repeat (destruct H as [<- | H];
          [eexists; split; vm_compute; reflexivity |]).
  destruct H.
Qed.

(** Whatever its [length], a member of [Object.prototype] yields the
    fallback sentence. *)
Lemma generateVariationOfMember_fallback (length : option nat) (index : nat) :
  generateVariationOfMember length index = REALISTIC.
Proof.
  assert (Hv : createVariations REALISTIC = [REALISTIC])
    by (vm_compute; reflexivity).
  assert (Hs : Js.stripQuotes REALISTIC = REALISTIC)
    by (vm_compute; reflexivity).
  unfold generateVariationOfMember.
  change (Js.or_undef None REALISTIC) with REALISTIC.
  destruct length as [[| n] |]; [reflexivity | |].
  - rewrite Hv. cbn [List.length]. rewrite Nat.mod_1_r. cbn [nth_error].
    change (Js.or_undef (Some REALISTIC) REALISTIC) with REALISTIC. exact Hs.
  - exact Hs.
Qed.

Lemma map_constant {A B : Type} (f : A -> B) (x : B) (l : list A) :
  (forall a, f a = x) -> map f l = repeat x (List.length l).
Proof.
  intros H. induction l as [| a l IH]; [reflexivity |].
  cbn [map List.length repeat]. now rewrite H, IH.
Qed.

(** X1. [generateTopicPosts] reads [TEMPLATE_TOPICS[topic]], which finds the
    members of [Object.prototype] too.  For a key of the catalogue it returns
    exactly [count] posts, all tagged with that topic and the local model.
    For a name such as [toString] or [constructor] it does not throw either:
    it returns [count] posts whose category is that name and whose content is
    the fallback sentence, every one the same.  It throws "Unknown topic:
    ..." only for a name that is neither. *)
Theorem generateTopicPosts_result (topic : string) (count : nat) :
  (In topic (map fst TEMPLATE_TOPICS) ->
   exists posts,
     generateTopicPosts topic count = Ok posts /\
     List.length posts = count /\
     Forall (fun p => Types.category p = Some topic /\
                      Types.model p = "template-bot-local" /\
                      Types.tokens_used p = 50) posts)
  /\
  (In topic (map fst Js.objectPrototype) ->
   generateTopicPosts topic count
   = Ok (repeat (Types.mkPostGenerationResult REALISTIC (Some topic)
                   TOKENS_PER_POST COST_PER_POST MODEL) count))
  /\
  (~ In topic (map fst TEMPLATE_TOPICS) ->
   ~ In topic (map fst Js.objectPrototype) ->
   generateTopicPosts topic count = Throw ("Unknown topic: " ++ topic)).
Proof.
  unfold generateTopicPosts. split; [| split].
  - intros H. destruct (catalogue_topic_known topic H) as (c & name & ->).
    eexists. split; [reflexivity |].
    split; [now rewrite length_map, length_seq |].
    apply Forall_forall. intros p Hp. apply in_map_iff in Hp.
    destruct Hp as (i & <- & _). repeat split.
  - intros H. destruct (prototype_member_found topic H) as (length & -> & ->).
    cbv zeta. f_equal.
    rewrite (map_constant _
               (Types.mkPostGenerationResult REALISTIC (Some topic)
                  TOKENS_PER_POST COST_PER_POST MODEL)).
    + now rewrite length_seq.
    + intros i. cbn [generateVariationOf].
      now rewrite generateVariationOfMember_fallback.
  - intros Hown Hproto. unfold Js.get.
    now rewrite (own_none _ _ Hown), (own_none _ _ Hproto).
Qed.

Lemma generateTopicPosts_result_witness :
  In "toString" (map fst Js.objectPrototype) /\
  generateTopicPosts "toString" 2
  = Ok [ Types.mkPostGenerationResult
           "You have to be realistic about these things." (Some "toString")
           50 (1 # 1000) "template-bot-local";
         Types.mkPostGenerationResult
           "You have to be realistic about these things." (Some "toString")
           50 (1 # 1000) "template-bot-local" ].
Proof.
  assert (H : In "toString" (map fst Js.objectPrototype))
    by (vm_compute; tauto).
  split; [exact H |].
  exact (proj1 (proj2 (generateTopicPosts_result "toString" 2)) H).
Defined.

Lemma dropLeadingQuote_length (s : string) :
  (String.length (Js.dropLeadingQuote s) <= String.length s)%nat.
Proof.
  destruct s as [| c rest]; simpl; [lia |].
  destruct (Ascii.eqb c Js.dquote); simpl; lia.
Qed.

Lemma dropTrailingQuote_length (s : string) :
  (String.length (Js.dropTrailingQuote s) <= String.length s)%nat.
Proof.
  induction s as [| c rest IH]; [simpl; lia |].
  destruct rest as [| c' rest'].
  - simpl. destruct (Ascii.eqb c Js.dquote); simpl; lia.
  - change (Js.dropTrailingQuote (String c (String c' rest')))
      with (String c (Js.dropTrailingQuote (String c' rest'))).
    cbn [String.length] in *. lia.
Qed.

Lemma stripQuotes_length (s : string) :
  (String.length (Js.stripQuotes s) <= String.length s)%nat.
Proof.
  unfold Js.stripQuotes.
  pose proof (dropTrailingQuote_length (Js.dropLeadingQuote s)).
  pose proof (dropLeadingQuote_length s). lia.
Qed.

(** No variation [createVariations] offers is longer than a tweet. *)
Lemma createVariations_fit (basePost : string) :
  Forall (fun v => (String.length v <= 280)%nat) (createVariations basePost).
Proof.
  unfold createVariations. apply Forall_forall. intros v Hv.
  apply in_map_iff in Hv. destruct Hv as (u & <- & Hu).
  apply filter_In in Hu. destruct Hu as [_ Hu]. apply Nat.leb_le in Hu.
  pose proof (stripQuotes_length u). lia.
Qed.

Lemma or_undef_cases (a : option string) (b : string) :
  Js.or_undef a b = b \/ a = Some (Js.or_undef a b).
Proof.
  destruct a as [[| c s] |]; simpl; auto.
Qed.

(** X2. When no seed sentence of a topic is longer than 280 characters, no
    post generated from them is, whatever the index. *)
Theorem generateVariation_fits (basePosts : list string) (index : nat) :
  Forall (fun s => (String.length s <= 280)%nat) basePosts ->
  (String.length (generateVariation basePosts index) <= 280)%nat.
Proof.
  intros Hall. unfold generateVariation.
  destruct basePosts as [| b0 rest]; [vm_compute; lia |].
  set (seeds := b0 :: rest) in *.
  set (basePost := Js.or_undef (nth_error seeds _) REALISTIC).
  assert (Hbase : (String.length basePost <= 280)%nat).
  { unfold basePost.
    destruct (or_undef_cases (nth_error seeds (index mod List.length seeds))
                REALISTIC) as [-> | H]; [vm_compute; lia |].
    apply nth_error_In in H. rewrite Forall_forall in Hall. now apply Hall. }
  pose proof (stripQuotes_length
                (Js.or_undef
                   (nth_error (createVariations basePost)
                      ((index / List.length seeds)
                       mod List.length (createVariations basePost)))
                   basePost)) as Hstrip.
  destruct (or_undef_cases
              (nth_error (createVariations basePost)
                 ((index / List.length seeds)
                  mod List.length (createVariations basePost)))
              basePost) as [E | E].
  - rewrite E in *. lia.
  - apply nth_error_In in E.
    pose proof (createVariations_fit basePost) as Hfit.
    rewrite Forall_forall in Hfit. specialize (Hfit _ E). lia.
Qed.

Lemma generateVariation_fits_witness :
  (String.length
     (generateVariation ["In battle, stay alive."; "War is a teacher."] 7)
   <= 280)%nat.
Proof.
  apply generateVariation_fits. repeat constructor; vm_compute; lia.
Defined.

(** X3. The filter of [createVariations] does not protect against a seed
    that is itself too long: a seed of more than 280 characters that holds no
    keyword is dropped from the variations and then returned all the same,
    by the [|| basePost] fallback, with only its outer quotes removed. *)
Theorem generateVariation_long_seed (seed : string) (index : nat) :
  (280 < String.length seed)%nat ->
  Forall (fun keyword => Js.includes seed keyword = false) Samples.keywords ->
  generateVariation [seed] index = Js.stripQuotes seed.
Proof.
  intros Hlong Hkeys. unfold generateVariation.
  cbn [List.length]. rewrite Nat.mod_1_r. cbn [nth_error].
  assert (Hne : Js.or_undef (Some seed) REALISTIC = seed)
    by (destruct seed; [simpl in Hlong; lia | reflexivity]).
  rewrite Hne.
  assert (Hnone : createVariations seed = []).
  { unfold createVariations, whenIncludes.
    repeat (let H := fresh in
            inversion Hkeys as [| ? ? H Hkeys']; subst; clear Hkeys;
            rename Hkeys' into Hkeys; rewrite H).
    cbn [app filter]. apply Nat.leb_gt in Hlong.
    assert (Hf : (String.length seed <=? 280)%nat = false)
      by (apply Nat.leb_gt; apply Nat.leb_gt in Hlong; exact Hlong).
    now rewrite Hf. }
  rewrite Hnone. cbn [List.length].
  now destruct ((index / 1) mod 0)%nat.
Qed.

Lemma generateVariation_long_seed_witness :
  (280 < String.length Samples.long_seed)%nat /\
  String.length (generateVariation [Samples.long_seed] 5) = 300%nat.
Proof.
  assert (Hlong : (280 < String.length Samples.long_seed)%nat)
    by (vm_compute; lia).
  split; [exact Hlong |].
  rewrite (generateVariation_long_seed Samples.long_seed 5 Hlong).
  - vm_compute. reflexivity.
  - repeat constructor.
Defined.

Lemma generateAdditional_length (postsPerTopic : nat) (topics : list string) :
  forall allPosts,
    Forall (fun t => In t (map fst TEMPLATE_TOPICS)) topics ->
    Forall (fun p => exists t, Types.category p = Some t /\
                               In t (map fst TEMPLATE_TOPICS)) allPosts ->
    exists posts,
      Expansion.generateAdditional topics postsPerTopic allPosts = Ok posts /\
      List.length posts
      = (List.length allPosts + List.length topics * postsPerTopic)%nat /\
      Forall (fun p => exists t, Types.category p = Some t /\
                                 In t (map fst TEMPLATE_TOPICS)) posts.
Proof.
  induction topics as [| topic rest IH]; intros allPosts Hknown Hcat.
  - exists allPosts. cbn. repeat split; [lia | exact Hcat].
  - inversion Hknown as [| ? ? Hk Hrest]; subst.
    cbn [Expansion.generateAdditional].
    unfold Expansion.generateAdditionalTopicPosts.
    destruct (catalogue_topic_known topic Hk) as (c & name & ->).
    match goal with
    | |- context [Expansion.generateAdditional rest postsPerTopic ?acc] =>
        destruct (IH acc Hrest) as (posts & Hrun & Hlen & Hall)
    end.
    + apply Forall_app. split; [exact Hcat |].
      apply Forall_forall. intros p Hp. apply in_map_iff in Hp.
      destruct Hp as (i & <- & _). exists topic. now split.
    + exists posts. split; [exact Hrun |]. split; [| exact Hall].
      rewrite Hlen, length_app, length_map, length_seq. cbn [List.length]. lia.
Qed.

(** X4. [generateAdditionalPosts(count)] returns exactly [count] posts,
    whatever the count (none for 0): it generates the same number for each
    of the 32 topics, rounded up, and cuts the list to [count]; every post
    carries a topic of the catalogue. *)
Theorem generateAdditionalPosts_count (count : nat) :
  exists posts,
    Expansion.generateAdditionalPosts count = Ok posts /\
    List.length posts = count /\
    Forall (fun p => exists t, Types.category p = Some t /\
                               In t (map fst TEMPLATE_TOPICS)) posts.
Proof.
  unfold Expansion.generateAdditionalPosts.
  destruct (generateAdditional_length
              (Expansion.ceil_div count (List.length (map fst TEMPLATE_TOPICS)))
              (map fst TEMPLATE_TOPICS) [])
    as (posts & -> & Hlen & Hall).
  - apply Forall_forall. auto.
  - constructor.
  - exists (firstn count posts). split; [reflexivity |]. split.
    + rewrite length_firstn, Hlen.
      change (List.length (map fst TEMPLATE_TOPICS)) with 32%nat.
      unfold Expansion.ceil_div. cbn [List.length].
      pose proof (Nat.div_mod_eq (count + 32 - 1) 32).
      pose proof (Nat.mod_upper_bound (count + 32 - 1) 32). lia.
    + apply Forall_forall. intros p Hp. rewrite Forall_forall in Hall.
      apply Hall. rewrite <- (firstn_skipn count posts).
      apply in_or_app. now left.
Qed.

Lemma generateAllPosts_is : generateAllPosts = Ok Samples.allPosts.
Proof.
  unfold Samples.allPosts.
  destruct generateAllPosts eqn:E; [reflexivity |].
  exfalso. revert E. vm_compute. discriminate.
Qed.

(** X5. Every post [generateAllPosts] returns passes the checks [postTweet]
    makes before it calls the API (at most 280 characters, not blank), and
    carries a topic of the catalogue. *)
Theorem generated_posts_publishable :
  exists posts,
    generateAllPosts = Ok posts /\
    forall p, In p posts ->
      (String.length (Types.content p) <= 280)%nat /\
      Js.trim (Types.content p) <> "" /\
      (exists topic, Types.category p = Some topic /\
                     In topic (map fst TEMPLATE_TOPICS)) /\
      forall tweet,
        Twitter.tryTweet tweet (Types.content p) = 
        match tweet (Types.content p) with
        | Throw e => Throw e
        | Ok (Some (String c rest)) => Ok (String c rest)
        | Ok _ => Throw "Failed to get tweet ID from response"
        end.
Proof.
  exists Samples.allPosts. split; [apply generateAllPosts_is |].
  assert (Hall : forallb Samples.publishable Samples.allPosts = true)
    by (vm_compute; reflexivity).
  rewrite forallb_forall in Hall. intros p Hp. specialize (Hall p Hp).
  unfold Samples.publishable in Hall.
  apply andb_true_iff in Hall. destruct Hall as [Hall Hcat].
  apply andb_true_iff in Hall. destruct Hall as [Hlen Hblank].
  apply Nat.leb_le in Hlen. apply negb_true_iff in Hblank.
  apply String.eqb_neq in Hblank.
  split; [exact Hlen |]. split; [exact Hblank |]. split.
  - destruct (Types.category p) as [topic |]; [| discriminate].
    exists topic. split; [reflexivity |].
    apply existsb_exists in Hcat. destruct Hcat as (t & Ht & E).
    apply String.eqb_eq in E. now subst.
  - intros tweet. unfold Twitter.tryTweet.
    assert (Hf : (280 <? String.length (Types.content p))%nat = false)
      by (apply Nat.ltb_ge; exact Hlen).
    rewrite Hf. destruct (Js.trim (Types.content p)); [now destruct Hblank |].
    reflexivity.
Qed.

End ExpansionFacts.

Module MaintenanceFacts.
Import Db.
Import Notions.
Import Maintenance.

Lemma insert_post_category (d d' : Db.t) (content botId : string)
    (category : option string) (cost : Q) (tokens : Z) (model hash : string)
    (now : Z) :
  insert_post d content botId category cost tokens model hash now = Ok d' ->
  exists r, posts d' = (posts d ++ [r])%list /\ Posts.category r = category /\
            Posts.bot_id r = botId.
Proof.
  unfold insert_post. destruct (existsb (hash_is hash) (posts d)); [discriminate |].
  destruct (existsb _ (posts d)); [discriminate |].
  intros H. inversion H; subst; clear H. cbn. eauto.
Qed.

Lemma storeEach_no_category (botId : string) (now : Z)
    (posts0 : list Types.PostGenerationResult) :
  forall d d', PostManager.storeEach botId now posts0 d = Ok d' ->
    exists extra,
      posts d' = (posts d ++ extra)%list /\
      Forall (fun r => Posts.category r = None) extra.
Proof.
  induction posts0 as [| p rest IH]; intros d d' H; cbn in H.
  - inversion H; subst. exists []. now rewrite app_nil_r.
  - destruct (select_id_by_hash d botId _).
    + now apply IH.
    + destruct (insert_post d _ _ _ _ _ _ _ _) as [d1 | e] eqn:E; [| discriminate].
      apply insert_post_category in E. destruct E as (r & Hr & Hc & _).
      apply IH in H. destruct H as (extra & Hx & Hall).
      exists (r :: extra). split.
      * rewrite Hx, Hr, <- app_assoc. reflexivity.
      * now constructor.
Qed.

(** X6. [storePosts] writes no category: the rows the bot stores for itself
    are never found by [getPostsByCategory], whose answers are the same
    after a [storePosts] as before it, for every bot, category and limit. *)
Theorem storePosts_uncategorised (d : Db.t) (botId : string)
    (posts0 : list Types.PostGenerationResult) (now : Z)
    (reader category : string) (lim : Z) :
  getPostsByCategory (snd (PostManager.storePosts d botId posts0 now))
                     reader category lim
  = getPostsByCategory d reader category lim.
Proof.
  unfold PostManager.storePosts.
  destruct (PostManager.storeEach botId now posts0 d) as [d' | e] eqn:E;
    [| reflexivity].
  cbn [snd]. apply storeEach_no_category in E. destruct E as (extra & Hx & Hall).
  unfold getPostsByCategory. rewrite Hx, filter_app.
  rewrite (StoreFacts.filter_none _ extra), app_nil_r; [reflexivity |].
  intros r Hr. rewrite Forall_forall in Hall. specialize (Hall r Hr).
  unfold category_is. rewrite Hall.
  now rewrite andb_false_r.
Qed.

(** *** Ordering *)

Lemma insert_desc_perm (r : Posts.row) (l : list Posts.row) :
  Permutation (r :: l) (insert_desc r l).
Proof.
  induction l as [| m rest IH]; cbn; [reflexivity |].
  destruct (Posts.created_at m <=? Posts.created_at r); [reflexivity |].
  rewrite perm_swap. now constructor.
Qed.

Lemma order_desc_perm (l : list Posts.row) : Permutation l (order_desc l).
Proof.
  induction l as [| r rest IH]; cbn; [constructor |].
  rewrite <- insert_desc_perm. now constructor.
Qed.

Lemma insert_desc_sorted (r : Posts.row) (l : list Posts.row) :
  StronglySorted Samples.newer_first l -> StronglySorted Samples.newer_first (insert_desc r l).
Proof.
  induction 1 as [| m rest Hs IH Hm]; cbn.
  - repeat constructor.
  - destruct (Posts.created_at m <=? Posts.created_at r) eqn:E.
    + apply Z.leb_le in E. constructor; [now constructor |].
      constructor; [exact E |].
      eapply Forall_impl; [| exact Hm]. unfold Samples.newer_first. intros; lia.
    + apply Z.leb_gt in E. constructor; [exact IH |].
      assert (Hp : Forall (Samples.newer_first m) (r :: rest))
        by (constructor; [unfold Samples.newer_first; lia | exact Hm]).
      eapply Permutation_Forall; [apply insert_desc_perm | exact Hp].
Qed.

Lemma order_desc_sorted (l : list Posts.row) :
  StronglySorted Samples.newer_first (order_desc l).
Proof.
  induction l; cbn; [constructor | now apply insert_desc_sorted].
Qed.

Lemma limit_prefix {A : Type} (n : Z) (l : list A) :
  exists rest, l = (limit n l ++ rest)%list.
Proof.
  unfold limit. destruct (n <? 0).
  - exists []. now rewrite app_nil_r.
  - exists (skipn (Z.to_nat n) l). now rewrite firstn_skipn.
Qed.

Lemma limit_length {A : Type} (n : Z) (l : list A) :
  List.length (limit n l)
  = if n <? 0 then List.length l else Nat.min (Z.to_nat n) (List.length l).
Proof.
  unfold limit. destruct (n <? 0); [reflexivity | apply length_firstn].
Qed.

Lemma sorted_prefix (pre rest : list Posts.row) :
  StronglySorted Samples.newer_first (pre ++ rest) ->
  StronglySorted Samples.newer_first pre /\
  forall p q, In p pre -> In q rest -> Samples.newer_first p q.
Proof.
  induction pre as [| a pre IH]; cbn; intros H.
  - split; [constructor | contradiction].
  - inversion H as [| ? ? Hs Ha]; subst. destruct (IH Hs) as [Hp Hr].
    apply Forall_app in Ha. destruct Ha as [Ha1 Ha2]. split.
    + now constructor.
    + intros p q [<- | Hp'] Hq.
      * rewrite Forall_forall in Ha2. now apply Ha2.
      * now apply Hr.
Qed.

(** X7. [getPostHistory(limit)] returns posts of this bot only, newest
    first; as many as the bot has, up to [limit] (all of them when the limit
    is negative, which SQLite reads as no limit); and every row of the bot
    that is strictly newer than a returned post is returned as well. *)
Theorem getPostHistory_newest_first (d : Db.t) (botId : string) (lim : Z) :
  let history := getPostHistory d botId lim in
  Forall (fun p => PostManager.bot_id p = botId) history /\
  StronglySorted
    (fun p q => PostManager.created_at q <= PostManager.created_at p) history /\
  Z.of_nat (List.length history)
  = (if lim <? 0 then count_posts d botId
     else Z.min lim (count_posts d botId)) /\
  (forall p r, In p history -> In r (posts d) -> Posts.bot_id r = botId ->
     PostManager.created_at p < Posts.created_at r ->
     In (PostManager.toPost r) history).
Proof.
  cbv zeta. unfold getPostHistory.
  set (own := filter (fun r => String.eqb (Posts.bot_id r) botId) (posts d)).
  pose proof (order_desc_perm own) as Hperm.
  pose proof (order_desc_sorted own) as Hsorted.
  destruct (limit_prefix lim (order_desc own)) as (rest & Hsplit).
  set (shown := limit lim (order_desc own)) in *.
  rewrite Hsplit in Hsorted.
  destruct (sorted_prefix _ _ Hsorted) as [Hpre Hcut].
  assert (Hin : forall r, In r shown -> In r own).
  { intros r Hr. eapply Permutation_in; [symmetry; exact Hperm |].
    rewrite Hsplit. apply in_or_app. now left. }
  split; [| split; [| split]].
  - apply Forall_forall. intros p Hp. apply in_map_iff in Hp.
    destruct Hp as (r & <- & Hr). apply Hin in Hr.
    apply filter_In in Hr. destruct Hr as [_ Hr].
    now apply String.eqb_eq in Hr.
  - clear - Hpre. induction Hpre as [| a l Hs IH Ha]; cbn; constructor.
    + exact IH.
    + apply Forall_forall. intros p Hp. apply in_map_iff in Hp.
      destruct Hp as (r & <- & Hr). rewrite Forall_forall in Ha.
      exact (Ha r Hr).
  - rewrite length_map. unfold shown. rewrite limit_length.
    rewrite <- (Permutation_length Hperm). unfold count_posts. fold own.
    destruct (lim <? 0) eqn:E; [reflexivity |].
    apply Z.ltb_ge in E. lia.
  - intros p r Hp Hr Hb Hlt. apply in_map_iff in Hp.
    destruct Hp as (q & <- & Hq). cbn in Hlt.
    assert (Hown : In r own)
      by (apply filter_In; split; [exact Hr | now apply String.eqb_eq]).
    apply (Permutation_in _ Hperm) in Hown. rewrite Hsplit in Hown.
    apply in_app_or in Hown. destruct Hown as [Hs | Hrest].
    + now apply in_map.
    + specialize (Hcut q r Hq Hrest). unfold Samples.newer_first in Hcut. lia.
Qed.

End MaintenanceFacts.

Module DeletionFacts.
Import Db.
Import Notions.
Import Maintenance.

Lemma delete_where_ok (d d' : Db.t) (doomed : Posts.row -> bool) (n : Z) :
  delete_where d doomed = Ok (d', n) ->
  posts d' = filter (fun r => negb (doomed r)) (posts d) /\
  n = Z.of_nat (List.length (filter doomed (posts d))) /\
  bot_stats d' = bot_stats d /\ post_logs d' = post_logs d.
Proof.
  unfold delete_where. destruct (existsb _ _); [discriminate |].
  intros H. inversion H; subst. cbn. auto.
Qed.

Lemma delete_where_throw (d : Db.t) (doomed : Posts.row -> bool) (e : string) :
  delete_where d doomed = Throw e ->
  e = "SQLITE_CONSTRAINT: FOREIGN KEY constraint failed" /\
  exists r l, In r (posts d) /\ doomed r = true /\
              In l (post_logs d) /\ PostLogs.post_id l = Some (Posts.id r).
Proof.
  unfold delete_where.
  destruct (existsb (referenced d) (filter doomed (posts d))) eqn:E;
    [| discriminate].
  intros H. inversion H; subst. split; [reflexivity |].
  apply existsb_exists in E. destruct E as (r & Hr & Href).
  apply filter_In in Hr. destruct Hr as [Hr Hd].
  unfold referenced in Href. apply existsb_exists in Href.
  destruct Href as (l & Hl & Hp). exists r, l.
  destruct (PostLogs.post_id l) as [i |]; [| discriminate].
  apply Z.eqb_eq in Hp. subst. auto.
Qed.

Lemma delete_where_free (d : Db.t) (doomed : Posts.row -> bool) :
  (forall r l, In r (posts d) -> doomed r = true -> In l (post_logs d) ->
               PostLogs.post_id l <> Some (Posts.id r)) ->
  exists d' n, delete_where d doomed = Ok (d', n).
Proof.
  intros Hfree. destruct (delete_where d doomed) as [[d' n] | e] eqn:E.
  - eauto.
  - apply delete_where_throw in E. destruct E as (_ & r & l & Hr & Hd & Hl & Hp).
    now destruct (Hfree r l Hr Hd Hl).
Qed.

Lemma targets_unique (rows : list Posts.row) (r q : Posts.row) (botId : string) :
  NoDup (map Posts.id rows) -> In r rows -> In q rows ->
  targets (Posts.id r) botId q = true -> q = r.
Proof.
  intros Hnd Hr Hq Ht. unfold targets in Ht.
  apply andb_true_iff in Ht. destruct Ht as [Hid _]. apply Z.eqb_eq in Hid.
  induction rows as [| a rest IH]; [contradiction |].
  cbn in Hnd. inversion Hnd as [| ? ? Hnot Hnd']; subst.
  destruct Hr as [-> | Hr], Hq as [-> | Hq]; try reflexivity.
  - exfalso. apply Hnot. rewrite <- Hid. now apply in_map.
  - exfalso. apply Hnot. rewrite Hid. now apply in_map.
  - now apply IH.
Qed.

Lemma filter_split_length {A : Type} (keep doomed : A -> bool) (l : list A) :
  (forall r, doomed r = true -> keep r = true) ->
  List.length (filter keep l)
  = (List.length (filter keep (filter (fun r => negb (doomed r)) l))
     + List.length (filter doomed l))%nat.
Proof.
  intros Himp. induction l as [| a rest IH]; [reflexivity |].
  cbn. destruct (doomed a) eqn:Ed; cbn.
  - rewrite (Himp a Ed). cbn. lia.
  - destruct (keep a); cbn; lia.
Qed.

Lemma filter_absorb {A : Type} (f g : A -> bool) (l : list A) :
  (forall r, f r = true -> g r = true) ->
  filter f (filter g l) = filter f l.
Proof.
  intros Himp. induction l as [| a rest IH]; [reflexivity |].
  cbn. destruct (g a) eqn:Eg; cbn.
  - now rewrite IH.
  - destruct (f a) eqn:Ef; [| exact IH].
    rewrite (Himp a Ef) in Eg. discriminate.
Qed.

Lemma filter_one (rows : list Posts.row) (r : Posts.row) (botId : string) :
  NoDup (map Posts.id rows) -> In r rows -> Posts.bot_id r = botId ->
  List.length (filter (targets (Posts.id r) botId) rows) = 1%nat.
Proof.
  intros Hnd Hr Hb.
  induction rows as [| a rest IH]; [contradiction |].
  cbn in Hnd. inversion Hnd as [| ? ? Hnot Hnd']; subst.
  destruct Hr as [-> | Hr].
  - cbn. unfold targets at 1. rewrite Z.eqb_refl, String.eqb_refl. cbn.
    rewrite (StoreFacts.filter_none _ rest); [reflexivity |].
    intros q Hq. unfold targets.
    destruct (Posts.id q =? Posts.id r) eqn:E; [| reflexivity].
    apply Z.eqb_eq in E. exfalso. apply Hnot. rewrite <- E. now apply in_map.
  - cbn. destruct (targets (Posts.id r) (Posts.bot_id r) a) eqn:E.
    + exfalso. apply Hnot. unfold targets in E.
      apply andb_true_iff in E. destruct E as [E _]. apply Z.eqb_eq in E.
      rewrite E. now apply in_map.
    + now apply IH.
Qed.

(** X8. [deletePost(postId)] removes the bot's row with that id and nothing
    else, and it succeeds when no log row points at the post; but no trigger
    follows a DELETE, so the statistics row stays as it was: after an unused
    post is deleted the table holds one post less than [bot_stats] says. *)
Theorem deletePost_leaves_stats (d : Db.t) (botId : string) (r : Posts.row) :
  NoDup (map Posts.id (posts d)) ->
  In r (posts d) -> Posts.bot_id r = botId ->
  (forall l, In l (post_logs d) -> PostLogs.post_id l <> Some (Posts.id r)) ->
  exists d',
    deletePost d botId (Posts.id r) = (Ok tt, d') /\
    (forall q, In q (posts d') <-> In q (posts d) /\ q <> r) /\
    count_posts d' botId = count_posts d botId - 1 /\
    bot_stats d' = bot_stats d /\
    post_logs d' = post_logs d.
Proof.
  intros Hnd Hr Hb Hfree. unfold deletePost.
  destruct (delete_where_free d (targets (Posts.id r) botId)) as (d' & n & E).
  { intros q l Hq Ht Hl. rewrite (targets_unique _ r q botId Hnd Hr Hq Ht).
    now apply Hfree. }
  rewrite E. apply delete_where_ok in E. destruct E as (Hp & _ & Hs & Hl).
  exists d'. split; [reflexivity |]. split; [| split; [| split]];
    [| | exact Hs | exact Hl].
  - intros q. rewrite Hp, filter_In. split.
    + intros [Hq Hn]. split; [exact Hq |]. intros ->.
      unfold targets in Hn. rewrite Z.eqb_refl, Hb, String.eqb_refl in Hn.
      discriminate.
    + intros [Hq Hne]. split; [exact Hq |].
      destruct (targets (Posts.id r) botId q) eqn:Et; [| reflexivity].
      now destruct Hne; apply (targets_unique _ r q botId Hnd Hr Hq Et).
  - unfold count_posts. rewrite Hp.
    rewrite (filter_split_length
               (fun q => String.eqb (Posts.bot_id q) botId)
               (targets (Posts.id r) botId) (posts d)).
    + rewrite (filter_one _ r botId Hnd Hr Hb). lia.
    + intros q Hq. unfold targets in Hq.
      apply andb_true_iff in Hq. now destruct Hq.
Qed.

Lemma deletePost_leaves_stats_witness :
  exists d',
    deletePost Scenario.one "bot-a" 1 = (Ok tt, d') /\
    count_posts d' "bot-a" = 0 /\
    map BotStats.remaining_posts (bot_stats d') = [1].
Proof.
  destruct (deletePost_leaves_stats Scenario.one "bot-a"
              (Scenario.stored 1 "Test post one." "bot-a" 100))
    as (d' & Hrun & _ & Hcount & Hstats & _).
  - vm_compute. repeat constructor. intros [].
  - vm_compute. now left.
  - reflexivity.
  - intros l [].
  - exists d'. split; [exact Hrun |]. split.
    + rewrite Hcount. reflexivity.
    + rewrite Hstats. reflexivity.
Defined.

(** X9. [deletePost] fails, and changes nothing, exactly when a row it would
    delete is still referenced by a row of [post_logs] (the connection runs
    with foreign keys on). *)
Theorem deletePost_refused (d : Db.t) (botId : string) (postId : Z) :
  (exists e, fst (deletePost d botId postId) = Throw e) <->
  (exists r l, In r (posts d) /\ Posts.id r = postId /\ Posts.bot_id r = botId /\
               In l (post_logs d) /\ PostLogs.post_id l = Some postId).
Proof.
  unfold deletePost. split.
  - intros (e & H).
    destruct (delete_where d (targets postId botId)) as [[d' n] | e'] eqn:E;
      [discriminate |].
    apply delete_where_throw in E. destruct E as (_ & r & l & Hr & Ht & Hl & Hp).
    unfold targets in Ht. apply andb_true_iff in Ht. destruct Ht as [Hi Hb].
    apply Z.eqb_eq in Hi. apply String.eqb_eq in Hb.
    exists r, l. rewrite <- Hi. auto.
  - intros (r & l & Hr & Hi & Hb & Hl & Hp).
    destruct (delete_where d (targets postId botId)) as [[d' n] | e'] eqn:E;
      [| now exists e'].
    exfalso. unfold delete_where in E.
    destruct (existsb (referenced d) (filter (targets postId botId) (posts d)))
      eqn:Ex; [discriminate |].
    assert (Hx : existsb (referenced d)
                   (filter (targets postId botId) (posts d)) = true).
    { apply existsb_exists. exists r. split.
      - apply filter_In. split; [exact Hr |]. unfold targets.
        now rewrite Hi, Hb, Z.eqb_refl, String.eqb_refl.
      - unfold referenced. apply existsb_exists. exists l.
        split; [exact Hl |]. rewrite Hp, Hi. apply Z.eqb_refl. }
    congruence.
Qed.

Lemma old_used_bot (botId : string) (daysOld now : Z) (r : Posts.row) :
  old_used botId daysOld now r = true ->
  Posts.bot_id r = botId /\ Posts.used r = true /\ 0 <= daysOld /\
  Posts.created_at r < now - daysOld * 86400.
Proof.
  unfold old_used. intros H.
  apply andb_true_iff in H. destruct H as [H H4].
  apply andb_true_iff in H. destruct H as [H H3].
  apply andb_true_iff in H. destruct H as [H1 H2].
  apply String.eqb_eq in H1. apply Z.leb_le in H3. apply Z.ltb_lt in H4. auto.
Qed.

(** X10. [cleanupOldPosts(daysOld)] never touches the queue: the next post
    of every bot is the same after it as before it, and the number of unused
    posts of every bot is unchanged.  The number it returns is the number of
    rows it deleted, all of them used posts of this bot; a negative [daysOld]
    deletes nothing; when the DELETE fails nothing is deleted.  The
    statistics row is not adjusted. *)
Theorem cleanupOldPosts_keeps_queue (d : Db.t) (botId : string)
    (daysOld now : Z) :
  match cleanupOldPosts d botId daysOld now with
  | (Ok n, d') =>
      (forall reader, select_next_unused d' reader = select_next_unused d reader) /\
      (forall reader,
         count_posts d' reader - count_used d' reader
         = count_posts d reader - count_used d reader) /\
      n = count_posts d botId - count_posts d' botId /\
      n = count_used d botId - count_used d' botId /\
      (forall r, In r (posts d') -> In r (posts d)) /\
      (daysOld < 0 -> n = 0 /\ posts d' = posts d) /\
      bot_stats d' = bot_stats d
  | (Throw _, d') => d' = d
  end.
Proof.
  unfold cleanupOldPosts.
  destruct (delete_where d (old_used botId daysOld now)) as [[d' n] | e] eqn:E;
    [| reflexivity].
  apply delete_where_ok in E. destruct E as (Hp & Hn & Hs & _).
  assert (Hposts : forall b,
    count_posts d b
    = count_posts d' b
      + (if String.eqb b botId then n else 0)).
  { intros b. unfold count_posts. rewrite Hp.
    destruct (String.eqb b botId) eqn:Eb.
    - apply String.eqb_eq in Eb. subst b.
      rewrite (filter_split_length
                 (fun r => String.eqb (Posts.bot_id r) botId)
                 (old_used botId daysOld now) (posts d)).
      + lia.
      + intros r Hr. apply old_used_bot in Hr. destruct Hr as [-> _].
        apply String.eqb_refl.
    - rewrite filter_absorb; [lia |].
      intros r Hr. apply String.eqb_eq in Hr.
      destruct (old_used botId daysOld now r) eqn:Eo; [| reflexivity].
      apply old_used_bot in Eo. destruct Eo as [Eo _].
      rewrite Hr in Eo. subst. now rewrite String.eqb_refl in Eb. }
  assert (Hused : forall b,
    count_used d b
    = count_used d' b
      + (if String.eqb b botId then n else 0)).
  { intros b. unfold count_used. rewrite Hp.
    destruct (String.eqb b botId) eqn:Eb.
    - apply String.eqb_eq in Eb. subst b.
      rewrite (filter_split_length
                 (fun r => String.eqb (Posts.bot_id r) botId && Posts.used r)
                 (old_used botId daysOld now) (posts d)).
      + lia.
      + intros r Hr. apply old_used_bot in Hr. destruct Hr as (-> & -> & _).
        now rewrite String.eqb_refl.
    - rewrite filter_absorb; [lia |].
      intros r Hr. apply andb_true_iff in Hr. destruct Hr as [Hr _].
      apply String.eqb_eq in Hr.
      destruct (old_used botId daysOld now r) eqn:Eo; [| reflexivity].
      apply old_used_bot in Eo. destruct Eo as [Eo _].
      rewrite Hr in Eo. subst. now rewrite String.eqb_refl in Eb. }
  split; [| split; [| split; [| split; [| split; [| split]]]]].
  - intros reader. unfold select_next_unused. rewrite Hp.
    rewrite filter_absorb; [reflexivity |].
    intros r Hr. apply StoreFacts.unused_of_iff in Hr. destruct Hr as [_ Hu].
    destruct (old_used botId daysOld now r) eqn:Eo; [| reflexivity].
    apply old_used_bot in Eo. destruct Eo as (_ & Eo & _). congruence.
  - intros reader. rewrite (Hposts reader), (Hused reader). lia.
  - specialize (Hposts botId). rewrite String.eqb_refl in Hposts. lia.
  - specialize (Hused botId). rewrite String.eqb_refl in Hused. lia.
  - intros r Hr. rewrite Hp in Hr. apply filter_In in Hr. now destruct Hr.
  - intros Hneg.
    assert (Hnone : forall r, In r (posts d) ->
                              old_used botId daysOld now r = false).
    { intros r _. destruct (old_used botId daysOld now r) eqn:Eo; [| reflexivity].
      apply old_used_bot in Eo. lia. }
    split.
    + rewrite Hn, (StoreFacts.filter_none _ _ Hnone). reflexivity.
    + rewrite Hp. clear - Hnone. induction (posts d) as [| a l IH];
        [reflexivity |].
      cbn. rewrite (Hnone a (or_introl eq_refl)). cbn. f_equal.
      apply IH. intros r Hr. apply Hnone. now right.
  - exact Hs.
Qed.

(** X11. The age [cleanupOldPosts] looks at is the age of the row, not the
    time since it was used: a post created more than [daysOld] days ago and
    published this very second is deleted by a cleanup that runs in the same
    second. *)
Theorem cleanup_deletes_just_published (d : Db.t) (botId : string)
    (r : Posts.row) (tweetId : option string) (daysOld now : Z) :
  NoDup (map Posts.id (posts d)) ->
  In r (posts d) -> Posts.bot_id r = botId -> Posts.used r = false ->
  0 <= daysOld -> Posts.created_at r < now - daysOld * 86400 ->
  Samples.unreferenced d ->
  let d1 := PostManager.markPostAsUsed d botId (Posts.id r) tweetId now in
  In (set_used now r) (posts d1) /\
  exists d2 n,
    cleanupOldPosts d1 botId daysOld now = (Ok n, d2) /\
    1 <= n /\
    forall q, In q (posts d2) -> Posts.id q <> Posts.id r.
Proof.
  intros Hnd Hr Hb Hu Hdays Hold Hfree d1.
  assert (Hposts : posts d1 = map (mark (Posts.id r) botId now) (posts d))
    by apply StoreFacts.update_post_used_posts.
  assert (Hlogs : post_logs d1 = post_logs d) by reflexivity.
  assert (Hmark : mark (Posts.id r) botId now r = set_used now r).
  { unfold mark, targets. now rewrite Z.eqb_refl, Hb, String.eqb_refl. }
  assert (Hin : In (set_used now r) (posts d1)).
  { rewrite Hposts, <- Hmark. now apply in_map. }
  split; [exact Hin |].
  unfold cleanupOldPosts.
  destruct (delete_where_free d1 (old_used botId daysOld now)) as (d2 & n & E).
  { intros q l _ _ Hl. rewrite Hlogs in Hl. unfold Samples.unreferenced in Hfree.
    rewrite Forall_forall in Hfree. rewrite (Hfree l Hl). discriminate. }
  rewrite E. exists d2, n. split; [reflexivity |].
  apply delete_where_ok in E. destruct E as (Hp & Hn & _).
  assert (Hdoomed : old_used botId daysOld now (set_used now r) = true).
  { unfold old_used. cbn. rewrite Hb, String.eqb_refl. cbn.
    apply andb_true_iff. split; [now apply Z.leb_le | now apply Z.ltb_lt]. }
  split.
  - rewrite Hn.
    assert (Hf : In (set_used now r) (filter (old_used botId daysOld now) (posts d1)))
      by (apply filter_In; auto).
    destruct (filter (old_used botId daysOld now) (posts d1));
      [contradiction | cbn; lia].
  - intros q Hq Hid. rewrite Hp in Hq. apply filter_In in Hq.
    destruct Hq as [Hq Hkeep]. rewrite Hposts in Hq. apply in_map_iff in Hq.
    destruct Hq as (q0 & <- & Hq0).
    assert (Hid0 : Posts.id q0 = Posts.id r).
    { unfold mark in Hid. destruct (targets _ _ q0); exact Hid. }
    assert (q0 = r).
    { clear - Hnd Hr Hq0 Hid0. induction (posts d) as [| a l IH];
        [contradiction |].
      cbn in Hnd. inversion Hnd as [| ? ? Hnot Hnd']; subst.
      destruct Hr as [-> | Hr], Hq0 as [-> | Hq0]; try reflexivity.
      - exfalso. apply Hnot. rewrite <- Hid0. now apply in_map.
      - exfalso. apply Hnot. rewrite Hid0. now apply in_map.
      - now apply IH. }
    subst q0. rewrite Hmark, Hdoomed in Hkeep. discriminate.
Qed.

Lemma cleanup_deletes_just_published_witness :
  let d := Scenario.one in
  let r := Scenario.stored 1 "Test post one." "bot-a" 100 in
  0 <= 30 /\ Posts.created_at r < Samples.forty_days - 30 * 86400 /\
  exists d2 n,
    cleanupOldPosts
      (PostManager.markPostAsUsed d "bot-a" 1 (Some "ext-123") Samples.forty_days)
      "bot-a" 30 Samples.forty_days = (Ok n, d2) /\ 1 <= n.
Proof.
  cbv zeta.
  assert (H1 : 0 <= 30) by lia.
  assert (H2 : Posts.created_at (Scenario.stored 1 "Test post one." "bot-a" 100)
               < Samples.forty_days - 30 * 86400) by (vm_compute; reflexivity).
  split; [exact H1 |]. split; [exact H2 |].
  destruct (cleanup_deletes_just_published Scenario.one "bot-a"
              (Scenario.stored 1 "Test post one." "bot-a" 100)
              (Some "ext-123") 30 Samples.forty_days)
    as (_ & d2 & n & Hrun & Hn & _).
  - vm_compute. repeat constructor. intros [].
  - vm_compute. now left.
  - reflexivity.
  - reflexivity.
  - exact H1.
  - exact H2.
  - constructor.
  - exists d2, n. split; [exact Hrun | exact Hn].
Defined.

End DeletionFacts.

Module SeedingFacts.
Import Db.
Import Notions.
Import Seeding.

Lemma count_posts_app (d d' : Db.t) (botId : string) (extra : list Posts.row) :
  posts d' = (posts d ++ extra)%list ->
  Forall (fun r => Posts.bot_id r = botId) extra ->
  count_posts d' botId = count_posts d botId + Z.of_nat (List.length extra).
Proof.
  intros Hp Hall. unfold count_posts. rewrite Hp, filter_app, length_app.
  assert (Hf : filter (fun r => String.eqb (Posts.bot_id r) botId) extra = extra).
  { clear Hp. induction Hall as [| a l Ha _ IH]; [reflexivity |].
    cbn. rewrite Ha, String.eqb_refl. now rewrite IH. }
  rewrite Hf. lia.
Qed.

Lemma no_rows_no_hash (d : Db.t) (botId h : string) :
  count_posts d botId = 0 -> select_id_by_hash d botId h = None.
Proof.
  unfold count_posts, select_id_by_hash. intros H.
  destruct (find _ (posts d)) as [r |] eqn:E; [| reflexivity].
  apply find_some in E. destruct E as [Hr Hb].
  apply andb_true_iff in Hb. destruct Hb as [Hb _].
  assert (Hin : In r (filter (fun r => String.eqb (Posts.bot_id r) botId) (posts d)))
    by (apply filter_In; auto).
  destruct (filter _ (posts d)); [contradiction | cbn in H; lia].
Qed.

Lemma seedEach_grows (botId : string) (now : Z)
    (posts0 : list Types.PostGenerationResult) :
  forall d s k d' s' k',
    Seeder.seedEach botId now posts0 d s k = Ok (d', s', k') ->
    exists extra,
      posts d' = (posts d ++ extra)%list /\
      Forall (fun r => Posts.bot_id r = botId) extra /\
      Forall (fun r => Posts.category r <> None) extra /\
      s' = s + Z.of_nat (List.length extra) /\
      s' + k' = s + k + Z.of_nat (List.length posts0) /\
      bot_stats d' = bot_stats d /\ post_logs d' = post_logs d /\
      (posts0 <> [] -> count_posts d botId = 0 -> extra <> []).
Proof.
  induction posts0 as [| p rest IH]; intros d s k d' s' k' H.
  - cbn [Seeder.seedEach] in H. inversion H; subst. exists [].
    rewrite app_nil_r. cbn [List.length]. repeat split; try constructor; try lia.
    intros Hne. now destruct Hne.
  - cbn [Seeder.seedEach] in H. cbv zeta in H.
    destruct (select_id_by_hash d botId _) as [i |] eqn:Es.
    + apply IH in H. destruct H as (extra & Hp & Hb & Hc & Hs & Hk & Hst & Hl & _).
      exists extra. repeat split; try assumption.
      * rewrite length_cons. lia.
      * intros _ Hzero. rewrite (no_rows_no_hash d botId _ Hzero) in Es.
        discriminate.
    + destruct (insert_post d _ _ _ _ _ _ _ _) as [d1 | e] eqn:Ei;
        [| discriminate].
      pose proof (StoreFacts.insert_post_ok _ _ _ _ _ _ _ _ _ _ Ei) as Hok.
      destruct Hok as (_ & r & Hr & _ & _ & _ & Hrb & _ & _ & _ & Hst1 & Hl1 & _).
      assert (Hrc : Posts.category r <> None).
      { apply MaintenanceFacts.insert_post_category in Ei.
        destruct Ei as (r' & Hr' & Hc' & _). rewrite Hr in Hr'.
        apply app_inv_head in Hr'. inversion Hr'; subst r'.
        rewrite Hc'. discriminate. }
      apply IH in H. destruct H as (extra & Hp & Hb & Hc & Hs & Hk & Hst & Hl & _).
      exists (r :: extra). repeat split.
      * rewrite Hp, Hr, <- app_assoc. reflexivity.
      * now constructor.
      * now constructor.
      * rewrite length_cons. lia.
      * rewrite length_cons. lia.
      * congruence.
      * congruence.
      * discriminate.
Qed.

(** X12. The loop of [storePostsInDatabase] counts right: when it ends,
    [storedCount] is the number of rows it has added, all of them rows of
    this bot with a category, and [storedCount + duplicateCount] is the
    number of posts it was given. *)
Theorem storePostsInDatabase_counts (botId : string) (now : Z)
    (posts0 : list Types.PostGenerationResult) (d d' : Db.t)
    (storedCount duplicateCount : Z) :
  Seeder.seedEach botId now posts0 d 0 0 = Ok (d', storedCount, duplicateCount) ->
  storedCount = count_posts d' botId - count_posts d botId /\
  storedCount + duplicateCount = Z.of_nat (List.length posts0) /\
  0 <= storedCount /\ 0 <= duplicateCount /\
  snd (Seeder.storePostsInDatabase d botId posts0 now) = d' /\
  exists extra,
    posts d' = (posts d ++ extra)%list /\
    Forall (fun r => Posts.bot_id r = botId /\ Posts.category r <> None) extra.
Proof.
  intros H. unfold Seeder.storePostsInDatabase. rewrite H. cbn [snd].
  pose proof H as H0.
  apply seedEach_grows in H.
  destruct H as (extra & Hp & Hb & Hc & Hs & Hk & _).
  rewrite (count_posts_app d d' botId extra Hp Hb).
  assert (Hle : (List.length extra <= List.length posts0)%nat).
  { clear - H0 Hs Hk.
    assert (G : forall posts1 d s k d' s' k',
               Seeder.seedEach botId now posts1 d s k = Ok (d', s', k') ->
               k <= k').
    { induction posts1 as [| p rest IH]; intros d1 s k d2 s' k' E.
      - cbn [Seeder.seedEach] in E. inversion E. lia.
      - cbn [Seeder.seedEach] in E. cbv zeta in E.
        destruct (select_id_by_hash d1 botId _).
        + apply IH in E. lia.
        + destruct (insert_post d1 _ _ _ _ _ _ _ _); [| discriminate].
          now apply IH in E. }
    apply G in H0. lia. }
  repeat split; try lia.
  exists extra. split; [exact Hp |].
  apply Forall_forall. intros r Hr. rewrite Forall_forall in Hb, Hc. auto.
Qed.

Lemma storePostsInDatabase_counts_witness :
  Seeder.seedEach "bot-a" 200 Scenario.batch2 Scenario.empty 0 0
  = Ok (Samples.seeded, 2, 0) /\
  2 = count_posts Samples.seeded "bot-a" - count_posts Scenario.empty "bot-a".
Proof.
  assert (E : Seeder.seedEach "bot-a" 200 Scenario.batch2 Scenario.empty 0 0
              = Ok (Samples.seeded, 2, 0)) by (vm_compute; reflexivity).
  split; [exact E |].
  exact (proj1 (storePostsInDatabase_counts _ _ _ _ _ _ _ E)).
Defined.

Lemma count_posts_nonneg (d : Db.t) (botId : string) : 0 <= count_posts d botId.
Proof. unfold count_posts. lia. Qed.

(** X13. [seedAllPosts] seeds once: when a run has succeeded, every later
    run finds the bot's rows and leaves the whole database as it is; a run
    on a bot without rows that succeeds leaves at least one row and counts
    all 2016 generated posts into the statistics; a run that fails changes
    nothing. *)
Theorem seedAllPosts_once (d : Db.t) (botId : string) (t1 t2 : Z) :
  match seedAllPosts d botId t1 with
  | (Ok _, d1) =>
      seedAllPosts d1 botId t2 = (Ok tt, d1) /\
      0 < count_posts d1 botId /\
      (count_posts d botId = 0 ->
       bot_stats d1 = map (replenished 2016 botId t1) (bot_stats d)) /\
      (0 < count_posts d botId -> d1 = d)
  | (Throw _, d1) => d1 = d
  end.
Proof.
  unfold seedAllPosts at 1. unfold getExistingPostCount. cbv zeta.
  destruct (0 <? count_posts d botId) eqn:E.
  - apply Z.ltb_lt in E. split; [| split; [exact E | split; [lia | reflexivity]]].
    unfold seedAllPosts, getExistingPostCount. cbv zeta.
    apply Z.ltb_lt in E. now rewrite E.
  - apply Z.ltb_ge in E. pose proof (count_posts_nonneg d botId) as Hn.
    assert (Hzero : count_posts d botId = 0) by lia.
    unfold storeAndCount. rewrite ExpansionFacts.generateAllPosts_is.
    unfold Seeder.storePostsInDatabase.
    destruct (Seeder.seedEach botId t1 Samples.allPosts d 0 0)
      as [[[d' s] k] | e] eqn:Es; [| reflexivity].
    apply seedEach_grows in Es.
    destruct Es as (extra & Hp & Hb & _ & _ & _ & Hst & _ & Hne).
    assert (Hsome : extra <> []).
    { apply Hne; [| exact Hzero]. vm_compute. discriminate. }
    assert (Hpos : 0 < count_posts (updateBotStats d' botId
                      (Z.of_nat (List.length Samples.allPosts)) t1) botId).
    { change (0 < count_posts d' botId).
      rewrite (count_posts_app d d' botId extra Hp Hb).
      destruct extra; [now destruct Hsome | cbn [List.length]; lia]. }
    split; [| split; [exact Hpos | split; [| lia]]].
    + unfold seedAllPosts, getExistingPostCount. cbv zeta.
      apply Z.ltb_lt in Hpos. now rewrite Hpos.
    + intros _. unfold updateBotStats, update_stats_replenished.
      cbn [bot_stats with_bot_stats]. rewrite Hst.
      replace (Z.of_nat (List.length Samples.allPosts)) with 2016
        by (vm_compute; reflexivity).
      reflexivity.
Qed.

(** X14. [clearAllPosts] leaves no post of this bot and sets the three
    counters of its statistics row to zero, so that the row agrees with the
    table again; posts and statistics of other bots stay as they are, and
    so do the dates of the last post and the last replenishment.  When the
    DELETE fails the database is unchanged. *)
Theorem clearAllPosts_resets (d : Db.t) (botId : string) (now : Z) :
  match clearAllPosts d botId now with
  | (Ok _, d') =>
      count_posts d' botId = 0 /\
      PostManager.getNextPost d' botId = None /\
      (forall s, In s (bot_stats d') -> BotStats.bot_id s = botId ->
         BotStats.total_posts s = 0 /\ Samples.in_step d' s) /\
      (forall other, other <> botId ->
         filter (fun r => String.eqb (Posts.bot_id r) other) (posts d')
         = filter (fun r => String.eqb (Posts.bot_id r) other) (posts d) /\
         select_stats d' other = select_stats d other) /\
      map BotStats.last_post_at (bot_stats d')
      = map BotStats.last_post_at (bot_stats d) /\
      map BotStats.last_replenishment_at (bot_stats d')
      = map BotStats.last_replenishment_at (bot_stats d)
  | (Throw _, d') => d' = d
  end.
Proof.
  unfold clearAllPosts.
  destruct (Maintenance.delete_where d _) as [[d1 n] | e] eqn:E; [| reflexivity].
  apply DeletionFacts.delete_where_ok in E. destruct E as (Hp & _ & Hs & _).
  set (d' := with_bot_stats d1 (map (cleared botId now) (bot_stats d1))).
  assert (Hposts : posts d' = posts d1) by reflexivity.
  assert (Hnone : filter (fun r => String.eqb (Posts.bot_id r) botId) (posts d') = []).
  { rewrite Hposts, Hp. apply StoreFacts.filter_none. intros r Hr.
    apply filter_In in Hr. destruct Hr as [_ Hr].
    now apply negb_true_iff in Hr. }
  assert (Hcount : count_posts d' botId = 0)
    by (unfold count_posts; now rewrite Hnone).
  assert (Hused : count_used d' botId = 0).
  { unfold count_used.
    rewrite (StoreFacts.filter_none _ (posts d')); [reflexivity |].
    intros r Hr.
    destruct (String.eqb (Posts.bot_id r) botId) eqn:Eb; [| reflexivity].
    assert (Hin : In r (filter (fun r => String.eqb (Posts.bot_id r) botId)
                               (posts d')))
      by (apply filter_In; auto).
    rewrite Hnone in Hin. contradiction. }
  split; [exact Hcount |]. split; [| split; [| split; [| split]]].
  - unfold PostManager.getNextPost, select_next_unused.
    rewrite (StoreFacts.filter_none _ (posts d')); [reflexivity |].
    intros r Hr. unfold unused_of.
    destruct (String.eqb (Posts.bot_id r) botId) eqn:Eb; [| reflexivity].
    assert (Hin : In r (filter (fun r => String.eqb (Posts.bot_id r) botId)
                               (posts d')))
      by (apply filter_In; auto).
    rewrite Hnone in Hin. contradiction.
  - intros s Hin Hb. cbn in Hin. apply in_map_iff in Hin.
    destruct Hin as (s0 & <- & _). unfold cleared in *.
    destruct (String.eqb (BotStats.bot_id s0) botId) eqn:Eb.
    + cbn in Hb. unfold Samples.in_step. cbn. rewrite Hb, Hcount, Hused.
      repeat split.
    + apply String.eqb_neq in Eb. contradiction.
  - intros other Hne. split.
    + rewrite Hposts, Hp. apply DeletionFacts.filter_absorb.
      intros r Hr. apply String.eqb_eq in Hr. apply negb_true_iff.
      apply String.eqb_neq. congruence.
    + unfold select_stats. cbn. rewrite Hs.
      generalize (bot_stats d). clear - Hne. intros stats.
      induction stats as [| s l IH]; [reflexivity |].
      cbn [map find].
      destruct (String.eqb (BotStats.bot_id s) botId) eqn:Eb.
      * assert (Hc : BotStats.bot_id (cleared botId now s) = BotStats.bot_id s)
          by (unfold cleared; now rewrite Eb).
        rewrite Hc. apply String.eqb_eq in Eb.
        assert (Ho : String.eqb (BotStats.bot_id s) other = false)
          by (apply String.eqb_neq; congruence).
        rewrite Ho. exact IH.
      * assert (Hc : cleared botId now s = s)
          by (unfold cleared; now rewrite Eb).
        rewrite Hc.
        destruct (String.eqb (BotStats.bot_id s) other); [reflexivity | exact IH].
  - cbn. rewrite Hs, map_map. apply map_ext. intros s. unfold cleared.
    now destruct (String.eqb (BotStats.bot_id s) botId).
  - cbn. rewrite Hs, map_map. apply map_ext. intros s. unfold cleared.
    now destruct (String.eqb (BotStats.bot_id s) botId).
Qed.

End SeedingFacts.

Module ScheduleFacts.
Import Bot.
Import Notions.
Import Schedule.

Lemma sleep_clock (ms : Js.number) (w : world) : clock w < clock (sleep ms w).
Proof.
  unfold sleep, emit. cbn [clock].
  destruct ms as [z |]; [| lia].
  destruct ((1 <=? z) && (z <=? 2147483647)) eqn:E; [| lia].
  apply andb_true_iff in E. destruct E as [E _]. apply Z.leb_le in E. lia.
Qed.

Section Blocked.
Variable env : Process.env.
Variable postTweet : nat -> string -> Z * outcome string.
Hypothesis Hpos : forall k c, 0 <= fst (postTweet k c).

Lemma attempts_clock (content : string) :
  forall (n : nat) (attempt : Z) (w : world),
    clock w <= clock (snd (attempts env postTweet n attempt content w)).
Proof.
  induction n as [| n IH]; intros attempt w; cbn [attempts]; [cbn; lia |].
  unfold tryPost. pose proof (Hpos (calls w) content) as Hel.
  destruct (postTweet (calls w) content) as [el res]. cbn [fst] in Hel.
  cbn [emit db clock calls trace].
  destruct (Process.BOT_NAME env) as [b |]; cbn [Db.insert_post_log].
  - destruct res as [tweetId | e]; [cbn; lia |].
    cbv zeta. destruct (Js.strict_eq (Js.Num attempt) (maxRetries env)).
    + cbn. lia.
    + match goal with
      | |- _ <= clock (snd (attempts _ _ _ _ _ (sleep ?ms ?v))) =>
          pose proof (IH (attempt + 1) (sleep ms v)) as Hrec;
          pose proof (sleep_clock ms v) as Hs;
          assert (Hv : clock v = clock w + el) by reflexivity
      end.
      lia.
  - destruct res as [tweetId | e]; cbn; lia.
Qed.

End Blocked.

Lemma oldest_app (A B : list Posts.row) :
  Db.oldest (A ++ B)
  = match Db.oldest A, Db.oldest B with
    | None, x => x
    | x, None => x
    | Some a, Some b =>
        if Posts.created_at a <=? Posts.created_at b then Some a else Some b
    end.
Proof.
  induction A as [| a A' IH]; cbn [app Db.oldest].
  - now destruct (Db.oldest B).
  - rewrite IH.
    destruct (Db.oldest A') as [m1 |], (Db.oldest B) as [m2 |]; try reflexivity;
      repeat match goal with
             | |- context [?x <=? ?y] => destruct (x <=? y) eqn:?
             end;
      try reflexivity;
      repeat match goal with
             | H : (_ <=? _) = true |- _ => apply Z.leb_le in H
             | H : (_ <=? _) = false |- _ => apply Z.leb_gt in H
             end;
      lia.
Qed.

Lemma oldest_stays (A B : list Posts.row) (r : Posts.row) :
  Db.oldest A = Some r ->
  Forall (fun q => Posts.created_at r <= Posts.created_at q) B ->
  Db.oldest (A ++ B) = Some r.
Proof.
  intros HA HB. rewrite oldest_app, HA.
  destruct (Db.oldest B) as [m |] eqn:E; [| reflexivity].
  apply StoreFacts.oldest_least in E. destruct E as [Hm _].
  rewrite Forall_forall in HB. specialize (HB m Hm).
  apply Z.leb_le in HB. now rewrite HB.
Qed.

Lemma generatePosts_appends_now (env : Process.env) (w : world) :
  exists extra,
    Db.posts (db (snd (generatePosts env w))) = (Db.posts (db w) ++ extra)%list /\
    Forall (fun r => Posts.created_at r = now w) extra /\
    clock (snd (generatePosts env w)) = clock w /\
    calls (snd (generatePosts env w)) = calls w /\
    trace (snd (generatePosts env w)) = (trace w ++ [Replenished])%list.
Proof.
  unfold generatePosts.
  destruct Generator.generateAllPosts as [ps | e];
    [| exists []; rewrite app_nil_r; repeat split; constructor].
  unfold PostManager.storePosts. cbn [emit db].
  destruct (PostManager.storeEach _ _ ps (db w)) as [d' | e] eqn:E;
    [| exists []; cbn; rewrite app_nil_r; repeat split; constructor].
  destruct (StoreFacts.storeEach_appends _ _ _ _ _ E)
    as (extra & Hp & Hall & _).
  exists extra. cbn. repeat split; try assumption.
  eapply Forall_impl; [| exact Hall]. cbn. intros r (_ & _ & H). exact H.
Qed.

Lemma checkAndGeneratePosts_appends_now (env : Process.env) (w : world) :
  exists extra evs,
    Db.posts (db (checkAndGeneratePosts env w)) = (Db.posts (db w) ++ extra)%list /\
    Forall (fun r => Posts.created_at r = now w) extra /\
    clock (checkAndGeneratePosts env w) = clock w /\
    calls (checkAndGeneratePosts env w) = calls w /\
    trace (checkAndGeneratePosts env w) = (trace w ++ evs)%list /\
    tweeted evs = [].
Proof.
  unfold checkAndGeneratePosts.
  destruct (Js.le _ (threshold env)).
  - destruct (generatePosts_appends_now env w) as (extra & H1 & H2 & H3 & H4 & H5).
    exists extra, [Replenished]. repeat split; assumption.
  - exists [], []. rewrite !app_nil_r. repeat split. constructor.
Qed.

(** One cycle in which every attempt fails: the post that was next is
    next again. *)
Lemma blocked_cycle (env : Process.env)
    (postTweet : nat -> string -> Z * outcome string) (b : string)
    (post : PostManager.Post) (w : world) :
  Process.BOT_NAME env = Some b ->
  (forall k c, exists e, snd (postTweet k c) = Throw e) ->
  (forall k c, 0 <= fst (postTweet k c)) ->
  PostManager.getNextPost (db w) (PostManager.botId env) = Some post ->
  PostManager.created_at post <= now w ->
  let w' := scheduledPost env postTweet w in
  let n := iterations (maxRetries env) in
  PostManager.getNextPost (db w') (PostManager.botId env) = Some post /\
  clock w <= clock w' /\
  calls w' = (calls w + n)%nat /\
  exists evs, trace w' = (trace w ++ evs)%list /\
              tweeted evs = repeat (PostManager.content post) n.
Proof.
  intros Hb Hfail Hpos Hnext Hpast. cbv zeta.
  unfold scheduledPost, executePost. rewrite Hnext. unfold postWithRetry.
  pose proof (attempts_clock env postTweet Hpos (PostManager.content post)
                (iterations (maxRetries env)) 1 w) as Hclock.
  destruct (BotFacts.attempts_all_fail env postTweet b (PostManager.content post)
              Hb Hfail (iterations (maxRetries env)) 1 w
              (BotFacts.iterations_bound env))
    as (res & w1 & rows & evs & Hrun & Hres & Hcalls & Hposts & _ & _ & _ & _
        & Htrace & _ & Htweets & _).
  rewrite Hrun in *. cbn [snd] in Hclock. rewrite Hres. cbn [snd].
  destruct (checkAndGeneratePosts_appends_now env w1)
    as (extra & evs2 & Hp2 & Hnow & Hc2 & Hk2 & Ht2 & Htw2).
  split; [| split; [| split]].
  - unfold PostManager.getNextPost in *. unfold Db.select_next_unused in *.
    rewrite Hp2, Hposts, filter_app.
    destruct (Db.oldest (filter (Db.unused_of (PostManager.botId env))
                                (Db.posts (db w)))) as [r |] eqn:E;
      [| discriminate].
    inversion Hnext; subst post. cbn [PostManager.toPost PostManager.created_at] in Hpast.
    rewrite (oldest_stays _ _ r E); [reflexivity |].
    apply Forall_forall. intros q Hq. apply filter_In in Hq.
    destruct Hq as [Hq _]. rewrite Forall_forall in Hnow.
    rewrite (Hnow q Hq). unfold now in *.
    pose proof (Z.div_le_mono (clock w) (clock w1) 1000). lia.
  - rewrite Hc2. exact Hclock.
  - rewrite Hk2. exact Hcalls.
  - exists (evs ++ evs2)%list. split.
    + rewrite Ht2, Htrace, app_assoc. reflexivity.
    + rewrite BotFacts.tweeted_app, Htweets, Htw2, app_nil_r. reflexivity.
Qed.

(** X15. A post that cannot be published blocks the queue.  When every call
    of [postTweet] fails, every scheduled run picks the post that was next
    before, sends it [maxRetries] times and leaves it unused: after any
    number of runs it is still the next post, and nothing else has been
    sent.  (The posts a replenishment adds in between are younger, so they
    never come first.) *)
Theorem failing_post_blocks (env : Process.env)
    (postTweet : nat -> string -> Z * outcome string) (b : string)
    (post : PostManager.Post) (waits : list Z) (w : world) :
  Process.BOT_NAME env = Some b ->
  (forall k c, exists e, snd (postTweet k c) = Throw e) ->
  (forall k c, 0 <= fst (postTweet k c)) ->
  Forall (fun wait => 0 <= wait) waits ->
  PostManager.getNextPost (db w) (PostManager.botId env) = Some post ->
  PostManager.created_at post <= now w ->
  let w' := ticks env postTweet waits w in
  let n := iterations (maxRetries env) in
  PostManager.getNextPost (db w') (PostManager.botId env) = Some post /\
  calls w' = (calls w + List.length waits * n)%nat /\
  exists evs, trace w' = (trace w ++ evs)%list /\
              tweeted evs
              = repeat (PostManager.content post) (List.length waits * n).
Proof.
  intros Hb Hfail Hpos Hwaits. revert w.
  induction Hwaits as [| wait rest Hwait _ IH]; intros w Hnext Hpast; cbv zeta.
  - cbn. rewrite Nat.add_0_r. split; [exact Hnext |]. split; [reflexivity |].
    exists []. now rewrite app_nil_r.
  - cbn [ticks List.length].
    set (v := mkWorld (db w) (clock w + wait) (calls w) (trace w)).
    assert (Hpast' : PostManager.created_at post <= now v).
    { unfold now in *. cbn [clock v].
      pose proof (Z.div_le_mono (clock w) (clock w + wait) 1000). lia. }
    destruct (blocked_cycle env postTweet b post v Hb Hfail Hpos Hnext Hpast')
      as (Hnext1 & Hclock1 & Hcalls1 & evs1 & Htrace1 & Htw1).
    assert (Hpast1 : PostManager.created_at post
                     <= now (scheduledPost env postTweet v)).
    { unfold now in *.
      pose proof (Z.div_le_mono (clock v)
                    (clock (scheduledPost env postTweet v)) 1000). lia. }
    destruct (IH _ Hnext1 Hpast1) as (Hnext2 & Hcalls2 & evs2 & Htrace2 & Htw2).
    split; [exact Hnext2 |]. split.
    + rewrite Hcalls2, Hcalls1. cbn [calls v]. lia.
    + exists (evs1 ++ evs2)%list. split.
      * rewrite Htrace2, Htrace1, app_assoc. reflexivity.
      * rewrite BotFacts.tweeted_app, Htw1, Htw2, <- repeat_app.
        f_equal; lia.
Qed.

Lemma failing_post_blocks_witness :
  let w := Scenario.start Scenario.one in
  let post := PostManager.toPost (Scenario.stored 1 "Test post one." "bot-a" 100) in
  PostManager.getNextPost (db w) "bot-a" = Some post /\
  PostManager.created_at post <= now w /\
  PostManager.getNextPost
    (db (ticks Scenario.env Scenario.fail [86400000; 86400000] w)) "bot-a"
  = Some post /\
  calls (ticks Scenario.env Scenario.fail [86400000; 86400000] w) = 6%nat.
Proof.
  cbv zeta.
  assert (H1 : PostManager.getNextPost (db (Scenario.start Scenario.one)) "bot-a"
               = Some (PostManager.toPost
                         (Scenario.stored 1 "Test post one." "bot-a" 100)))
    by (vm_compute; reflexivity).
  assert (H2 : PostManager.created_at
                 (PostManager.toPost
                    (Scenario.stored 1 "Test post one." "bot-a" 100))
               <= now (Scenario.start Scenario.one))
    by (vm_compute; discriminate).
  split; [exact H1 |]. split; [exact H2 |].
  destruct (failing_post_blocks Scenario.env Scenario.fail "bot-a"
              (PostManager.toPost (Scenario.stored 1 "Test post one." "bot-a" 100))
              [86400000; 86400000] (Scenario.start Scenario.one))
    as (Hnext & Hcalls & _).
  - reflexivity.
  - intros k c. exists "Rate limit exceeded". reflexivity.
  - intros k c. cbn. lia.
  - repeat constructor; lia.
  - exact H1.
  - exact H2.
  - split; [exact Hnext |]. rewrite Hcalls. reflexivity.
Defined.

End ScheduleFacts.

Module CycleFacts.
Import Bot.
Import Notions.

(** A post that repeats the content of an earlier one is never inserted. *)
Lemma insertBatch_first_occurrences (posts0 : list Types.PostGenerationResult) :
  forall (held seen : list string),
    (forall c, In c seen ->
       existsb (String.eqb (PostManager.generateContentHash c)) held = true) ->
    fst (Spec.insertBatch held posts0)
    = fst (Spec.insertBatch held (Samples.firstOccurrences seen posts0)).
Proof.
  induction posts0 as [| p rest IH]; intros held seen Hseen; [reflexivity |].
  cbn [Samples.firstOccurrences].
  destruct (existsb (String.eqb (Types.content p)) seen) eqn:Es.
  - apply existsb_exists in Es. destruct Es as (c & Hc & Ec).
    apply String.eqb_eq in Ec. subst c.
    cbn [Spec.insertBatch]. cbv zeta. rewrite (Hseen _ Hc).
    rewrite <- (IH held seen Hseen).
    now destruct (Spec.insertBatch held rest).
  - cbn [Spec.insertBatch]. cbv zeta.
    destruct (existsb (String.eqb (PostManager.generateContentHash
                                     (Types.content p))) held) eqn:Eh.
    + assert (Hseen' : forall c, In c (Types.content p :: seen) ->
                existsb (String.eqb (PostManager.generateContentHash c)) held
                = true)
        by (intros c [<- | Hc]; [exact Eh | now apply Hseen]).
      pose proof (IH held (Types.content p :: seen) Hseen') as H.
      destruct (Spec.insertBatch held rest),
               (Spec.insertBatch held
                  (Samples.firstOccurrences (Types.content p :: seen) rest)).
      exact H.
    + assert (Hseen' : forall c, In c (Types.content p :: seen) ->
                existsb (String.eqb (PostManager.generateContentHash c))
                        (PostManager.generateContentHash (Types.content p) :: held)
                = true).
      { intros c [<- | Hc]; cbn [existsb].
        - now rewrite String.eqb_refl.
        - rewrite (Hseen c Hc). apply orb_true_r. }
      pose proof (IH _ (Types.content p :: seen) Hseen') as H.
      destruct (Spec.insertBatch
                  (PostManager.generateContentHash (Types.content p) :: held) rest),
               (Spec.insertBatch
                  (PostManager.generateContentHash (Types.content p) :: held)
                  (Samples.firstOccurrences (Types.content p :: seen) rest)).
      cbn [fst] in *. now rewrite H.
Qed.

Lemma first_batch_distinct : fst (Spec.insertBatch [] Samples.allPosts) = 322.
Proof.
  rewrite (insertBatch_first_occurrences Samples.allPosts [] [])
    by (intros c []).
  vm_compute. reflexivity.
Qed.

Lemma count_used_fresh (rows : list Posts.row) (botId : string) :
  Forall (fun r => Posts.used r = false) rows ->
  filter (fun r => String.eqb (Posts.bot_id r) botId && Posts.used r) rows = [].
Proof.
  intros H. apply StoreFacts.filter_none. intros r Hr.
  rewrite Forall_forall in H. rewrite (H r Hr). apply andb_false_r.
Qed.

(** X16. The first replenishment counts what it generated, not what it
    stored.  On a table without posts [generatePosts] succeeds and stores
    322 rows, one per distinct sentence of the 2016 it generated, while it
    adds 2016 to the total and to the remaining count of the statistics
    row. *)
Theorem first_replenishment_overcounts (env : Process.env) (w : world) :
  Db.posts (db w) = [] ->
  let w' := snd (generatePosts env w) in
  let botId := PostManager.botId env in
  fst (generatePosts env w) = Ok tt /\
  PostManager.getPostCount (db w') botId = PostManager.mkPostCount 322 0 322 /\
  Db.bot_stats (db w')
  = map (Db.replenished 2016 botId (now w)) (Db.bot_stats (db w)).
Proof.
  intros Hempty. cbv zeta.
  destruct (BotFacts.generatePosts_own env w) as [Hok Hstats].
  { rewrite Hempty. intros r []. }
  split; [exact Hok |]. split; [| exact Hstats].
  unfold generatePosts. rewrite ExpansionFacts.generateAllPosts_is.
  pose proof first_batch_distinct as Hbatch.
  remember Samples.allPosts as ps eqn:Eps. clear Eps.
  unfold PostManager.storePosts. cbn [emit db].
  destruct (StoreFacts.storeEach_refines_insertBatch (PostManager.botId env)
              (now (emit w Replenished)) ps (db w) [])
    as (d' & E & Hcount).
  { rewrite Hempty. intros r []. }
  { intros h. rewrite Hempty. reflexivity. }
  rewrite E. cbn [snd db with_db].
  destruct (StoreFacts.storeEach_appends _ _ _ _ _ E) as (extra & Hp & Hall & _).
  unfold PostManager.getPostCount.
  change (Db.count_posts (Db.update_stats_replenished d' _ _ _) (PostManager.botId env))
    with (Db.count_posts d' (PostManager.botId env)).
  change (Db.count_used (Db.update_stats_replenished d' _ _ _) (PostManager.botId env))
    with (Db.count_used d' (PostManager.botId env)).
  rewrite Hcount, Hbatch.
  assert (Hzero : Db.count_posts (db w) (PostManager.botId env) = 0)
    by (unfold Db.count_posts; now rewrite Hempty).
  assert (Hused : Db.count_used d' (PostManager.botId env) = 0).
  { unfold Db.count_used. rewrite Hp, Hempty. cbn [app].
    rewrite count_used_fresh; [reflexivity |].
    eapply Forall_impl; [| exact Hall]. cbn. tauto. }
  rewrite Hzero, Hused. reflexivity.
Qed.

Lemma first_replenishment_overcounts_witness :
  Db.posts (db (Scenario.start Scenario.empty)) = [] /\
  let w' := snd (generatePosts Scenario.env (Scenario.start Scenario.empty)) in
  let botId := PostManager.botId Scenario.env in
  fst (generatePosts Scenario.env (Scenario.start Scenario.empty)) = Ok tt /\
  PostManager.getPostCount (db w') botId = PostManager.mkPostCount 322 0 322 /\
  Db.bot_stats (db w')
  = map (Db.replenished 2016 botId (now (Scenario.start Scenario.empty)))
        (Db.bot_stats (db (Scenario.start Scenario.empty))).
Proof.
  split; [reflexivity |].
  exact (first_replenishment_overcounts Scenario.env
           (Scenario.start Scenario.empty) eq_refl).
Defined.

Lemma nothing_unused (d : Db.t) (botId : string) :
  (forall r, In r (Db.posts d) -> Posts.bot_id r = botId -> Posts.used r = true) ->
  PostManager.getNextPost d botId = None.
Proof.
  intros Hused. unfold PostManager.getNextPost, Db.select_next_unused.
  rewrite StoreFacts.filter_none; [reflexivity |].
  intros r Hr. unfold Db.unused_of.
  destruct (String.eqb (Posts.bot_id r) botId) eqn:E; [| reflexivity].
  apply String.eqb_eq in E. now rewrite (Hused r Hr E).
Qed.

(** One scheduled run of a bot that has used all it holds and holds all
    that is generated. *)
Lemma silent_cycle (env : Process.env)
    (postTweet : nat -> string -> Z * outcome string) (w : world) :
  (forall r, In r (Db.posts (db w)) ->
             Posts.bot_id r = PostManager.botId env -> Posts.used r = true) ->
  (forall p, In p Samples.allPosts ->
     owns (PostManager.botId env)
          (PostManager.generateContentHash (Types.content p))
          (Db.posts (db w)) = true) ->
  let w' := Schedule.scheduledPost env postTweet w in
  calls w' = calls w /\
  Db.posts (db w') = Db.posts (db w) /\
  Db.post_logs (db w') = Db.post_logs (db w) /\
  trace w' = (trace w ++ [Replenished])%list /\
  Db.bot_stats (db w')
  = map (Db.replenished 2016 (PostManager.botId env) (now w))
        (Db.bot_stats (db w)).
Proof.
  intros Hused Hown. cbv zeta.
  assert (Hlen : Z.of_nat (List.length Samples.allPosts) = 2016)
    by (vm_compute; reflexivity).
  unfold Schedule.scheduledPost, executePost.
  rewrite (nothing_unused _ _ Hused).
  unfold generatePosts. rewrite ExpansionFacts.generateAllPosts_is.
  revert Hown Hlen. generalize Samples.allPosts. intros ps Hown Hlen.
  unfold PostManager.storePosts. cbn [emit db].
  rewrite StoreFacts.storeEach_nothing_new by exact Hown.
  cbn [snd db with_db emit calls trace]. rewrite Hlen.
  repeat split.
Qed.

Lemma replenished_found (n : Z) (botId : string) (t : Z)
    (stats : list BotStats.row) (s : BotStats.row) :
  find (fun s => String.eqb (BotStats.bot_id s) botId) stats = Some s ->
  exists s',
    find (fun s => String.eqb (BotStats.bot_id s) botId)
         (map (Db.replenished n botId t) stats) = Some s' /\
    BotStats.remaining_posts s' = BotStats.remaining_posts s + n /\
    BotStats.used_posts s' = BotStats.used_posts s.
Proof.
  intros H.
  rewrite BotFacts.find_map_same, H.
  - apply find_some in H. destruct H as [_ E].
    eexists. split; [reflexivity |].
    unfold Db.replenished. rewrite E. split; reflexivity.
  - intros x. unfold Db.replenished.
    destruct (String.eqb (BotStats.bot_id x) botId) eqn:E;
      cbn [BotStats.bot_id]; exact E.
Qed.

(** X17. A bot that has used all it holds falls silent for good.  The
    generator always produces the same sentences, so once the bot holds
    every one of them and all its posts are used, no scheduled run finds a
    post, calls [postTweet] or stores a row, however many runs follow: the
    posts table and the log stay as they are and [getNextPost] keeps
    returning nothing, while every run books 2016 more posts as remaining
    in the statistics. *)
Theorem exhausted_bot_stays_silent (env : Process.env)
    (postTweet : nat -> string -> Z * outcome string) (waits : list Z)
    (w : world) :
  (forall r, In r (Db.posts (db w)) ->
             Posts.bot_id r = PostManager.botId env -> Posts.used r = true) ->
  (forall p, In p Samples.allPosts ->
     owns (PostManager.botId env)
          (PostManager.generateContentHash (Types.content p))
          (Db.posts (db w)) = true) ->
  let w' := Schedule.ticks env postTweet waits w in
  calls w' = calls w /\
  Db.posts (db w') = Db.posts (db w) /\
  Db.post_logs (db w') = Db.post_logs (db w) /\
  PostManager.getNextPost (db w') (PostManager.botId env) = None /\
  trace w' = (trace w ++ repeat Replenished (List.length waits))%list /\
  (forall s,
     PostManager.getBotStats (db w) (PostManager.botId env) = Some s ->
     exists s',
       PostManager.getBotStats (db w') (PostManager.botId env) = Some s' /\
       BotStats.remaining_posts s'
       = BotStats.remaining_posts s + 2016 * Z.of_nat (List.length waits) /\
       BotStats.used_posts s' = BotStats.used_posts s).
Proof.
  revert w. induction waits as [| wait rest IH]; intros w Hused Hown; cbv zeta.
  - cbn [Schedule.ticks List.length repeat]. rewrite app_nil_r.
    repeat (split; [reflexivity |]).
    split; [now apply nothing_unused |]. split; [reflexivity |].
    intros s Hs. exists s. split; [exact Hs |]. split; [lia | reflexivity].
  - cbn [Schedule.ticks].
    set (v := mkWorld (db w) (clock w + wait) (calls w) (trace w)).
    destruct (silent_cycle env postTweet v Hused Hown)
      as (Hcalls & Hposts & Hlogs & Htrace & Hstats).
    set (v1 := Schedule.scheduledPost env postTweet v) in *.
    destruct (IH v1) as (Hcalls' & Hposts' & Hlogs' & Hnone & Htrace' & Hstats').
    + rewrite Hposts. exact Hused.
    + rewrite Hposts. exact Hown.
    + split; [now rewrite Hcalls', Hcalls |].
      split; [now rewrite Hposts', Hposts |].
      split; [now rewrite Hlogs', Hlogs |].
      split; [exact Hnone |]. split.
      * rewrite Htrace', Htrace. cbn [trace v List.length repeat].
        now rewrite <- app_assoc.
      * intros s Hs.
        destruct (replenished_found 2016 (PostManager.botId env) (now v)
                    (Db.bot_stats (db w)) s Hs) as (s1 & Hs1 & Hr1 & Hu1).
        destruct (Hstats' s1) as (s' & Hs' & Hr' & Hu').
        { unfold PostManager.getBotStats, Db.select_stats. rewrite Hstats.
          exact Hs1. }
        exists s'. split; [exact Hs' |]. split; [| congruence].
        rewrite Hr', Hr1. cbn [List.length]. lia.
Qed.

Lemma owns_set_used (botId h : string) (t : Z) (rows : list Posts.row) :
  owns botId h (map (Db.set_used t) rows) = owns botId h rows.
Proof.
  unfold owns. induction rows as [| r rest IH]; [reflexivity |].
  cbn [map existsb]. now rewrite IH.
Qed.

Lemma stocked_owns (p : Types.PostGenerationResult) :
  In p Samples.allPosts ->
  owns "bot-a" (PostManager.generateContentHash (Types.content p))
       (Db.posts Samples.stocked) = true.
Proof.
  intros Hp. unfold Samples.stocked, PostManager.storePosts.
  destruct (StoreFacts.storeEach_own_ok "bot-a" 100 Samples.allPosts
              Scenario.empty) as [d' E]; [intros r [] |].
  rewrite E. exact (StoreFacts.storeEach_owns _ _ _ _ _ E p Hp).
Qed.

Lemma exhausted_bot_stays_silent_witness :
  let w := Scenario.start Samples.exhausted in
  let w' := Schedule.ticks Scenario.env Scenario.succeed
              [86400000; 86400000] w in
  (forall r, In r (Db.posts (db w)) ->
             Posts.bot_id r = PostManager.botId Scenario.env ->
             Posts.used r = true) /\
  calls w' = calls w /\
  PostManager.getNextPost (db w') (PostManager.botId Scenario.env) = None.
Proof.
  cbv zeta.
  assert (Hposts : Db.posts (db (Scenario.start Samples.exhausted))
                   = map (Db.set_used 200) (Db.posts Samples.stocked))
    by reflexivity.
  assert (Hused : forall r,
            In r (Db.posts (db (Scenario.start Samples.exhausted))) ->
            Posts.bot_id r = PostManager.botId Scenario.env ->
            Posts.used r = true).
  { intros r Hr _. rewrite Hposts in Hr.
    destruct (proj1 (in_map_iff (Db.set_used 200)
                       (Db.posts Samples.stocked) r) Hr) as (r0 & <- & _).
    reflexivity. }
  split; [exact Hused |].
  destruct (exhausted_bot_stays_silent Scenario.env Scenario.succeed
              [86400000; 86400000] (Scenario.start Samples.exhausted) Hused)
    as (Hcalls & _ & _ & Hnone & _).
  - intros p Hp. rewrite Hposts, owns_set_used. now apply stocked_owns.
  - split; [exact Hcalls | exact Hnone].
Defined.

(** X18. Without [BOT_NAME] nothing a cycle does is recorded.  The post
    manager falls back to the id template-bot, but the log rows bind
    [process.env.BOT_NAME] itself: the first attempt calls [postTweet], the
    INSERT of its log row fails, and [executePost] throws with the database
    as it was.  Whatever [postTweet] did, the post is still unused and still
    the next one. *)
Theorem unnamed_bot_records_nothing (env : Process.env)
    (postTweet : nat -> string -> Z * outcome string)
    (post : PostManager.Post) (w : world) :
  Process.BOT_NAME env = None ->
  iterations (maxRetries env) <> O ->
  PostManager.getNextPost (db w) (PostManager.botId env) = Some post ->
  let w' := snd (executePost env postTweet w) in
  let answer := postTweet (calls w) (PostManager.content post) in
  PostManager.botId env = "template-bot" /\
  fst (executePost env postTweet w)
  = Throw "SQLITE_CONSTRAINT: NOT NULL constraint failed: post_logs.bot_id" /\
  db w' = db w /\
  calls w' = S (calls w) /\
  trace w' = (trace w ++ [Tweeted (PostManager.content post) (snd answer)])%list /\
  PostManager.getNextPost (db w') (PostManager.botId env) = Some post.
Proof.
  intros Hb Hn Hnext. cbv zeta.
  split; [unfold PostManager.botId; now rewrite Hb |].
  unfold executePost, postWithRetry. rewrite Hnext.
  destruct (iterations (maxRetries env)) as [| n]; [now destruct Hn |].
  cbn [attempts]. unfold tryPost.
  destruct (postTweet (calls w) (PostManager.content post))
    as [elapsed [tweetId | e]];
    cbn [emit db clock calls trace]; rewrite Hb; cbn [Db.insert_post_log];
    cbn [fst snd db calls trace]; repeat split; exact Hnext.
Qed.

Lemma unnamed_bot_records_nothing_witness :
  let w := Scenario.start Samples.template_one in
  fst (executePost Samples.anonymous Scenario.succeed w)
  = Throw "SQLITE_CONSTRAINT: NOT NULL constraint failed: post_logs.bot_id" /\
  trace (snd (executePost Samples.anonymous Scenario.succeed w))
  = [Tweeted "Test post one." (Ok "ext-123")] /\
  db (snd (executePost Samples.anonymous Scenario.succeed w))
  = Samples.template_one.
Proof.
  cbv zeta.
  destruct (unnamed_bot_records_nothing Samples.anonymous Scenario.succeed
              (PostManager.toPost
                 (Scenario.stored 1 "Test post one." "template-bot" 100))
              (Scenario.start Samples.template_one))
    as (_ & Hthrow & Hdb & _ & Htrace & _).
  - reflexivity.
  - vm_compute. discriminate.
  - vm_compute. reflexivity.
  - split; [exact Hthrow |]. split; [exact Htrace | exact Hdb].
Defined.

End CycleFacts.

Module RecoverFacts.
Import Bot.
Import Notions.

Section Recover.
Variable env : Process.env.
Variable postTweet : nat -> string -> Z * outcome string.

Lemma attempts_recover (b content ext : string) (el : Z) :
  Process.BOT_NAME env = Some b ->
  forall (j n : nat) (attempt : Z) (w : world),
    (forall i, (i < j)%nat ->
       exists e, snd (postTweet (calls w + i) content) = Throw e) ->
    postTweet (calls w + j) content = (el, Ok ext) ->
    (forall i, (i < j)%nat -> maxRetries env <> Js.Num (attempt + Z.of_nat i)) ->
    (j < n)%nat ->
    exists w' rows evs,
      attempts env postTweet n attempt content w
      = (Ok (mkPostResult true (Some ext) None), w') /\
      calls w' = (calls w + j + 1)%nat /\
      Db.posts (db w') = Db.posts (db w) /\
      Db.bot_stats (db w') = Db.bot_stats (db w) /\
      Db.post_logs (db w') = (Db.post_logs (db w) ++ rows)%list /\
      map PostLogs.attempt_number rows
      = (map (fun i => attempt + Z.of_nat i) (seq 0 j) ++ [1])%list /\
      map PostLogs.success rows = (repeat false j ++ [true])%list /\
      trace w' = (trace w ++ evs)%list /\
      sleeps evs = repeat (retryDelay env) j /\
      tweeted evs = repeat content (S j).
Proof.
  intros Hb. induction j as [| j IH]; intros n attempt w Hfail Hok Hmax Hn.
  - destruct n as [| n]; [lia |].
    rewrite Nat.add_0_r in Hok.
    cbn [attempts]. unfold tryPost. rewrite Hok.
    cbn [emit db clock calls trace]. rewrite Hb.
    cbv beta iota zeta delta [Db.insert_post_log].
    eexists _, [_], [_]. split; [reflexivity |].
    cbn. rewrite Nat.add_0_r, Nat.add_1_r. repeat split.
  - destruct n as [| n]; [lia |].
    destruct (Hfail O ltac:(lia)) as [e He]. rewrite Nat.add_0_r in He.
    destruct (postTweet (calls w) content) as [elapsed r] eqn:Hp.
    cbn [snd] in He. subst r.
    rewrite (BotFacts.attempts_fail_step env postTweet n attempt elapsed b
               content e w Hb Hp).
    assert (Hne : Js.strict_eq (Js.Num attempt) (maxRetries env) = false).
    { pose proof (Hmax O ltac:(lia)) as H0. rewrite Z.add_0_r in H0.
      unfold Js.strict_eq. destruct (maxRetries env) as [m |]; [| reflexivity].
      apply Z.eqb_neq. congruence. }
    rewrite Hne.
    set (w1 := sleep (retryDelay env) (failed_once b content e elapsed attempt w)).
    assert (Hcalls1 : calls w1 = S (calls w)) by reflexivity.
    destruct (IH n (attempt + 1) w1)
      as (w' & rows & evs & Hrun & Hcalls & Hposts & Hstats & Hlogs & Hnum
          & Hsucc & Htrace & Hsleeps & Htweets).
    + intros i Hi. rewrite Hcalls1.
      replace (S (calls w) + i)%nat with (calls w + S i)%nat by lia.
      apply Hfail. lia.
    + rewrite Hcalls1.
      replace (S (calls w) + j)%nat with (calls w + S j)%nat by lia. exact Hok.
    + intros i Hi.
      replace (attempt + 1 + Z.of_nat i) with (attempt + Z.of_nat (S i)) by lia.
      apply Hmax. lia.
    + lia.
    + exists w',
        (PostLogs.mk (Db.post_logs_seq (db w) + 1) b None attempt false
                     None (Some e) None ((clock w + elapsed) / 1000) :: rows),
        (Tweeted content (Throw e) :: Slept (retryDelay env) :: evs).
      split; [exact Hrun |].
      cbn in Hposts, Hstats, Hlogs, Htrace.
      split; [rewrite Hcalls, Hcalls1; lia |].
      split; [exact Hposts |]. split; [exact Hstats |].
      split; [rewrite Hlogs, <- app_assoc; reflexivity |].
      split.
      { cbn [map]. rewrite Hnum, <- BotFacts.numbered_cons. reflexivity. }
      split; [cbn [map repeat app]; now rewrite Hsucc |].
      split; [rewrite Htrace, <- !app_assoc; reflexivity |].
      split; [unfold sleeps in *; cbn [flat_map app repeat]; now rewrite Hsleeps |].
      unfold tweeted in *. cbn [flat_map app]. rewrite Htweets. reflexivity.
Qed.

End Recover.

(** X19. When the (j+1)-th call of [postTweet] is the first one to succeed
    and [maxRetries] allows it, [postWithRetry] returns success after j+1
    calls and j sleeps: it has written j failure rows with attempt numbers
    1 to j, and a success row whose attempt number is 1 whatever j is,
    because the INSERT of the success row leaves [attempt_number] to its
    default. *)
Theorem postWithRetry_recovers (env : Process.env)
    (postTweet : nat -> string -> Z * outcome string)
    (b content ext : string) (el : Z) (j : nat) (w : world) :
  Process.BOT_NAME env = Some b ->
  (forall i, (i < j)%nat ->
     exists e, snd (postTweet (calls w + i)%nat content) = Throw e) ->
  postTweet (calls w + j)%nat content = (el, Ok ext) ->
  (j < iterations (maxRetries env))%nat ->
  exists w' rows evs,
    postWithRetry env postTweet content w
    = (Ok (mkPostResult true (Some ext) None), w') /\
    calls w' = (calls w + j + 1)%nat /\
    Db.post_logs (db w') = (Db.post_logs (db w) ++ rows)%list /\
    map PostLogs.attempt_number rows = (map Z.of_nat (seq 1 j) ++ [1])%list /\
    map PostLogs.success rows = (repeat false j ++ [true])%list /\
    trace w' = (trace w ++ evs)%list /\
    sleeps evs = repeat (retryDelay env) j /\
    tweeted evs = repeat content (S j) /\
    Db.posts (db w') = Db.posts (db w).
Proof.
  intros Hb Hfail Hok Hj. unfold postWithRetry.
  destruct (attempts_recover env postTweet b content ext el Hb j
              (iterations (maxRetries env)) 1 w Hfail Hok)
    as (w' & rows & evs & Hrun & Hcalls & Hposts & _ & Hlogs & Hnum & Hsucc
        & Htrace & Hsleeps & Htweets).
  - intros i Hi Hm. unfold iterations in Hj. rewrite Hm in Hj. lia.
  - exact Hj.
  - exists w', rows, evs. rewrite <- BotFacts.numbered_from_one.
    repeat split; assumption.
Qed.

Lemma postWithRetry_recovers_witness :
  exists w' rows evs,
    postWithRetry Scenario.env Samples.flaky "Test post one."
      (Scenario.start Scenario.one)
    = (Ok (mkPostResult true (Some "ext-123") None), w') /\
    calls w' = 2%nat /\
    Db.post_logs (db w') = rows /\
    map PostLogs.attempt_number rows = [1; 1] /\
    map PostLogs.success rows = [false; true] /\
    trace w' = evs.
Proof.
  destruct (postWithRetry_recovers Scenario.env Samples.flaky "bot-a"
              "Test post one." "ext-123" 120 1 (Scenario.start Scenario.one))
    as (w' & rows & evs & Hrun & Hcalls & Hlogs & Hnum & Hsucc & Htrace & _).
  - reflexivity.
  - intros i Hi. exists "Rate limit exceeded".
    destruct i as [| i]; [reflexivity | lia].
  - reflexivity.
  - vm_compute. lia.
  - exists w', rows, evs. repeat split; assumption.
Defined.

End RecoverFacts.

Module StatusFacts.
Import Bot.
Import Notions.
Import Control.

Lemma replenished_bot_id (n : Z) (botId : string) (now : Z) (s : BotStats.row) :
  BotStats.bot_id (Db.replenished n botId now s) = BotStats.bot_id s.
Proof. unfold Db.replenished. now destruct (String.eqb _ _). Qed.

(** X20. [getStatus] reports the counter of the statistics row, not the
    table.  A replenishment that follows a successful one stores nothing
    new, and the number of unused posts in the table stays the same, yet
    the remaining count that [getStatus] reports grows by 2016 (it is 0 when
    the bot has no statistics row). *)
Theorem status_follows_statistics (env : Process.env) (initialized : bool)
    (w : world) :
  match generatePosts env w with
  | (Ok _, w1) =>
      forall (clock' : Z) (calls' : nat) (trace' : list event),
        let w2 := snd (generatePosts env (mkWorld (db w1) clock' calls' trace')) in
        PostManager.remaining
          (PostManager.getPostCount (db w2) (PostManager.botId env))
        = PostManager.remaining
            (PostManager.getPostCount (db w1) (PostManager.botId env)) /\
        remainingPosts (getStatus env initialized w2)
        = match PostManager.getBotStats (db w1) (PostManager.botId env) with
          | Some _ => remainingPosts (getStatus env initialized w1) + 2016
          | None => 0
          end
  | (Throw _, w1) => db w1 = db w
  end.
Proof.
  assert (Hlen : Z.of_nat (List.length Samples.allPosts) = 2016)
    by (vm_compute; reflexivity).
  unfold generatePosts. rewrite ExpansionFacts.generateAllPosts_is.
  remember Samples.allPosts as ps eqn:Eps. clear Eps.
  unfold PostManager.storePosts. cbn [emit db].
  destruct (PostManager.storeEach _ _ ps (db w)) as [d1 | e] eqn:E;
    [| reflexivity].
  intros clock' calls' trace'. cbv zeta. cbn [db with_db emit].
  pose proof (StoreFacts.storeEach_owns _ _ _ _ _ E) as Hown.
  set (d2 := Db.update_stats_replenished d1 _ _ _).
  rewrite StoreFacts.storeEach_nothing_new by exact Hown.
  cbn [snd db with_db]. split; [reflexivity |].
  unfold getStatus, PostManager.getBotStats, Db.select_stats.
  cbn [db]. fold (PostManager.botId env).
  unfold Db.update_stats_replenished at 1.
  cbn [Db.bot_stats Db.with_bot_stats db with_db emit].
  rewrite BotFacts.find_map_same by (intros x; now rewrite replenished_bot_id).
  destruct (find _ (Db.bot_stats d2)) as [s |] eqn:Es; [| reflexivity].
  apply find_some in Es. destruct Es as [_ Es].
  cbn [option_map remainingPosts]. unfold Db.replenished. rewrite Es.
  cbn [BotStats.remaining_posts]. rewrite Hlen. reflexivity.
Qed.

End StatusFacts.

Module TwitterFacts.
Import Bot.
Import Notions.
Import Twitter.

Lemma postTweet_answered (sv : service)
    (tweet : string -> outcome (option string)) (content tweetId : string) :
  postTweet sv tweet content = Posted tweetId ->
  exists answer, tweet content = Ok answer.
Proof.
  unfold postTweet, tryTweet.
  destruct (negb (isInitialized sv) || negb (client sv)); [discriminate |].
  destruct (280 <? String.length content)%nat; [discriminate |].
  destruct (Js.trim content); [discriminate |].
  destruct (tweet content) as [answer | e]; [eauto | discriminate].
Qed.

(** X21. [postTweet] returns a tweet id in one case only: the service is
    initialised, the content has at most 280 characters and is not blank,
    and the API answered with that id, which is not empty. *)
Theorem postTweet_posted (sv : service)
    (tweet : string -> outcome (option string)) (content tweetId : string) :
  postTweet sv tweet content = Posted tweetId <->
  isInitialized sv = true /\ client sv = true /\
  (String.length content <= 280)%nat /\ Js.trim content <> "" /\
  tweet content = Ok (Some tweetId) /\ tweetId <> "".
Proof.
  unfold postTweet, tryTweet. split.
  - intros H.
    destruct (isInitialized sv); [| discriminate H].
    destruct (client sv); [| discriminate H].
    cbn [negb orb] in H.
    destruct (280 <? String.length content)%nat eqn:El; [discriminate H |].
    apply Nat.ltb_ge in El.
    destruct (Js.trim content) as [| c rest] eqn:Et; [discriminate H |].
    destruct (tweet content) as [[[| c' id] |] | e]; try discriminate H.
    inversion H; subst tweetId.
    split; [reflexivity |]. split; [reflexivity |]. split; [exact El |].
    split; [discriminate |]. split; [reflexivity | discriminate].
  - intros (-> & -> & Hl & Ht & -> & Hid). cbn [negb orb].
    apply Nat.ltb_ge in Hl. rewrite Hl.
    destruct (Js.trim content); [now destruct Ht |].
    destruct tweetId; [now destruct Hid | reflexivity].
Qed.

Lemma postTweet_posted_witness :
  postTweet Samples.ready (Samples.accept O) "Test post one." = Posted "ext-123".
Proof.
  apply (proj2 (postTweet_posted Samples.ready (Samples.accept O)
                  "Test post one." "ext-123")).
  split; [reflexivity |]. split; [reflexivity |].
  split; [vm_compute; lia |]. split; [vm_compute; discriminate |].
  split; [reflexivity | discriminate].
Defined.

(** X22. Content that is too long or blank never reaches the API: the
    answer of [postTweet] is the same whatever the API would do.  The checks
    throw their error as not retryable, but the [catch] of the same function
    catches it and throws the generic error instead, so the caller sees it
    as retryable. *)
Theorem postTweet_rejects_unsent (sv : service) (content : string) :
  isInitialized sv = true -> client sv = true ->
  (280 < String.length content)%nat \/ Js.trim content = "" ->
  exists e,
    (forall tweet, postTweet sv tweet content = Failed e) /\
    retryable e = true /\
    String.prefix "Failed to post tweet: " (message e) = true.
Proof.
  intros Hi Hc Hbad. unfold postTweet, tryTweet. rewrite Hi, Hc. cbn [negb orb].
  destruct (280 <? String.length content)%nat eqn:El.
  - eexists. split; [intros tweet; reflexivity |]. split; reflexivity.
  - destruct Hbad as [Hlong | Hblank].
    + apply Nat.ltb_ge in El. lia.
    + rewrite Hblank. eexists. split; [intros tweet; reflexivity |].
      split; reflexivity.
Qed.

Lemma postTweet_rejects_unsent_witness :
  exists e,
    (forall tweet, postTweet Samples.ready tweet "   " = Failed e) /\
    retryable e = true.
Proof.
  destruct (postTweet_rejects_unsent Samples.ready "   " eq_refl eq_refl)
    as (e & Hall & Hr & _).
  - right. reflexivity.
  - exists e. split; [exact Hall | exact Hr].
Defined.

(** X23. The bot does not look at [retryable].  When the API refuses every
    tweet as a duplicate, each call of [postTweet] fails with an error that
    is marked not retryable, and [postWithRetry] still makes all
    [maxRetries] calls and sleeps between them. *)
Theorem duplicate_is_retried (env : Process.env) (sv : service)
    (tweet : nat -> string -> outcome (option string)) (elapsed : nat -> Z)
    (b content : string) (w : world) :
  Process.BOT_NAME env = Some b ->
  isInitialized sv = true -> client sv = true ->
  (String.length content <= 280)%nat -> Js.trim content <> "" ->
  (forall k c, exists msg, tweet k c = Throw msg /\
                           Js.includes msg "rate limit" = false /\
                           Js.includes msg "duplicate" = true) ->
  let n := iterations (maxRetries env) in
  (forall k, postTweet sv (tweet k) content
             = Failed (mkError "Duplicate tweet content" false)) /\
  exists res w' evs,
    postWithRetry env (publisher sv tweet elapsed) content w = (Ok res, w') /\
    success res = false /\
    calls w' = (calls w + n)%nat /\
    trace w' = (trace w ++ evs)%list /\
    tweeted evs = repeat content n /\
    sleeps evs = repeat (retryDelay env) (n - 1).
Proof.
  intros Hb Hi Hc Hl Ht Hdup. cbv zeta. split.
  - intros k. unfold postTweet, tryTweet. rewrite Hi, Hc. cbn [negb orb].
    apply Nat.ltb_ge in Hl. rewrite Hl.
    destruct (Js.trim content); [now destruct Ht |].
    destruct (Hdup k content) as (msg & -> & Hr & Hd).
    unfold rethrow. now rewrite Hr, Hd.
  - unfold postWithRetry.
    destruct (BotFacts.attempts_all_fail env (publisher sv tweet elapsed) b content
                Hb) with (n := iterations (maxRetries env)) (attempt := 1) (w := w)
      as (res & w' & rows & evs & Hrun & Hres & Hcalls & _ & _ & _ & _ & _
          & Htrace & Hsleeps & Htweets & _).
    + intros k c. unfold publisher. cbn [snd].
      destruct (postTweet sv (tweet k) c) as [id | e] eqn:E.
      * apply postTweet_answered in E. destruct E as (answer & E).
        destruct (Hdup k c) as (msg & Hm & _). congruence.
      * eauto.
    + apply BotFacts.iterations_bound.
    + exists res, w', evs. repeat split; assumption.
Qed.

Lemma duplicate_is_retried_witness :
  exists res w' evs,
    postWithRetry Scenario.env
      (publisher Samples.ready Samples.refuse Samples.no_time)
      "Test post one." (Scenario.start Scenario.one) = (Ok res, w') /\
    success res = false /\
    calls w' = 3%nat /\
    trace w' = evs.
Proof.
  destruct (duplicate_is_retried Scenario.env Samples.ready Samples.refuse
              Samples.no_time "bot-a" "Test post one."
              (Scenario.start Scenario.one))
    as (_ & res & w' & evs & Hrun & Hres & Hcalls & Htrace & _).
  - reflexivity.
  - reflexivity.
  - reflexivity.
  - vm_compute. lia.
  - vm_compute. discriminate.
  - intros k c. eexists. split; [reflexivity |]. split; vm_compute; reflexivity.
  - exists res, w', evs. repeat split; assumption.
Defined.

End TwitterFacts.

Module OpenAiFacts.
Import OpenAi.

Lemma substring_length (n : nat) (s : string) :
  String.length (String.substring 0 n s) = Nat.min n (String.length s).
Proof.
  revert s. induction n as [| n IH]; intros [| c s]; cbn; try reflexivity.
  now rewrite IH.
Qed.

(** X24. What [validateAndCleanContent] lets through is fit to post: it has
    between 10 and 280 characters, and its lower-case form holds none of the
    words of the deny list, not even inside another word. *)
Theorem validateAndCleanContent_sound (content cleaned : string) :
  validateAndCleanContent content = Some cleaned ->
  (10 <= String.length cleaned <= 280)%nat /\
  Forall (fun word => Js.includes (Js.toLowerCase cleaned) word = false)
         inappropriateWords.
Proof.
  unfold validateAndCleanContent. cbv zeta.
  set (c1 := Js.trim (stripRole content)).
  set (c2 := if startsWithQuote c1 && endsWithQuote c1 then slice_1_1 c1 else c1).
  set (c3 := if (280 <? String.length c2)%nat
             then String.substring 0 277 c2 ++ "..." else c2).
  destruct (String.length c3 <? 10)%nat eqn:Eshort; [discriminate |].
  destruct (existsb _ inappropriateWords) eqn:Ebad; [discriminate |].
  intros H. inversion H; subst cleaned. clear H.
  apply Nat.ltb_ge in Eshort. split.
  - split; [exact Eshort |]. unfold c3.
    destruct (280 <? String.length c2)%nat eqn:El.
    + rewrite HashFacts.append_length, substring_length.
      apply Nat.ltb_lt in El. cbn [String.length]. lia.
    + now apply Nat.ltb_ge in El.
  - apply Forall_forall. intros word Hw.
    destruct (Js.includes (Js.toLowerCase c3) word) eqn:E; [| reflexivity].
    assert (Hx : existsb (fun word => Js.includes (Js.toLowerCase c3) word)
                   inappropriateWords = true)
      by (apply existsb_exists; eauto).
    congruence.
Qed.

Lemma validateAndCleanContent_sound_witness :
  validateAndCleanContent "User: A fine day in the North."
  = Some "A fine day in the North." /\
  (10 <= String.length "A fine day in the North." <= 280)%nat.
Proof.
  assert (E : validateAndCleanContent "User: A fine day in the North."
              = Some "A fine day in the North.") by (vm_compute; reflexivity).
  split; [exact E |].
  exact (proj1 (validateAndCleanContent_sound _ _ E)).
Defined.

End OpenAiFacts.

Module LedgerFacts.
Import Db.
Import Notions.

Lemma count_used_other (postId : Z) (botId other : string) (now : Z)
    (rows : list Posts.row) :
  other <> botId ->
  filter (fun r => String.eqb (Posts.bot_id r) other && Posts.used r)
         (map (mark postId botId now) rows)
  = filter (fun r => String.eqb (Posts.bot_id r) other && Posts.used r) rows.
Proof.
  intros Hne. induction rows as [| r rest IH]; [reflexivity |].
  cbn [map filter]. rewrite IH. unfold mark.
  destruct (targets postId botId r) eqn:Et; [| reflexivity].
  unfold targets in Et. apply andb_true_iff in Et. destruct Et as [_ Eb].
  apply String.eqb_eq in Eb.
  assert (Ho : String.eqb (Posts.bot_id r) other = false)
    by (apply String.eqb_neq; congruence).
  cbn [set_used Posts.bot_id]. now rewrite Ho.
Qed.

Lemma filter_nil_none {A : Type} (f : A -> bool) (l : list A) :
  filter f l = [] -> forall r, In r l -> f r = false.
Proof.
  intros H r Hr. destruct (f r) eqn:E; [| reflexivity].
  assert (Hin : In r (filter f l)) by (apply filter_In; auto).
  rewrite H in Hin. contradiction.
Qed.

Lemma in_step_counts (d d' : Db.t) (s : BotStats.row) :
  count_posts d' (BotStats.bot_id s) = count_posts d (BotStats.bot_id s) ->
  count_used d' (BotStats.bot_id s) = count_used d (BotStats.bot_id s) ->
  Samples.in_step d s -> Samples.in_step d' s.
Proof. unfold Samples.in_step. intros -> ->. tauto. Qed.

(** X25. [markPostAsUsed] keeps the statistics in step with the table.
    Post ids being unique, when every statistics row agrees with the posts
    table before the call (used count, and remaining = total - used), every
    row agrees with it after the call, whether the post was unused, already
    used, or not there at all. *)
Theorem markPostAsUsed_keeps_step (d : Db.t) (botId : string) (postId : Z)
    (tweetId : option string) (now : Z) :
  NoDup (map Posts.id (posts d)) ->
  Forall (Samples.in_step d) (bot_stats d) ->
  let d' := PostManager.markPostAsUsed d botId postId tweetId now in
  Forall (Samples.in_step d') (bot_stats d').
Proof.
  intros Hnd Hstep. cbv zeta. unfold PostManager.markPostAsUsed.
  set (d' := update_post_used d postId botId now).
  assert (Hposts : posts d' = map (mark postId botId now) (posts d))
    by apply StoreFacts.update_post_used_posts.
  assert (Hcount : forall b, count_posts d' b = count_posts d b)
    by (intros b; apply StoreFacts.count_posts_mark).
  assert (Hstats : bot_stats d'
                   = fire_used (filter (targets postId botId) (posts d)) now
                               (bot_stats d)) by reflexivity.
  destruct (filter (targets postId botId) (posts d)) as [| r rest] eqn:Ehit.
  - (* no such post *)
    pose proof (filter_nil_none _ _ Ehit) as Hnone.
    rewrite Hstats. cbn [fire_used].
    apply Forall_forall. intros s Hs. rewrite Forall_forall in Hstep.
    apply (in_step_counts d d' s (Hcount _)); [| now apply Hstep].
    unfold count_used. rewrite Hposts.
    now rewrite (StoreFacts.map_mark_none _ _ _ _ Hnone).
  - assert (Hr : In r (posts d) /\ targets postId botId r = true).
    { apply filter_In. rewrite Ehit. now left. }
    destruct Hr as [Hr Ht]. pose proof Ht as Ht'. unfold targets in Ht'.
    apply andb_true_iff in Ht'. destruct Ht' as [Hid Hb].
    apply Z.eqb_eq in Hid. apply String.eqb_eq in Hb. subst postId.
    pose proof (DeletionFacts.filter_one _ r botId Hnd Hr Hb) as Hone.
    rewrite Ehit in Hone. destruct rest; [| discriminate Hone].
    rewrite Hstats. cbn [fire_used].
    destruct (Posts.used r) eqn:Hu; cbn [negb].
    + (* already used *)
      apply Forall_forall. intros s Hs. rewrite Forall_forall in Hstep.
      apply (in_step_counts d d' s (Hcount _)); [| now apply Hstep].
      unfold count_used. rewrite Hposts.
      rewrite StoreFacts.count_after_mark_used; [now rewrite length_map |].
      apply Forall_forall. intros q Hq Hqt.
      now rewrite (DeletionFacts.targets_unique _ r q botId Hnd Hr Hq Hqt).
    + (* unused: the trigger fires once *)
      rewrite Hb. apply Forall_forall. intros s' Hs'.
      apply in_map_iff in Hs'. destruct Hs' as (s & <- & Hs).
      rewrite Forall_forall in Hstep. specialize (Hstep s Hs).
      unfold bump_used.
      destruct (String.eqb (BotStats.bot_id s) botId) eqn:Es.
      * apply String.eqb_eq in Es. unfold Samples.in_step in *.
        cbn [BotStats.used_posts BotStats.remaining_posts BotStats.bot_id].
        rewrite Es in *. rewrite Hcount.
        assert (Hup : count_used d' botId = count_used d botId + 1).
        { unfold count_used. rewrite Hposts.
          rewrite (StoreFacts.count_used_mark_one _ _ _ _ r Hnd Hr eq_refl Hb Hu).
          lia. }
        rewrite Hup. lia.
      * apply (in_step_counts d d' s (Hcount _)); [| exact Hstep].
        unfold count_used. rewrite Hposts.
        rewrite count_used_other; [reflexivity |].
        apply String.eqb_neq in Es. exact Es.
Qed.

Lemma markPostAsUsed_keeps_step_witness :
  Forall (Samples.in_step Scenario.one) (bot_stats Scenario.one) /\
  Forall (Samples.in_step
            (PostManager.markPostAsUsed Scenario.one "bot-a" 1 None 200))
         (bot_stats (PostManager.markPostAsUsed Scenario.one "bot-a" 1 None 200)).
Proof.
  assert (H : Forall (Samples.in_step Scenario.one) (bot_stats Scenario.one)).
  { repeat constructor. }
  split; [exact H |].
  apply (markPostAsUsed_keeps_step Scenario.one "bot-a" 1 None 200).
  - vm_compute. repeat constructor. intros [].
  - exact H.
Defined.

(** X26. No post comes up twice.  Once the post [getNextPost] returned is
    marked used, the next answer of [getNextPost] is another post, which is
    unused and not older than the one before. *)
Theorem marked_post_not_next (d : Db.t) (botId : string)
    (post next : PostManager.Post) (tweetId : option string) (now : Z) :
  PostManager.getNextPost d botId = Some post ->
  PostManager.getNextPost
    (PostManager.markPostAsUsed d botId (PostManager.id post) tweetId now) botId
  = Some next ->
  PostManager.id next <> PostManager.id post /\
  PostManager.used next = false /\
  PostManager.created_at post <= PostManager.created_at next.
Proof.
  intros Hpost Hnext.
  destruct (StoreFacts.getNextPost_source _ _ _ Hpost)
    as (r & -> & Hr & Hb & Hu & Hleast & _).
  destruct (StoreFacts.getNextPost_source _ _ _ Hnext)
    as (r' & -> & Hr' & Hb' & Hu' & _).
  unfold PostManager.markPostAsUsed in Hr'.
  rewrite StoreFacts.update_post_used_posts in Hr'.
  apply in_map_iff in Hr'. destruct Hr' as (q & Hq & Hin).
  cbn [PostManager.toPost PostManager.id PostManager.used
       PostManager.created_at] in *.
  unfold mark in Hq.
  destruct (targets (Posts.id r) botId q) eqn:Et.
  - subst r'. cbn in Hu'. discriminate.
  - subst r'. split; [| split; [exact Hu' |]].
    + intros Hid. unfold targets in Et. rewrite Hid, Z.eqb_refl, Hb' in Et.
      rewrite String.eqb_refl in Et. discriminate.
    + now apply Hleast.
Qed.

Lemma marked_post_not_next_witness :
  let post := PostManager.toPost (Scenario.stored 1 "First post." "bot-a" 100) in
  let next := PostManager.toPost (Scenario.stored 2 "Second post." "bot-a" 100) in
  PostManager.getNextPost Scenario.tie "bot-a" = Some post /\
  PostManager.getNextPost
    (PostManager.markPostAsUsed Scenario.tie "bot-a" 1 (Some "ext-123") 200)
    "bot-a" = Some next /\
  PostManager.id next <> PostManager.id post.
Proof.
  cbv zeta.
  assert (H1 : PostManager.getNextPost Scenario.tie "bot-a"
               = Some (PostManager.toPost
                         (Scenario.stored 1 "First post." "bot-a" 100)))
    by (vm_compute; reflexivity).
  assert (H2 : PostManager.getNextPost
                 (PostManager.markPostAsUsed Scenario.tie "bot-a"
                    (PostManager.id
                       (PostManager.toPost
                          (Scenario.stored 1 "First post." "bot-a" 100)))
                    (Some "ext-123") 200) "bot-a"
               = Some (PostManager.toPost
                         (Scenario.stored 2 "Second post." "bot-a" 100)))
    by (vm_compute; reflexivity).
  split; [exact H1 |]. split; [exact H2 |].
  exact (proj1 (marked_post_not_next _ _ _ _ _ _ H1 H2)).
Defined.

End LedgerFacts.

Module EdgeFacts.
Import Bot.
Import Notions.

(** X27. When [MAX_RETRIES] does not parse to a positive number, the loop
    of [postWithRetry] has no iteration: a cycle calls [postTweet] not once,
    writes no log row, marks nothing, and still ends without an error,
    after the replenishment check. *)
Theorem no_attempt_without_retries (env : Process.env)
    (postTweet : nat -> string -> Z * outcome string)
    (post : PostManager.Post) (w : world) :
  maxRetries env = Js.NaN \/ (exists m, maxRetries env = Js.Num m /\ m <= 0) ->
  PostManager.getNextPost (db w) (PostManager.botId env) = Some post ->
  postWithRetry env postTweet (PostManager.content post) w
  = (Ok (mkPostResult false None (Some "Max retries exceeded")), w) /\
  executePost env postTweet w = (Ok tt, checkAndGeneratePosts env w) /\
  calls (snd (executePost env postTweet w)) = calls w /\
  Db.post_logs (db (snd (executePost env postTweet w))) = Db.post_logs (db w) /\
  exists evs, trace (snd (executePost env postTweet w)) = (trace w ++ evs)%list /\
              tweeted evs = [] /\
              forall postId, ~ In (MarkedUsed postId) evs.
Proof.
  intros Hmax Hnext.
  assert (Hzero : iterations (maxRetries env) = O).
  { unfold iterations. destruct Hmax as [-> | (m & -> & Hm)]; [reflexivity |].
    destruct m; try reflexivity; lia. }
  assert (Hrun : postWithRetry env postTweet (PostManager.content post) w
                 = (Ok (mkPostResult false None (Some "Max retries exceeded")), w))
    by (unfold postWithRetry; now rewrite Hzero).
  assert (Hcycle : executePost env postTweet w
                   = (Ok tt, checkAndGeneratePosts env w))
    by (unfold executePost; now rewrite Hnext, Hrun).
  split; [exact Hrun |]. split; [exact Hcycle |]. rewrite Hcycle. cbn [snd].
  destruct (BotFacts.checkAndGeneratePosts_effect env w)
    as (extra & Htrace & _ & _ & Hlogs).
  destruct (ScheduleFacts.checkAndGeneratePosts_appends_now env w)
    as (extra' & evs & _ & _ & _ & Hcalls & _ & _).
  split; [exact Hcalls |]. split; [exact Hlogs |].
  eexists. split; [exact Htrace |]. split.
  - now destruct (Js.le _ _).
  - intros postId. destruct (Js.le _ _); cbn; intuition discriminate.
Qed.

Lemma no_attempt_without_retries_witness :
  maxRetries Samples.no_retries = Js.NaN /\
  calls (snd (executePost Samples.no_retries Scenario.succeed
                (Scenario.start Scenario.one))) = O.
Proof.
  assert (H : maxRetries Samples.no_retries = Js.NaN)
    by (vm_compute; reflexivity).
  split; [exact H |].
  destruct (no_attempt_without_retries Samples.no_retries Scenario.succeed
              (PostManager.toPost (Scenario.stored 1 "Test post one." "bot-a" 100))
              (Scenario.start Scenario.one))
    as (_ & _ & Hcalls & _).
  - left. exact H.
  - vm_compute. reflexivity.
  - exact Hcalls.
Defined.

End EdgeFacts.

Module InvariantFacts.
Import Db.
Import Notions.

Lemma insert_post_unique (d d1 : Db.t) (content botId : string)
    (category : option string) (cost : Q) (tokens : Z) (model hash : string)
    (now : Z) :
  unique_per_bot (posts d) ->
  insert_post d content botId category cost tokens model hash now = Ok d1 ->
  unique_per_bot (posts d1).
Proof.
  intros Hu E. apply StoreFacts.insert_post_ok in E.
  destruct E as (Hfresh & r & Hp & _ & _ & _ & Hb & _ & _ & Hh & _).
  intros b. rewrite Hp, StoreFacts.fingerprints_app.
  unfold fingerprints at 2. cbn [flat_map]. rewrite Hh, app_nil_r.
  destruct (String.eqb (Posts.bot_id r) b); [| rewrite app_nil_r; apply Hu].
  apply NoDup_app; [apply Hu | repeat constructor; intros [] |].
  intros h Hin [<- | []]. apply StoreFacts.fingerprint_held in Hin. congruence.
Qed.

Lemma seedEach_unique (botId : string) (now : Z)
    (posts0 : list Types.PostGenerationResult) :
  forall d s k d' s' k', unique_per_bot (posts d) ->
    Seeder.seedEach botId now posts0 d s k = Ok (d', s', k') ->
    unique_per_bot (posts d').
Proof.
  induction posts0 as [| p0 rest IH]; intros d s k d' s' k' Hu H;
    cbn [Seeder.seedEach] in H; cbv zeta in H.
  - now inversion H; subst.
  - destruct (select_id_by_hash d botId _) as [i |]; [now apply IH in H |].
    destruct (insert_post d _ _ _ _ _ _ _ _) as [d1 |] eqn:E; [| discriminate].
    apply IH in H; [exact H |]. eapply insert_post_unique; eauto.
Qed.

Lemma fingerprints_mark (b : string) (postId : Z) (botId : string) (now : Z)
    (rows : list Posts.row) :
  fingerprints b (map (mark postId botId now) rows) = fingerprints b rows.
Proof.
  induction rows as [| r rest IH]; [reflexivity |].
  unfold fingerprints in *. cbn [map flat_map]. rewrite IH. f_equal.
  unfold mark. now destruct (targets postId botId r).
Qed.

Lemma fingerprints_filter_in (b h : string) (f : Posts.row -> bool)
    (rows : list Posts.row) :
  In h (fingerprints b (filter f rows)) -> In h (fingerprints b rows).
Proof.
  unfold fingerprints. rewrite !in_flat_map. intros (r & Hr & Hh).
  apply filter_In in Hr. destruct Hr as [Hr _]. eauto.
Qed.

Lemma fingerprints_filter_unique (b : string) (f : Posts.row -> bool)
    (rows : list Posts.row) :
  NoDup (fingerprints b rows) -> NoDup (fingerprints b (filter f rows)).
Proof.
  induction rows as [| r rest IH]; [trivial |].
  change (fingerprints b (r :: rest))
    with ((if String.eqb (Posts.bot_id r) b then
             match Posts.content_hash r with Some h => [h] | None => [] end
           else []) ++ fingerprints b rest)%list.
  intros Hnd. cbn [filter].
  assert (Hrest : NoDup (fingerprints b rest))
    by (apply NoDup_app_remove_l in Hnd; exact Hnd).
  destruct (f r); [| now apply IH].
  change (fingerprints b (r :: filter f rest))
    with ((if String.eqb (Posts.bot_id r) b then
             match Posts.content_hash r with Some h => [h] | None => [] end
           else []) ++ fingerprints b (filter f rest))%list.
  destruct (String.eqb (Posts.bot_id r) b); [| now apply IH].
  destruct (Posts.content_hash r) as [h |]; [| now apply IH].
  cbn [app] in *. inversion Hnd as [| ? ? Hnot Hnd']; subst.
  constructor; [| now apply IH].
  intros Hin. apply Hnot. eapply fingerprints_filter_in; exact Hin.
Qed.

Lemma delete_where_unique (d : Db.t) (doomed : Posts.row -> bool) :
  unique_per_bot (posts d) ->
  match Maintenance.delete_where d doomed with
  | Ok (d', _) => unique_per_bot (posts d')
  | Throw _ => True
  end.
Proof.
  intros Hu.
  destruct (Maintenance.delete_where d doomed) as [[d' n] | e] eqn:E; [| exact I].
  apply DeletionFacts.delete_where_ok in E. destruct E as (Hp & _).
  intros b. rewrite Hp. apply fingerprints_filter_unique. apply Hu.
Qed.

Section Run.
Variable env : Process.env.
Variable postTweet : nat -> string -> Z * outcome string.

Lemma attempts_posts (content : string) :
  forall (n : nat) (attempt : Z) (w : Bot.world),
    posts (Bot.db (snd (Bot.attempts env postTweet n attempt content w)))
    = posts (Bot.db w).
Proof.
  induction n as [| n IH]; intros attempt w; cbn [Bot.attempts]; [reflexivity |].
  unfold Bot.tryPost.
  destruct (postTweet (Bot.calls w) content) as [el res].
  cbn [Bot.emit Bot.db Bot.clock Bot.calls Bot.trace].
  destruct (Process.BOT_NAME env) as [b |]; cbn [Db.insert_post_log].
  - destruct res as [tweetId | e]; [reflexivity |].
    cbv zeta. destruct (Js.strict_eq (Js.Num attempt) (Bot.maxRetries env));
      [reflexivity |].
    rewrite IH. reflexivity.
  - destruct res as [tweetId | e]; reflexivity.
Qed.

Lemma generatePosts_unique (w : Bot.world) :
  unique_per_bot (posts (Bot.db w)) ->
  unique_per_bot (posts (Bot.db (snd (Bot.generatePosts env w)))).
Proof.
  intros Hu. unfold Bot.generatePosts.
  destruct Generator.generateAllPosts as [ps | e]; [| exact Hu].
  pose proof (StoreFacts.storePosts_unique (Bot.db (Bot.emit w Bot.Replenished))
                (PostManager.botId env) ps (Bot.now (Bot.emit w Bot.Replenished))
                Hu) as H.
  destruct (PostManager.storePosts _ _ ps _) as [[u | e] d']; exact H.
Qed.

Lemma executePost_unique (w : Bot.world) :
  unique_per_bot (posts (Bot.db w)) ->
  unique_per_bot (posts (Bot.db (snd (Bot.executePost env postTweet w)))).
Proof.
  intros Hu. unfold Bot.executePost.
  destruct (PostManager.getNextPost _ _) as [post |];
    [| now apply generatePosts_unique].
  unfold Bot.postWithRetry.
  pose proof (attempts_posts (PostManager.content post)
                (Bot.iterations (Bot.maxRetries env)) 1 w) as Hsame.
  destruct (Bot.attempts env postTweet _ 1 _ w) as [[res | e] w1];
    cbn [snd] in *; [| now rewrite Hsame].
  unfold Bot.checkAndGeneratePosts.
  assert (Hmid : unique_per_bot
            (posts (Bot.db
               (if Bot.success res
                then Bot.emit
                       (Bot.with_db w1
                          (PostManager.markPostAsUsed (Bot.db w1)
                             (PostManager.botId env) (PostManager.id post)
                             (Bot.tweet_id res) (Bot.now w1)))
                       (Bot.MarkedUsed (PostManager.id post))
                else w1)))).
  { destruct (Bot.success res).
    - intros b. cbn [Bot.db Bot.emit Bot.with_db].
      unfold PostManager.markPostAsUsed.
      rewrite StoreFacts.update_post_used_posts, fingerprints_mark, Hsame.
      apply Hu.
    - now rewrite Hsame. }
  destruct (Js.le _ _); [now apply generatePosts_unique | exact Hmid].
Qed.

End Run.

(** X28. No operation breaks the rule that a bot holds a fingerprint at
    most once.  When no two rows of one bot share a content hash, that is
    still so after [storePosts] and after the seeder's
    [storePostsInDatabase] (committed or rolled back), after
    [markPostAsUsed], [deletePost], [cleanupOldPosts] and [clearAllPosts],
    and after a whole cycle of [executePost], whatever [postTweet] does. *)
Theorem fingerprints_stay_unique (d : Db.t) (botId : string) :
  unique_per_bot (posts d) ->
  (forall posts0 now,
     unique_per_bot (posts (snd (PostManager.storePosts d botId posts0 now)))) /\
  (forall posts0 now,
     unique_per_bot
       (posts (snd (Seeder.storePostsInDatabase d botId posts0 now)))) /\
  (forall postId tweetId now,
     unique_per_bot
       (posts (PostManager.markPostAsUsed d botId postId tweetId now))) /\
  (forall postId,
     unique_per_bot (posts (snd (Maintenance.deletePost d botId postId)))) /\
  (forall daysOld now,
     unique_per_bot
       (posts (snd (Maintenance.cleanupOldPosts d botId daysOld now)))) /\
  (forall now, unique_per_bot (posts (snd (Seeding.clearAllPosts d botId now)))) /\
  (forall env postTweet clock calls trace,
     unique_per_bot
       (posts (Bot.db (snd (Bot.executePost env postTweet
                              (Bot.mkWorld d clock calls trace)))))).
Proof.
  intros Hu. repeat split.
  - intros posts0 now. now apply StoreFacts.storePosts_unique.
  - intros posts0 now. unfold Seeder.storePostsInDatabase.
    destruct (Seeder.seedEach botId now posts0 d 0 0) as [[[d' s] k] | e] eqn:E;
      [| exact Hu].
    eapply seedEach_unique; eauto.
  - intros postId tweetId now b. unfold PostManager.markPostAsUsed.
    rewrite StoreFacts.update_post_used_posts, fingerprints_mark. apply Hu.
  - intros postId. unfold Maintenance.deletePost.
    pose proof (delete_where_unique d (targets postId botId) Hu) as H.
    destruct (Maintenance.delete_where d _) as [[d' n] | e]; [exact H | exact Hu].
  - intros daysOld now. unfold Maintenance.cleanupOldPosts.
    pose proof (delete_where_unique d (Maintenance.old_used botId daysOld now) Hu)
      as H.
    destruct (Maintenance.delete_where d _) as [[d' n] | e]; [exact H | exact Hu].
  - intros now. unfold Seeding.clearAllPosts.
    pose proof (delete_where_unique d
                  (fun r => String.eqb (Posts.bot_id r) botId) Hu) as H.
    destruct (Maintenance.delete_where d _) as [[d' n] | e]; [exact H | exact Hu].
  - intros env postTweet clock calls trace.
    now apply executePost_unique.
Qed.

Lemma fingerprints_stay_unique_witness :
  unique_per_bot (posts Scenario.one) /\
  unique_per_bot
    (posts (snd (PostManager.storePosts Scenario.one "bot-a" Scenario.batch2 200))).
Proof.
  assert (H : unique_per_bot (posts Scenario.one)).
  { intros b. unfold fingerprints, Scenario.one, Scenario.stored.
    cbn [posts flat_map Posts.bot_id Posts.content_hash app].
    destruct (String.eqb "bot-a" b); repeat constructor; intros []. }
  split; [exact H |].
  exact (proj1 (fingerprints_stay_unique Scenario.one "bot-a" H)
           Scenario.batch2 200).
Defined.

End InvariantFacts.
